(** * essmc2.utils.registry: a shallow embedding and its verified properties

    The model follows [src/essmc2/utils/registry.py]:
    - Python objects the registry stores and introspects (classes with their
      method-resolution order, functions, signatures, parsed docstrings);
    - a state-and-exception monad for the imperative code;
    - [Registry] and its registration and lookup methods;
    - the signature introspection ([_get_doc_params], [get_class_arguments],
      [get_function_arguments]);
    - a store of mutable dicts and lists, [copy.deepcopy] over it,
      [build_from_config] and [Registry.build];
    - the listing of a registry ([_list], [__repr__]).
    Then come the predicates in which the properties are stated, the objects
    of the examples, and the proofs: lookup, registration, templates,
    [copy.deepcopy], the builder; and further properties of the registry, the
    builder, the templates and the listing. *)

From Stdlib Require Import String Ascii List ZArith Lia Bool.
From stdpp Require Import base option list gmap strings.

Set Warnings "-register-all".

Local Open Scope string_scope.
Local Open Scope list_scope.

(** ** Python objects *)

(** Immutable Python values, as they occur as parameter defaults. *)
Inductive pyval :=
| PyNone
| PyBool (b : bool)
| PyInt (z : Z)
| PyStr (s : string)
| PyList (items : list pyval)
| PyDict (items : list (string * pyval)).

(** [inspect.Parameter.kind]. *)
Inductive param_kind :=
| POSITIONAL_ONLY
| POSITIONAL_OR_KEYWORD
| VAR_POSITIONAL
| KEYWORD_ONLY
| VAR_KEYWORD.

Definition kind_eqb (a b : param_kind) : bool :=
  match a, b with
  | POSITIONAL_ONLY, POSITIONAL_ONLY
  | POSITIONAL_OR_KEYWORD, POSITIONAL_OR_KEYWORD
  | VAR_POSITIONAL, VAR_POSITIONAL
  | KEYWORD_ONLY, KEYWORD_ONLY
  | VAR_KEYWORD, VAR_KEYWORD => true
  | _, _ => false
  end.

(** A parameter annotation, seen through the two things the code does with
    it: calling it with no argument ([ann_call], [None] when the call raises)
    and reading its [__name__] ([ann_name], [None] when it has none). *)
Record Annotation := {
  ann_call : option pyval;
  ann_name : option string
}.

(** [inspect.Parameter]: [p_default] and [p_annotation] are [None] for
    [inspect.Parameter.empty]. *)
Record InspectParameter := {
  p_name : string;
  p_kind : param_kind;
  p_default : option pyval;
  p_annotation : option Annotation
}.

(** One entry of [docstring_parser]'s [doc.params]. *)
Record DocParam := {
  arg_name : string;
  description : option string
}.

(** A function object: [__name__] (["<lambda>"] for a lambda), the parameters
    of [inspect.signature(func)] in order, and the parameters that
    [parser.parse(func.__doc__)] finds. *)
Record FunctionObj := {
  fn_name : string;
  fn_params : list InspectParameter;
  fn_doc : list DocParam
}.

(** One class of a method-resolution order: [__name__], the parsed
    [__doc__], and the parameters of [inspect.signature(type_c.__init__)]
    (the unbound [__init__], so [self] is among them). *)
Record TypeObj := {
  ty_name : string;
  ty_doc : list DocParam;
  ty_init : list InspectParameter
}.

(** A class object: itself, the rest of its [__mro__], and its truth value
    (every class is true unless its metaclass defines [__bool__] or
    [__len__]). *)
Record ClassObj := {
  cls_type : TypeObj;
  cls_bases : list TypeObj;
  cls_truthy : bool
}.

Definition mro (cls : ClassObj) : list TypeObj := cls_type cls :: cls_bases cls.

(** What can be handed to the registry: a class, a function, or any other
    object, of which only [__name__] (if it has one) and its truth value
    matter. *)
Inductive pyobj :=
| PClass (c : ClassObj)
| PFunction (f : FunctionObj)
| POther (other_name : option string) (other_truthy : bool).

Definition isclass (o : pyobj) : bool :=
  match o with PClass _ => true | _ => false end.

Definition isfunction (o : pyobj) : bool :=
  match o with PFunction _ => true | _ => false end.

(** [o.__name__]; [None] stands for the AttributeError. *)
Definition dunder_name (o : pyobj) : option string :=
  match o with
  | PClass c => Some (ty_name (cls_type c))
  | PFunction f => Some (fn_name f)
  | POther n _ => n
  end.

(** [bool(o)]. A function object is always true. *)
Definition truthy (o : pyobj) : bool :=
  match o with
  | PClass c => cls_truthy c
  | PFunction _ => true
  | POther _ t => t
  end.

(** ** The store of mutable objects *)

(** A config is a mutable dict that may hold further dicts and lists, and the
    claims about it are about sharing; so dicts and lists live in a store and
    are referred to by their location (Python's object identity). Strings,
    numbers, [None], classes and functions are atoms: [copy.deepcopy] returns
    them as they are. An object of another kind has no state here, so that a
    copy of it cannot be told from the object. Dict keys are strings, as in
    every config whose entries are passed on as keyword arguments. *)
Abbreviation loc := nat.

Inductive value :=
| VNone
| VBool (b : bool)
| VInt (z : Z)
| VStr (s : string)
| VObj (o : pyobj)
| VRef (l : loc).

Inductive obj :=
| ODict (entries : list (string * value))
| OList (items : list value).

(** The store: the object at location [l] is [h !! l]; a new object gets the
    location [length h]. Nothing is ever freed. *)
Abbreviation heap := (list obj).

(** ** Exceptions *)

Inductive exc_type :=
| TypeError
| KeyError
| ValueError
| AttributeError
| RecursionError
| Exception_
| UserError (class_name : string)
| SystemExit
| KeyboardInterrupt.

(** [issubclass(ty, Exception)]: what [except Exception] catches. *)
Definition is_Exception (ty : exc_type) : bool :=
  match ty with
  | SystemExit | KeyboardInterrupt => false
  | _ => true
  end.

(** An exception object: its class, its message and its [__context__]. *)
Inductive exn :=
| Exn (ty : exc_type) (msg : string) (context : option exn).

Definition exn_type (e : exn) : exc_type := let 'Exn ty _ _ := e in ty.
Definition exn_msg (e : exn) : string := let 'Exn _ msg _ := e in msg.
Definition exn_context (e : exn) : option exn := let 'Exn _ _ c := e in c.

(** How Python renders, inside an f-string, the objects that are not
    strings. The text is left open: the theorems hold for every rendering. *)
Class Rendering := {
  str_obj : pyobj -> string;             (* f"{cls}", f"{func}" *)
  str_type : pyobj -> string;            (* f"{type(obj)}" *)
  str_tuple : list string -> string;     (* f"{self.allow_types}" *)
  str_exn : exn -> string;               (* f"{e}" *)
  str_type_of : heap -> value -> string; (* f"{type(x)}" for a value of the store *)
  str_value : heap -> value -> string    (* f"{cfg}" *)
}.

(** ** A monad for state and exceptions *)

Inductive result (A : Type) :=
| Ok (a : A)
| Raise (e : exn).
Arguments Ok {A} a.
Arguments Raise {A} e.

Definition M (S A : Type) : Type := S -> result A * S.

Definition ret {S A} (a : A) : M S A := fun s => (Ok a, s).

Definition bind {S A B} (m : M S A) (k : A -> M S B) : M S B :=
  fun s => match m s with
           | (Ok a, s') => k a s'
           | (Raise e, s') => (Raise e, s')
           end.

Definition raise {S A} (e : exn) : M S A := fun s => (Raise e, s).

Definition gets {S A} (f : S -> A) : M S A := fun s => (Ok (f s), s).

Definition modify {S} (f : S -> S) : M S unit := fun s => (Ok tt, f s).

(** [if c: raise e]. *)
Definition raise_if {S} (c : bool) (e : exn) : M S unit :=
  if c then raise e else ret tt.

(** [if c: body]. *)
Definition when {S} (c : bool) (body : M S unit) : M S unit :=
  if c then body else ret tt.

(** [try: m  except Exception as e: handler e]. An exception raised by the
    handler gets the handled one as its [__context__]. *)
Definition with_context (ctx : exn) (e : exn) : exn :=
  let 'Exn ty msg _ := e in Exn ty msg (Some ctx).

Definition try_except_Exception {S A} (m : M S A) (handler : exn -> M S A) : M S A :=
  fun s => match m s with
           | (Ok a, s') => (Ok a, s')
           | (Raise e, s') =>
               if is_Exception (exn_type e) then
                 match handler e s' with
                 | (Raise e', s'') => (Raise (with_context e e'), s'')
                 | r => r
                 end
               else (Raise e, s')
           end.

Declare Scope py_scope.
Delimit Scope py_scope with py.
Notation "x <- m ;; k" := (bind m (fun x => k))
  (at level 100, m at next level, right associativity) : py_scope.
Notation "m ;;; k" := (bind m (fun _ => k))
  (at level 100, right associativity) : py_scope.
Local Open Scope py_scope.

(** ** Registry *)

Record Registry := {
  name : string;
  allow_types : list string;
  class_map : gmap string pyobj;
  func_map : gmap string pyobj
}.

(** [Registry(name, allow_types=...)]. *)
Definition Registry_init (nm : string) (allow : list string) : Registry :=
  {| name := nm; allow_types := allow; class_map := ∅; func_map := ∅ |}.

Definition default_allow_types : list string := ["class"; "function"].

(** The registry object together with the warnings issued so far. *)
Record World := {
  self : Registry;
  warned : list string
}.

Definition set_class_map (f : gmap string pyobj -> gmap string pyobj) (w : World) : World :=
  {| self := {| name := name (self w); allow_types := allow_types (self w);
                class_map := f (class_map (self w)); func_map := func_map (self w) |};
     warned := warned w |}.

Definition set_func_map (f : gmap string pyobj -> gmap string pyobj) (w : World) : World :=
  {| self := {| name := name (self w); allow_types := allow_types (self w);
                class_map := class_map (self w); func_map := f (func_map (self w)) |};
     warned := warned w |}.

(** [warnings.warn(msg)]. *)
Definition warn (msg : string) : M World unit :=
  modify (fun w => {| self := self w; warned := warned w ++ [msg] |}).

(** [x in tuple] for a tuple of strings. *)
Definition str_in (x : string) (l : list string) : bool :=
  existsb (String.eqb x) l.

(** [a or b] on the results of two [dict.get]: [None] and false objects make
    way for [b]. *)
Definition py_or (a b : option pyobj) : option pyobj :=
  match a with
  | Some x => if truthy x then Some x else b
  | None => b
  end.

(** [name or default] for an optional string: [None] and the empty string are false. *)
Definition str_or (nm : option string) (default : string) : string :=
  match nm with
  | Some s => if String.eqb s EmptyString then default else s
  | None => default
  end.

Definition get (r : Registry) (req_type : string) : option pyobj :=
  py_or (class_map r !! req_type) (func_map r !! req_type).

Definition contains (r : Registry) (req_type : string) : bool :=
  bool_decide (is_Some (class_map r !! req_type))
  || bool_decide (is_Some (func_map r !! req_type)).

(** [name or obj.__name__]: the attribute is read only when [name] is false,
    and reading it fails on an object without [__name__]. *)
Definition name_or_dunder {S} (nm : option string) (o : pyobj) : M S string :=
  match nm with
  | Some s =>
      if String.eqb s EmptyString then
        match dunder_name o with
        | Some n => ret n
        | None => raise (Exn AttributeError "__name__" None)
        end
      else ret s
  | None =>
      match dunder_name o with
      | Some n => ret n
      | None => raise (Exn AttributeError "__name__" None)
      end
  end.

Section Registration.
Context `{Rendering}.

(** [self.register_class(name)(cls)]. *)
Definition register_class (nm : option string) (cls : pyobj) : M World pyobj :=
  raise_if (negb (isclass cls))
    (Exn TypeError ("Module must be type class, got " +:+ str_type cls) None) ;;;
  allow <- gets (fun w => allow_types (self w)) ;;
  rname <- gets (fun w => name (self w)) ;;
  raise_if (negb (str_in "class" allow))
    (Exn TypeError ("Register " +:+ rname +:+ " only allows type "
                    +:+ str_tuple allow +:+ ", got class") None) ;;;
  module_name <- name_or_dunder nm cls ;;
  old <- gets (fun w => class_map (self w) !! module_name) ;;
  match old with
  | Some prev =>
      warn ("Class " +:+ module_name +:+ " already registered by " +:+ str_obj prev
            +:+ ", will be replaced by " +:+ str_obj cls)
  | None => ret tt
  end ;;;
  modify (set_class_map (insert module_name cls)) ;;;
  ret cls.

(** [self.register_function(name)(func)]. *)
Definition register_function (nm : option string) (func : pyobj) : M World pyobj :=
  raise_if (negb (isfunction func))
    (Exn TypeError ("Registry must be type function, got " +:+ str_type func) None) ;;;
  allow <- gets (fun w => allow_types (self w)) ;;
  rname <- gets (fun w => name (self w)) ;;
  raise_if (negb (str_in "function" allow))
    (Exn TypeError ("Registry " +:+ rname +:+ " only allows type "
                    +:+ str_tuple allow +:+ ", got function") None) ;;;
  func_name <- name_or_dunder nm func ;;
  old <- gets (fun w => func_map (self w) !! func_name) ;;
  match old with
  | Some prev =>
      warn ("Function " +:+ func_name +:+ " already registered by " +:+ str_obj prev
            +:+ ", will be replaced by " +:+ str_obj func)
  | None => ret tt
  end ;;;
  modify (set_func_map (insert func_name func)) ;;;
  ret func.

(** [inspect.isfunction(instance) and isinstance(instance, types.LambdaType)
    and instance.__name__ == "<lambda>"]; [types.LambdaType] is the type of
    every function. *)
Definition is_lambda (instance : pyobj) : bool :=
  match instance with
  | PFunction f => String.eqb (fn_name f) "<lambda>"
  | _ => false
  end.

(** [self.register_by_hand(instance, name)]. *)
Definition register_by_hand (instance : pyobj) (nm : option string) : M World unit :=
  when (is_lambda instance)
    (match nm with
     | None => raise (Exn ValueError "Lambda function needs a explicit name, got None" None)
     | Some _ => ret tt
     end) ;;;
  nm' <- name_or_dunder nm instance ;;
  allow <- gets (fun w => allow_types (self w)) ;;
  if isfunction instance then
    raise_if (negb (str_in "function" allow))
      (Exn TypeError ("Registry " +:+ nm' +:+ " only allows type "
                      +:+ str_tuple allow +:+ ", got function") None) ;;;
    old <- gets (fun w => func_map (self w) !! nm') ;;
    match old with
    | Some prev =>
        warn ("Function " +:+ nm' +:+ " already registered by " +:+ str_obj prev
              +:+ ", will be replaced by " +:+ str_obj instance)
    | None => ret tt
    end ;;;
    modify (set_func_map (insert nm' instance))
  else if isclass instance then
    raise_if (negb (str_in "class" allow))
      (Exn TypeError ("Registry " +:+ nm' +:+ " only allows type "
                      +:+ str_tuple allow +:+ ", got class") None) ;;;
    old <- gets (fun w => class_map (self w) !! nm') ;;
    match old with
    | Some prev =>
        warn ("Class " +:+ nm' +:+ " already registered by " +:+ str_obj prev
              +:+ ", will be replaced by " +:+ str_obj instance)
    | None => ret tt
    end ;;;
    modify (set_class_map (insert nm' instance))
  else
    raise (Exn TypeError ("Expect instance to be a function or a class, got "
                          +:+ str_type instance) None).

End Registration.

(** ** Signature introspection *)

(** An [OrderedDict] with string keys: association list in insertion order,
    one entry per key. *)
Definition odict (V : Type) : Type := list (string * V).

Fixpoint od_get {V} (k : string) (d : odict V) : option V :=
  match d with
  | [] => None
  | (k', v) :: d' => if String.eqb k k' then Some v else od_get k d'
  end.

Definition od_in {V} (k : string) (d : odict V) : bool :=
  match od_get k d with Some _ => true | None => false end.

(** [d[k] = v]: an existing key keeps its place, a new one goes last. *)
Fixpoint od_set {V} (k : string) (v : V) (d : odict V) : odict V :=
  match d with
  | [] => [(k, v)]
  | (k', v') :: d' => if String.eqb k k' then (k, v) :: d' else (k', v') :: od_set k v d'
  end.

(** Modelled from the spec: [ValueComment] of [essmc2.utils.config], which is
    not among the sources; the spec's ParameterInfo, an immutable pair of a
    default value and a descriptive text. *)
Record ValueComment := {
  vc_value : pyval;
  vc_comment : string
}.

Definition _get_doc_params (params : list DocParam) : odict string :=
  fold_left
    (fun ret param =>
       match description param with
       | Some desc => od_set (arg_name param) desc ret
       | None => ret
       end)
    params [].

Definition newline : string := String "010"%char EmptyString.

(** [len(doc.split('\n'))]: one more than the number of line feeds. *)
Fixpoint split_newline_length (doc : string) : nat :=
  match doc with
  | EmptyString => 1
  | String c rest =>
      if Ascii.eqb c "010"%char then S (split_newline_length rest)
      else split_newline_length rest
  end.

(** The part that [get_class_arguments] (lines 103-126) and
    [get_function_arguments] (lines 146-169) have in common, word for word
    but for the name put into the placeholder: the [ValueComment] of one
    positional-or-keyword parameter. *)
Definition parameter_value_comment
    (owner_name : string) (param_doc_dict : odict string) (value : InspectParameter)
    : ValueComment :=
  let key := p_name value in
  let '(default_value, default_doc) :=
    match p_default value with
    | Some d => (d, EmptyString)
    | None =>
        let default_doc := "TODO: Complete this value for type " +:+ owner_name in
        let '(default_value, default_doc) :=
          match p_annotation value with
          | Some ann =>
              match ann_call ann with
              | Some try_value =>
                  match ann_name ann with
                  | Some n => (try_value, default_doc +:+ ", use default from type " +:+ n +:+ "()")
                  | None => (try_value, default_doc)
                  end
              | None => (PyNone, default_doc)
              end
          | None => (PyNone, default_doc)
          end in
        (default_value, default_doc +:+ ".")
    end in
  let default_doc :=
    match od_get key param_doc_dict with
    | Some doc =>
        if Nat.leb (split_newline_length doc) 1 || Nat.eqb (String.length default_doc) 0
        then default_doc +:+ doc
        else default_doc +:+ newline +:+ doc
    | None => default_doc
    end in
  {| vc_value := default_value; vc_comment := default_doc |}.

(** One turn of the inner loop of [get_class_arguments]. *)
Definition class_parameter_step
    (type_c : TypeObj) (param_doc_dict : odict string)
    (args : odict ValueComment) (value : InspectParameter) : odict ValueComment :=
  let key := p_name value in
  if negb (kind_eqb (p_kind value) POSITIONAL_OR_KEYWORD) then args
  else if od_in key args then args
  else od_set key (parameter_value_comment (ty_name type_c) param_doc_dict value) args.

(** One turn of the outer loop of [get_class_arguments]: one class of the
    method-resolution order. *)
Definition class_level_step (args : odict ValueComment) (type_c : TypeObj) : odict ValueComment :=
  let param_doc_dict := _get_doc_params (ty_doc type_c) in
  let parameters := List.filter (fun value => negb (String.eqb (p_name value) "self")) (ty_init type_c) in
  fold_left (class_parameter_step type_c param_doc_dict) parameters args.

Definition get_class_arguments (cls : ClassObj) : odict ValueComment :=
  fold_left class_level_step (mro cls) [].

(** One turn of the loop of [get_function_arguments]. *)
Definition function_parameter_step
    (func : FunctionObj) (param_doc_dict : odict string)
    (args : odict ValueComment) (value : InspectParameter) : odict ValueComment :=
  let key := p_name value in
  if kind_eqb (p_kind value) VAR_KEYWORD then
    od_set key {| vc_value := PyDict []; vc_comment := EmptyString |} args
  else if kind_eqb (p_kind value) VAR_POSITIONAL then
    od_set key {| vc_value := PyList []; vc_comment := EmptyString |} args
  else if negb (kind_eqb (p_kind value) POSITIONAL_OR_KEYWORD) then args
  else od_set key (parameter_value_comment (fn_name func) param_doc_dict value) args.

Definition get_function_arguments (func : FunctionObj) : odict ValueComment :=
  let parameters := fn_params func in
  let param_doc_dict := _get_doc_params (fn_doc func) in
  fold_left (function_parameter_step func param_doc_dict) parameters [].

(** [Registry.fetch_parameters]. An entry of the wrong kind (which no
    registration method stores) fails inside the introspection: a function
    has no [__mro__], and a class is not what [get_function_arguments]
    expects. *)
Definition fetch_parameters (r : Registry) (req_type : string) : result (odict ValueComment) :=
  match class_map r !! req_type with
  | Some (PClass c) => Ok (get_class_arguments c)
  | Some _ => Raise (Exn AttributeError "__mro__" None)
  | None =>
      match func_map r !! req_type with
      | Some (PFunction f) => Ok (get_function_arguments f)
      | Some _ => Raise (Exn TypeError "is not a callable object" None)
      | None => Raise (Exn ValueError ("Unexpected type " +:+ req_type) None)
      end
  end.

(** ** Dicts and lists in the store *)

Definition od_remove {V} (k : string) (d : odict V) : odict V :=
  List.filter (fun kv => negb (String.eqb k (fst kv))) d.

(** [d.update(other)]. *)
Definition od_update {V} (d other : odict V) : odict V :=
  fold_left (fun d kv => od_set (fst kv) (snd kv) d) other d.

(** The entries of [v] when [isinstance(v, dict)]. *)
Definition dict_of (h : heap) (v : value) : option (odict value) :=
  match v with
  | VRef l => match h !! l with Some (ODict entries) => Some entries | _ => None end
  | _ => None
  end.

Definition alloc (o : obj) : M heap value :=
  fun h => (Ok (VRef (length h)), h ++ [o]).

(** [y.append(v)] for the list at location [y]. *)
Definition list_append (y : loc) (v : value) (h : heap) : heap :=
  match h !! y with
  | Some (OList items) => <[y := OList (items ++ [v])]> h
  | _ => h
  end.

(** [y[k] = v] for the dict at location [y]. *)
Definition dict_setitem (y : loc) (k : string) (v : value) (h : heap) : heap :=
  match h !! y with
  | Some (ODict entries) => <[y := ODict (od_set k v entries)]> h
  | _ => h
  end.

(** ** [copy.deepcopy]

    The standard library's algorithm on the values above: an atom is returned
    as it is; a list or dict already in [memo] is answered from [memo]; any
    other gets a new empty object, which is entered in [memo] before the
    children are copied into it one by one (this is what keeps sharing and
    cycles). [fuel] bounds the nesting of recursive calls. *)

(** The loop of [_deepcopy_list], [for a in x: y.append(deepcopy(a, memo))],
    and of [_deepcopy_dict], [for key, value in x.items(): y[deepcopy(key,
    memo)] = deepcopy(value, memo)] (a key is a string, which [deepcopy]
    returns unchanged): [store] is the append or the item assignment. *)
Fixpoint deepcopy_items {K : Type}
    (deepcopy_child : value -> gmap loc loc -> heap -> option (value * gmap loc loc * heap))
    (store : K -> value -> heap -> heap)
    (items : list (K * value)) (memo : gmap loc loc) (h : heap)
    : option (gmap loc loc * heap) :=
  match items with
  | [] => Some (memo, h)
  | (k, a) :: rest =>
      match deepcopy_child a memo h with
      | Some (a', memo', h') => deepcopy_items deepcopy_child store rest memo' (store k a' h')
      | None => None
      end
  end.

Fixpoint deepcopy_rec (fuel : nat) (x : value) (memo : gmap loc loc) (h : heap)
    : option (value * gmap loc loc * heap) :=
  match x with
  | VRef l =>
      match memo !! l with
      | Some y => Some (VRef y, memo, h)
      | None =>
          match fuel with
          | O => None
          | S fuel' =>
              match h !! l with
              | Some (OList items) =>
                  let y := length h in
                  match deepcopy_items (deepcopy_rec fuel') (fun _ : unit => list_append y)
                          (map (pair tt) items) (<[l := y]> memo) (h ++ [OList []]) with
                  | Some (memo', h') => Some (VRef y, memo', h')
                  | None => None
                  end
              | Some (ODict entries) =>
                  let y := length h in
                  match deepcopy_items (deepcopy_rec fuel') (dict_setitem y)
                          entries (<[l := y]> memo) (h ++ [ODict []]) with
                  | Some (memo', h') => Some (VRef y, memo', h')
                  | None => None
                  end
              | None => None
              end
          end
      end
  | _ => Some (x, memo, h)
  end.

(** [copy.deepcopy(x)], with a fresh memo. The nesting of calls never
    exceeds the number of objects in the store (see [deepcopy_total]);
    running out of it is Python's RecursionError. *)
Definition deepcopy (x : value) : M heap value :=
  fun h =>
    match deepcopy_rec (S (length h)) x ∅ h with
    | Some (y, _, h') => (Ok y, h')
    | None => (Raise (Exn RecursionError "maximum recursion depth exceeded" None), h)
    end.

(** ** [build_from_config] *)

(** The [registry] argument: a [Registry] instance or anything else. *)
Inductive registry_arg :=
| IsRegistry (r : Registry)
| NotRegistry (v : value).

(** [cfg.pop("type")] on the dict at [cfg]. *)
Definition dict_pop (cfg : value) (k : string) : M heap value :=
  fun h =>
    match cfg with
    | VRef y =>
        match h !! y with
        | Some (ODict entries) =>
            match od_get k entries with
            | Some v => (Ok v, <[y := ODict (od_remove k entries)]> h)
            | None => (Raise (Exn KeyError k None), h)
            end
        | _ => (Raise (Exn AttributeError "pop" None), h)
        end
    | _ => (Raise (Exn AttributeError "pop" None), h)
    end.

(** [cfg.update(kwargs)] on the dict at [cfg]. *)
Definition dict_update (cfg : value) (kwargs : odict value) : M heap unit :=
  fun h =>
    match cfg with
    | VRef y =>
        match h !! y with
        | Some (ODict entries) => (Ok tt, <[y := ODict (od_update entries kwargs)]> h)
        | _ => (Raise (Exn AttributeError "update" None), h)
        end
    | _ => (Raise (Exn AttributeError "update" None), h)
    end.

(** The keyword arguments passed when the dict [cfg] is unpacked into a call. *)
Definition dict_items (cfg : value) : M heap (odict value) :=
  fun h =>
    match dict_of h cfg with
    | Some entries => (Ok entries, h)
    | None => (Raise (Exn TypeError "argument after ** must be a mapping" None), h)
    end.

Section Builder.
Context `{Rendering}.

(** Calling a class or a function with keyword arguments: whatever the
    registered code does, on the store. *)
Variable invoke : pyobj -> odict value -> M heap value.

(** Lines 56-60: a string is looked up in the registry, anything else is
    taken as it is. *)
Definition resolve_entry (registry : Registry) (req_type : value) : M heap value :=
  match req_type with
  | VStr s =>
      match get registry s with
      | Some o => ret (VObj o)
      | None =>
          raise (Exn KeyError (s +:+ " not found in " +:+ name registry +:+ " registry") None)
      end
  | _ => ret req_type
  end.

(** Lines 65-76: the call of the class or function with the entries of
    [cfg] as keyword arguments. *)
Definition invoke_entry (req_type_entry cfg : value) : M heap value :=
  match req_type_entry with
  | VObj (PClass c) =>
      try_except_Exception
        (args <- dict_items cfg ;; invoke (PClass c) args)
        (fun e => raise (Exn Exception_ ("Failed to init class " +:+ str_obj (PClass c)
                                         +:+ ", with " +:+ str_exn e) None))
  | VObj (PFunction f) =>
      try_except_Exception
        (args <- dict_items cfg ;; invoke (PFunction f) args)
        (fun e => raise (Exn Exception_ ("Failed to invoke function " +:+ str_obj (PFunction f)
                                         +:+ ", with " +:+ str_exn e) None))
  | _ =>
      h <- gets (fun h => h) ;;
      raise (Exn TypeError ("type must be str or class, got " +:+ str_type_of h req_type_entry) None)
  end.

Definition build_from_config (cfg : value) (registry : registry_arg) (kwargs : odict value)
    : M heap value :=
  h <- gets (fun h => h) ;;
  match dict_of h cfg with
  | None => raise (Exn TypeError ("config must be type dict, got " +:+ str_type_of h cfg) None)
  | Some entries =>
      raise_if (negb (od_in "type" entries))
        (Exn KeyError ("config must contain key type, got " +:+ str_value h cfg) None) ;;;
      match registry with
      | NotRegistry v =>
          raise (Exn TypeError ("registry must be type Registry, got " +:+ str_type_of h v) None)
      | IsRegistry registry =>
          cfg <- deepcopy cfg ;;
          req_type <- dict_pop cfg "type" ;;
          req_type_entry <- resolve_entry registry req_type ;;
          dict_update cfg kwargs ;;;
          invoke_entry req_type_entry cfg
      end
  end.

(** Lines 53-63, up to the point of the call: the resolved entry and the
    keyword arguments that the call will receive. *)
Definition build_arguments (cfg : value) (registry : Registry) (kwargs : odict value)
    : M heap (value * odict value) :=
  cfg <- deepcopy cfg ;;
  req_type <- dict_pop cfg "type" ;;
  req_type_entry <- resolve_entry registry req_type ;;
  dict_update cfg kwargs ;;;
  args <- dict_items cfg ;;
  ret (req_type_entry, args).

(** The call itself, lines 65-76, given the arguments. *)
Definition call_entry (req_type_entry : value) (args : odict value) : M heap value :=
  match req_type_entry with
  | VObj (PClass c) =>
      try_except_Exception
        (invoke (PClass c) args)
        (fun e => raise (Exn Exception_ ("Failed to init class " +:+ str_obj (PClass c)
                                         +:+ ", with " +:+ str_exn e) None))
  | VObj (PFunction f) =>
      try_except_Exception
        (invoke (PFunction f) args)
        (fun e => raise (Exn Exception_ ("Failed to invoke function " +:+ str_obj (PFunction f)
                                         +:+ ", with " +:+ str_exn e) None))
  | _ =>
      h <- gets (fun h => h) ;;
      raise (Exn TypeError ("type must be str or class, got " +:+ str_type_of h req_type_entry) None)
  end.

End Builder.

(** ** [Registry.build] *)

Section Build.
Context `{Rendering}.
Variable invoke : pyobj -> odict value -> M heap value.

(** [Registry.build], which passes its positional arguments [args], its
    keywords [kwargs] and [registry=self] on to [self.build_func], for a
    registry made with the default [build_func], that is [build_from_config]
    with the parameters [cfg], [registry] and the remaining keywords. The call
    is refused with a TypeError when [kwargs] repeats the keyword [registry];
    then the positional arguments are bound to [cfg] and [registry] and the
    keywords by name, which is refused when a parameter gets two values or
    [cfg] none. The texts of these TypeErrors are the interpreter's, which may
    put the module before the name of the function. *)
Definition build (registry : Registry) (args : list value) (kwargs : odict value)
    : M heap value :=
  if od_in "registry" kwargs then
    raise (Exn TypeError
             "build_from_config() got multiple values for keyword argument 'registry'" None)
  else
    match args with
    | [] =>
        match od_get "cfg" kwargs with
        | Some cfg => build_from_config invoke cfg (IsRegistry registry) (od_remove "cfg" kwargs)
        | None =>
            raise (Exn TypeError
                     "build_from_config() missing 1 required positional argument: 'cfg'" None)
        end
    | cfg :: more =>
        if od_in "cfg" kwargs then
          raise (Exn TypeError "build_from_config() got multiple values for argument 'cfg'" None)
        else
          match more with
          | [] => build_from_config invoke cfg (IsRegistry registry) kwargs
          | _ :: _ =>
              raise (Exn TypeError
                       "build_from_config() got multiple values for argument 'registry'" None)
          end
    end.

End Build.

(** ** [Registry._list] and [Registry.__repr__] *)

(** [list(m.keys())]. The order in which a [gmap] lists its keys is not the
    insertion order of the [OrderedDict]; the only use of the keys is under
    [sorted], where the order does not matter. *)
Definition keys (m : gmap string pyobj) : list string := (map_to_list m).*1.

(** [sorted(l)] for a list of strings, which Python compares by code point. *)
Fixpoint insert_sorted (x : string) (l : list string) : list string :=
  match l with
  | [] => [x]
  | y :: rest => if String.leb x y then x :: l else y :: insert_sorted x rest
  end.

Definition sorted (l : list string) : list string := fold_right insert_sorted [] l.

(** [s.split('\n')]. *)
Fixpoint split_newline (s : string) : list string :=
  match s with
  | EmptyString => [EmptyString]
  | String c rest =>
      if Ascii.eqb c "010"%char then EmptyString :: split_newline rest
      else
        match split_newline rest with
        | line :: lines => String c line :: lines
        | [] => [String c EmptyString]
        end
  end.

Definition tab : string := String "009"%char EmptyString.

(** A loop that appends to a list, any turn of which may raise. *)
Fixpoint collect_results {A B} (f : A -> result B) (l : list A) : result (list B) :=
  match l with
  | [] => Ok []
  | x :: rest =>
      match f x with
      | Ok y => match collect_results f rest with Ok ys => Ok (y :: ys) | Raise e => Raise e end
      | Raise e => Raise e
      end
  end.

Section Listing.
Context `{Rendering}.

(** [obj.__module__]. *)
Variable module_of : pyobj -> string.

(** One turn of the loop of [_list]: the line for [key]. *)
Definition describe (r : Registry) (key : string) : result string :=
  match class_map r !! key with
  | Some cls => Ok (key +:+ ": " +:+ str_obj cls)
  | None =>
      match func_map r !! key with
      | Some func =>
          match dunder_name func with
          | Some n =>
              Ok (key +:+ ": <function '" +:+ module_of func +:+ "." +:+ n +:+ "'>")
          | None => Raise (Exn AttributeError "__name__" None)
          end
      | None => Raise (Exn KeyError key None)
      end
  end.

(** The list [descriptions] that [_list] builds. *)
Definition _list_descriptions (r : Registry) : result (list string) :=
  let keys := sorted (keys (class_map r) ++ keys (func_map r)) in
  collect_results (describe r) keys.

Definition _list (r : Registry) : result string :=
  match _list_descriptions r with
  | Ok descriptions => Ok (String.concat newline descriptions)
  | Raise e => Raise e
  end.

(** [repr(self)] for an instance of [Registry] itself, whose
    [__class__.__name__] is ["Registry"]. *)
Definition __repr__ (r : Registry) : result string :=
  match _list r with
  | Ok description =>
      let description :=
        String.concat newline (map (fun s => tab +:+ s) (split_newline description)) in
      Ok ("Registry [" +:+ name r +:+ "], " +:+ newline +:+ description)
  | Raise e => Raise e
  end.

End Listing.

(** * The vocabulary of the properties *)

(** ** Outcomes of a registration *)

Section RegistrationOutcome.
Context `{Rendering}.

Definition class_warning (k : string) (prev cls : pyobj) : string :=
  "Class " +:+ k +:+ " already registered by " +:+ str_obj prev
  +:+ ", will be replaced by " +:+ str_obj cls.

Definition function_warning (k : string) (prev func : pyobj) : string :=
  "Function " +:+ k +:+ " already registered by " +:+ str_obj prev
  +:+ ", will be replaced by " +:+ str_obj func.

Definition warnings_for (old : option pyobj) (mk : pyobj -> string) : list string :=
  match old with Some prev => [mk prev] | None => [] end.

(** What a registration leaves behind when it goes through. *)
Definition class_registered (k : string) (cls : pyobj) (msgs : list string) (w : World) : World :=
  {| self := {| name := name (self w); allow_types := allow_types (self w);
                class_map := <[k := cls]> (class_map (self w));
                func_map := func_map (self w) |};
     warned := warned w ++ msgs |}.

Definition function_registered (k : string) (func : pyobj) (msgs : list string) (w : World) : World :=
  {| self := {| name := name (self w); allow_types := allow_types (self w);
                class_map := class_map (self w);
                func_map := <[k := func]> (func_map (self w)) |};
     warned := warned w ++ msgs |}.

(** The three outcomes of a registration: nothing changed (every failure), a
    class stored under its key in a registry that allows classes, a function
    stored under its key in a registry that allows functions. *)
Definition registration_effect (w w' : World) (nm : option string) (o : pyobj) : Prop :=
  w' = w \/
  (exists c, o = PClass c /\
     str_in "class" (allow_types (self w)) = true /\
     let k := str_or nm (ty_name (cls_type c)) in
     w' = class_registered k o
            (warnings_for (class_map (self w) !! k) (fun prev => class_warning k prev o)) w) \/
  (exists f, o = PFunction f /\
     str_in "function" (allow_types (self w)) = true /\
     let k := str_or nm (fn_name f) in
     w' = function_registered k o
            (warnings_for (func_map (self w) !! k) (fun prev => function_warning k prev o)) w).

(** Whichever registration method ran, and however it ended. *)
Definition registered_by (w w' : World) (nm : option string) (o : pyobj) : Prop :=
  (exists res, register_class nm o w = (res, w')) \/
  (exists res, register_function nm o w = (res, w')) \/
  (exists res, register_by_hand o nm w = (res, w')).

(** The states a registry goes through from [w0] under any sequence of
    registrations. *)
Inductive registered_from (w0 : World) : World -> Prop :=
  | registered_none : registered_from w0 w0
  | registered_more (w w' : World) (nm : option string) (o : pyobj) :
      registered_from w0 w -> registered_by w w' nm o -> registered_from w0 w'.

End RegistrationOutcome.

(** What the registration methods maintain: the class map holds classes,
    the function map functions. *)
Definition registry_kinds (r : Registry) : Prop :=
  (forall k o, class_map r !! k = Some o -> isclass o = true) /\
  (forall k o, func_map r !! k = Some o -> isfunction o = true).

(** ** Templates *)

(** What the spec says a level contributes for the name [k]: the
    [ValueComment] of its first positional-or-keyword parameter of that name,
    [self] left out. *)
Definition level_capture (type_c : TypeObj) (k : string) : option ValueComment :=
  match List.find
          (fun value => String.eqb (p_name value) k
                        && kind_eqb (p_kind value) POSITIONAL_OR_KEYWORD)
          (List.filter (fun value => negb (String.eqb (p_name value) "self")) (ty_init type_c))
  with
  | Some value =>
      Some (parameter_value_comment (ty_name type_c) (_get_doc_params (ty_doc type_c)) value)
  | None => None
  end.

(** What the spec says the merge yields for [k]: the contribution of the
    first level, in resolution order, that has one. *)
Fixpoint first_capture (levels : list TypeObj) (k : string) : option ValueComment :=
  match levels with
  | [] => None
  | type_c :: rest =>
      match level_capture type_c k with
      | Some vc => Some vc
      | None => first_capture rest k
      end
  end.

(** The entry that one turn of the loop of [get_function_arguments] writes,
    if it writes one. *)
Definition function_entry (func : FunctionObj) (docs : odict string) (value : InspectParameter)
    : option ValueComment :=
  match p_kind value with
  | VAR_KEYWORD => Some {| vc_value := PyDict []; vc_comment := EmptyString |}
  | VAR_POSITIONAL => Some {| vc_value := PyList []; vc_comment := EmptyString |}
  | POSITIONAL_OR_KEYWORD => Some (parameter_value_comment (fn_name func) docs value)
  | _ => None
  end.

(** The description that [doc.params] gives last for the name [k]. *)
Fixpoint last_description (params : list DocParam) (k : string) : option string :=
  match params with
  | [] => None
  | param :: rest =>
      match last_description rest k with
      | Some desc => Some desc
      | None => if String.eqb k (arg_name param) then description param else None
      end
  end.

(** The strings of [l], each where it occurs first. *)
Fixpoint first_occurrences (l : list string) : list string :=
  match l with
  | [] => []
  | x :: rest => x :: List.filter (fun y => negb (String.eqb x y)) (first_occurrences rest)
  end.

(** The keys of a dict after [d[k] = v]. *)
Definition add_key (ks : list string) (k : string) : list string :=
  if str_in k ks then ks else ks ++ [k].

(** The kinds of parameter that the template of a function lists. *)
Definition listed_kind (value : InspectParameter) : bool :=
  match p_kind value with
  | POSITIONAL_OR_KEYWORD | VAR_POSITIONAL | VAR_KEYWORD => true
  | _ => false
  end.

(** The parameters of one class that the template of a class lists. *)
Definition listed_in_class (value : InspectParameter) : bool :=
  negb (String.eqb (p_name value) "self") && kind_eqb (p_kind value) POSITIONAL_OR_KEYWORD.

(** Their names, through the method-resolution order. *)
Definition class_parameter_names (cls : ClassObj) : list string :=
  concat (map (fun type_c => map p_name (List.filter listed_in_class (ty_init type_c)))
              (mro cls)).

(** ** Listings *)

(** Each string is at most the next. *)
Fixpoint ascending (l : list string) : bool :=
  match l with
  | x :: (y :: _) as rest => String.leb x y && ascending rest
  | _ => true
  end.

(** ** Messages *)

(** [sub in s] for strings. *)
Fixpoint str_contains (sub s : string) : bool :=
  String.prefix sub s ||
  match s with
  | EmptyString => false
  | String _ rest => str_contains sub rest
  end.

(** The four errors of the checks: config not a dict, no ["type"] entry,
    registry not a [Registry], type name not found. *)
Inductive validation_error : exn -> Prop :=
| config_not_dict (got : string) (ctx : option exn) :
    validation_error (Exn TypeError ("config must be type dict, got " +:+ got) ctx)
| config_without_type (got : string) (ctx : option exn) :
    validation_error (Exn KeyError ("config must contain key type, got " +:+ got) ctx)
| registry_not_Registry (got : string) (ctx : option exn) :
    validation_error (Exn TypeError ("registry must be type Registry, got " +:+ got) ctx)
| type_not_found (req_type registry_name : string) (ctx : option exn) :
    validation_error
      (Exn KeyError (req_type +:+ " not found in " +:+ registry_name +:+ " registry") ctx).

(** ** The store: reachability and well-formedness *)

(** The values an object holds. *)
Definition obj_values (o : obj) : list value :=
  match o with
  | ODict entries => map snd entries
  | OList items => items
  end.

(** The locations that can be reached from [roots] by following
    references: what a piece of code that is handed [roots] can get at. *)
Inductive reach (h : heap) (roots : list value) : loc -> Prop :=
| reach_root (l : loc) :
    In (VRef l) roots -> reach h roots l
| reach_step (l l' : loc) (o : obj) :
    reach h roots l -> h !! l = Some o -> In (VRef l') (obj_values o) -> reach h roots l'.

(** No dangling reference: [v] refers to an object of the store. *)
Definition val_closed (h : heap) (v : value) : Prop :=
  match v with VRef l => l < length h | _ => True end.

(** A store as Python has them: no object holds a dangling reference ... *)
Definition closed (h : heap) : Prop :=
  forall l o v, h !! l = Some o -> In v (obj_values o) -> val_closed h v.

(** ... and no dict has a key twice. *)
Definition dicts_wf (h : heap) : Prop :=
  forall l entries, h !! l = Some (ODict entries) -> NoDup (map fst entries).

(** [v] is an atom or refers to an object allocated at or after [n]. *)
Definition val_fresh (n : nat) (v : value) : Prop :=
  match v with VRef l => n <= l | _ => True end.

(** The objects allocated at or after [n] hold fresh values only. *)
Definition cells_fresh (n : nat) (h : heap) : Prop :=
  forall l o v, n <= l -> h !! l = Some o -> In v (obj_values o) -> val_fresh n v.

(** The memo answers with objects allocated at or after [n]. *)
Definition memo_fresh (n : nat) (memo : gmap loc loc) : Prop :=
  forall l y, memo !! l = Some y -> n <= y.

(** [store] writes to the object at [y] only, adding the stored value to
    what the object holds. *)
Definition writes_cell {K} (y : loc) (store : K -> value -> heap -> heap) : Prop :=
  forall k v h,
    length (store k v h) = length h /\
    (forall l, l <> y -> store k v h !! l = h !! l) /\
    (forall o', store k v h !! y = Some o' ->
       exists o, h !! y = Some o /\
                 forall u, In u (obj_values o') -> u = v \/ In u (obj_values o)).

(** What [deepcopy] promises about the store it leaves: it is longer, and
    every object that was there is as it was. *)
Definition preserves_store
    (deepcopy_child : value -> gmap loc loc -> heap -> option (value * gmap loc loc * heap))
    : Prop :=
  forall x memo h y memo' h',
    deepcopy_child x memo h = Some (y, memo', h') ->
    length h <= length h' /\ forall l, l < length h -> h' !! l = h !! l.

(** What [deepcopy] returns is an atom or a new object, and the new objects
    refer to new objects only. *)
Definition produces_fresh (n : nat)
    (deepcopy_child : value -> gmap loc loc -> heap -> option (value * gmap loc loc * heap))
    : Prop :=
  forall x memo h y memo' h',
    n <= length h -> memo_fresh n memo -> cells_fresh n h ->
    deepcopy_child x memo h = Some (y, memo', h') ->
    val_fresh n y /\ memo_fresh n memo' /\ cells_fresh n h'.

(** [v] is an atom or refers to one of the first [n] objects. *)
Definition val_below (n : nat) (v : value) : Prop :=
  match v with VRef l => l < n | _ => True end.

(** The first [n] objects refer to each other only. *)
Definition old_closed (n : nat) (h : heap) : Prop :=
  forall l o v, l < n -> h !! l = Some o -> In v (obj_values o) -> val_below n v.

(** The memo has entries for some of the first [n] objects only. *)
Definition memo_old (n : nat) (memo : gmap loc loc) : Prop :=
  forall l, is_Some (memo !! l) -> l < n.

(** With [budget] calls still allowed to nest, the copy of a value of the
    first [n] objects is returned, the memo only grows, and it stays within
    the first [n] objects. *)
Definition returns_below (n budget : nat)
    (deepcopy_child : value -> gmap loc loc -> heap -> option (value * gmap loc loc * heap))
    : Prop :=
  forall x memo h,
    n <= length h -> old_closed n h -> val_below n x -> memo_old n memo ->
    n < budget + size memo ->
    exists y memo' h',
      deepcopy_child x memo h = Some (y, memo', h') /\ memo ⊆ memo' /\ memo_old n memo'.

(** [v'] is what [copy.deepcopy] makes of [v]: the same atom, or a
    reference. *)
Definition copy_of (v v' : value) : Prop :=
  match v with
  | VRef _ => exists y, v' = VRef y
  | _ => v' = v
  end.

(** [copies] has the keys of [entries], in the same order, each with the
    copy of its value. *)
Definition entries_copied (entries copies : odict value) : Prop :=
  Forall2 (fun kv kv' => fst kv = fst kv' /\ copy_of (snd kv) (snd kv')) entries copies.

Definition copies_values
    (deepcopy_child : value -> gmap loc loc -> heap -> option (value * gmap loc loc * heap))
    : Prop :=
  forall x memo h y memo' h', deepcopy_child x memo h = Some (y, memo', h') -> copy_of x y.

(** The store after the copy has lost its ["type"] entry. *)
Definition popped (h1 : heap) (y : loc) (copies : odict value) : heap :=
  <[y := ODict (od_remove "type" copies)]> h1.

(** The store at the moment of the call. *)
Definition merged (h1 : heap) (y : loc) (copies kwargs : odict value) : heap :=
  <[y := ODict (od_update (od_remove "type" copies) kwargs)]> (popped h1 y copies).


(** ** What a value holds *)

(** A value as it prints, down to a given depth: an atom, or the entries of
    the dict or the items of the list it refers to. *)
Inductive tree :=
| TAtom (v : value)
| TDict (entries : list (string * tree))
| TList (items : list tree)
| TDeeper
| TDangling.

Fixpoint content (depth : nat) (h : heap) (v : value) : tree :=
  match v with
  | VRef l =>
      match depth with
      | O => TDeeper
      | S d =>
          match h !! l with
          | Some (ODict entries) =>
              TDict (map (fun kv => (fst kv, content d h (snd kv))) entries)
          | Some (OList items) => TList (map (content d h) items)
          | None => TDangling
          end
      end
  | _ => TAtom v
  end.

(** [v'] in [h'] holds what [v] holds in [h], however deep one looks. *)
Definition same_content (h : heap) (v : value) (h' : heap) (v' : value) : Prop :=
  forall depth, content depth h' v' = content depth h v.

(** [v'] is [v] with its reference renamed by [memo]. *)
Definition copied_val (memo : gmap loc loc) (v v' : value) : Prop :=
  match v with
  | VRef l => exists y, memo !! l = Some y /\ v' = VRef y
  | _ => v' = v
  end.

(** [o'] is [o], entry by entry, with the references renamed by [memo]. *)
Definition copied_obj (memo : gmap loc loc) (o o' : obj) : Prop :=
  match o, o' with
  | ODict entries, ODict entries' =>
      Forall2 (fun kv kv' => fst kv = fst kv' /\ copied_val memo (snd kv) (snd kv'))
        entries entries'
  | OList items, OList items' => Forall2 (copied_val memo) items items'
  | _, _ => False
  end.

(** [h] has the objects of [h0] as they are in [h0], and maybe more. *)
Definition extends_store (h0 h : heap) : Prop :=
  length h0 <= length h /\ forall l, l < length h0 -> h !! l = h0 !! l.

(** Every object that [memo'] has and [memo] has not was allocated between
    [h] and [h'] and is in [h'] the finished copy of its original in [h0]. *)
Definition completed (h0 : heap) (memo memo' : gmap loc loc) (h h' : heap) : Prop :=
  forall l yl,
    memo' !! l = Some yl -> memo !! l = None ->
    (length h <= yl /\ yl < length h') /\
    exists o o', h0 !! l = Some o /\ h' !! yl = Some o' /\ copied_obj memo' o o'.

(** What [deepcopy] leaves behind: the copy it returns, and finished copies
    of every object it came across for the first time. *)
Definition copies_graph (h0 : heap)
    (deepcopy_child : value -> gmap loc loc -> heap -> option (value * gmap loc loc * heap))
    : Prop :=
  forall x memo h y memo' h',
    extends_store h0 h -> val_closed h0 x -> memo_old (length h0) memo ->
    deepcopy_child x memo h = Some (y, memo', h') ->
    memo ⊆ memo' /\ memo_old (length h0) memo' /\ copied_val memo' x y /\
    completed h0 memo memo' h h'.

(** What one assignment of the copying loops does to the object under
    construction. *)
Definition dict_stored (k : string) (v : value) (o : obj) : obj :=
  match o with ODict acc => ODict (od_set k v acc) | OList _ => o end.

Definition list_stored (_ : unit) (v : value) (o : obj) : obj :=
  match o with OList acc => OList (acc ++ [v]) | ODict _ => o end.

(** The value [v'] that the call receives in the store [h2] for the value
    [v] of the config [cfg]: the same atom, or a reference to an object made
    by the builder, which holds what [v] holds, provided the config is not
    among the objects that [v] leads to. *)
Definition passed_copy (h : heap) (cfg : value) (h2 : heap) (v v' : value) : Prop :=
  copy_of v v' /\ val_fresh (length h) v' /\
  ((forall l, cfg = VRef l -> ~ reach h [v] l) -> same_content h v h2 v').

(** Deciding [closed] and [dicts_wf] on a concrete store. *)
Definition val_closedb (h : heap) (v : value) : bool :=
  match v with VRef l => Nat.ltb l (length h) | _ => true end.

Definition closedb (h : heap) : bool :=
  forallb (fun o => forallb (val_closedb h) (obj_values o)) h.

Fixpoint nodupb (l : list string) : bool :=
  match l with
  | [] => true
  | x :: rest => negb (str_in x rest) && nodupb rest
  end.

Definition dicts_wfb (h : heap) : bool :=
  forallb (fun o => match o with ODict entries => nodupb (map fst entries) | OList _ => true end) h.

(** * Objects used in the examples *)

Definition plain_type (nm : string) (init : list InspectParameter) : TypeObj :=
  {| ty_name := nm; ty_doc := []; ty_init := init |}.

Definition self_param : InspectParameter :=
  {| p_name := "self"; p_kind := POSITIONAL_OR_KEYWORD; p_default := None; p_annotation := None |}.

(** [object]: its [__init__] is [(self, /, *args, **kwargs)]. *)
Definition object_type : TypeObj :=
  plain_type "object"
    [ {| p_name := "self"; p_kind := POSITIONAL_ONLY; p_default := None; p_annotation := None |};
      {| p_name := "args"; p_kind := VAR_POSITIONAL; p_default := None; p_annotation := None |};
      {| p_name := "kwargs"; p_kind := VAR_KEYWORD; p_default := None; p_annotation := None |} ].

(** [class ResNet(object): pass] *)
Definition ResNet : ClassObj :=
  {| cls_type := plain_type "ResNet" (ty_init object_type);
     cls_bases := [object_type]; cls_truthy := true |}.

(** [class VGG(object): pass] *)
Definition VGG : ClassObj :=
  {| cls_type := plain_type "VGG" (ty_init object_type);
     cls_bases := [object_type]; cls_truthy := true |}.

(** A class whose metaclass defines [__len__] and returns 0 for it:
    [bool(Falsy)] is [False]. *)
Definition Falsy : ClassObj :=
  {| cls_type := plain_type "Falsy" (ty_init object_type);
     cls_bases := [object_type]; cls_truthy := false |}.

(** [def get_inception_v3(pretrained=False, progress=True): ...] *)
Definition get_inception_v3 : FunctionObj :=
  {| fn_name := "get_inception_v3";
     fn_params :=
       [ {| p_name := "pretrained"; p_kind := POSITIONAL_OR_KEYWORD;
            p_default := Some (PyBool false); p_annotation := None |};
         {| p_name := "progress"; p_kind := POSITIONAL_OR_KEYWORD;
            p_default := Some (PyBool true); p_annotation := None |} ];
     fn_doc := [] |}.

(** [def make_vgg(depth): ...] *)
Definition make_vgg : FunctionObj :=
  {| fn_name := "make_vgg";
     fn_params :=
       [ {| p_name := "depth"; p_kind := POSITIONAL_OR_KEYWORD;
            p_default := None; p_annotation := None |} ];
     fn_doc := [] |}.

(** [lambda x: x] *)
Definition a_lambda : FunctionObj :=
  {| fn_name := "<lambda>";
     fn_params :=
       [ {| p_name := "x"; p_kind := POSITIONAL_OR_KEYWORD;
            p_default := None; p_annotation := None |} ];
     fn_doc := [] |}.

(** A rendering for the examples: an object by its name, a type by a fixed
    word. *)
#[local] Instance plain_rendering : Rendering := {|
  str_obj o := match dunder_name o with Some n => "<" +:+ n +:+ ">" | None => "<object>" end;
  str_type o := match o with PClass _ => "<class 'type'>" | PFunction _ => "<class 'function'>"
                        | POther _ _ => "<class 'object'>" end;
  str_tuple l := "(" +:+ String.concat ", " l +:+ ")";
  str_exn e := exn_msg e;
  str_type_of h v := "<class>";
  str_value h v := "{...}"
|}.

Definition MODELS : Registry := Registry_init "MODELS" default_allow_types.

Definition fresh_world (r : Registry) : World := {| self := r; warned := [] |}.

(** The registry in which a class without truth and a function share the key
    ["net"]. *)
Definition shadowed_registry : Registry :=
  {| name := "MODELS"; allow_types := default_allow_types;
     class_map := {[ "net" := PClass Falsy ]};
     func_map := {[ "net" := PFunction make_vgg ]} |}.

Definition SHAPES : Registry := Registry_init "SHAPES" ["class"].

(** [MODELS] after [register_class("net")(ResNet)] and
    [register_function("net")(make_vgg)]. *)
Definition models_with_net : World :=
  {| self := {| name := "MODELS"; allow_types := default_allow_types;
                class_map := {[ "net" := PClass ResNet ]};
                func_map := {[ "net" := PFunction make_vgg ]} |};
     warned := [] |}.

(** [class A: def __init__(self, p=1, q=2)], [class B(A): def __init__(self, p=5, **kwargs)]. *)
Definition pk (nm : string) (kind : param_kind) (d : option pyval) : InspectParameter :=
  {| p_name := nm; p_kind := kind; p_default := d; p_annotation := None |}.

Definition A_type : TypeObj :=
  plain_type "A" [ self_param; pk "p" POSITIONAL_OR_KEYWORD (Some (PyInt 1));
                   pk "q" POSITIONAL_OR_KEYWORD (Some (PyInt 2)) ].

Definition B_type : TypeObj :=
  plain_type "B" [ self_param; pk "p" POSITIONAL_OR_KEYWORD (Some (PyInt 5));
                   pk "kwargs" VAR_KEYWORD None ].

Definition B_class : ClassObj :=
  {| cls_type := B_type; cls_bases := [A_type; object_type]; cls_truthy := true |}.

(** [class KA: def __init__(self, *, p=3)], [class KB(KA): pass];
    [class MA: def __init__(self, p=2)], [class MB(MA): def __init__(self, *, p=1)]. *)
Definition KA_type : TypeObj := plain_type "KA" [ self_param; pk "p" KEYWORD_ONLY (Some (PyInt 3)) ].
Definition KB_class : ClassObj :=
  {| cls_type := plain_type "KB" (ty_init KA_type);
     cls_bases := [KA_type; object_type]; cls_truthy := true |}.
Definition MA_type : TypeObj :=
  plain_type "MA" [ self_param; pk "p" POSITIONAL_OR_KEYWORD (Some (PyInt 2)) ].
Definition MB_class : ClassObj :=
  {| cls_type := plain_type "MB" [ self_param; pk "p" KEYWORD_ONLY (Some (PyInt 1)) ];
     cls_bases := [MA_type; object_type]; cls_truthy := true |}.

(** [def collect(first, *args, **kwargs): ...] *)
Definition collect : FunctionObj :=
  {| fn_name := "collect";
     fn_params := [ pk "first" POSITIONAL_OR_KEYWORD None; pk "args" VAR_POSITIONAL None;
                    pk "kwargs" VAR_KEYWORD None ];
     fn_doc := [] |}.

(** [class Collector: def __init__(self, first, *args, **kwargs): ...] *)
Definition Collector : ClassObj :=
  {| cls_type := plain_type "Collector" (self_param :: fn_params collect);
     cls_bases := [object_type]; cls_truthy := true |}.

(** ** A registered entity for the examples *)

(** What the example entities do when called: append 99 to every list they
    receive as an argument; then raise a RuntimeError if called with [fail],
    exit the interpreter if called with [exit]; otherwise return a new object
    that holds the arguments. *)
Definition append_to_list_args (args : odict value) (h : heap) : heap :=
  fold_left
    (fun h kv => match snd kv with VRef l => list_append l (VInt 99) h | _ => h end)
    args h.

Definition demo_invoke (o : pyobj) (args : odict value) : M heap value :=
  modify (append_to_list_args args) ;;;
  raise_if (od_in "fail" args) (Exn (UserError "RuntimeError") "told to fail" None) ;;;
  raise_if (od_in "exit" args) (Exn SystemExit "0" None) ;;;
  alloc (ODict args).

(** The store of the examples: at 0 the config
    [{"type": "ResNet", "layers": <the list at 1>, "depth": 3}], at 1 the
    list [[1, 2]]. *)
Definition demo_store : heap :=
  [ ODict [("type", VStr "ResNet"); ("layers", VRef 1); ("depth", VInt 3)];
    OList [VInt 1; VInt 2] ].

Definition demo_registry : Registry :=
  {| name := "MODELS"; allow_types := default_allow_types;
     class_map := {[ "ResNet" := PClass ResNet ]};
     func_map := {[ "vgg" := PFunction make_vgg ]} |}.

(** The example store at the moment of the call, with the overrides
    [kwargs]: the copy of the config at 2, the copy of the list at 3. *)
Definition demo_call_args (kwargs : odict value) : odict value :=
  od_update [("layers", VRef 3); ("depth", VInt 3)] kwargs.

Definition demo_call_store (kwargs : odict value) : heap :=
  demo_store ++ [ODict (demo_call_args kwargs); OList [VInt 1; VInt 2]].

(** The same after the example entity has appended 99 to the copy of the
    list. *)
Definition demo_called_store (kwargs : odict value) : heap :=
  demo_store ++ [ODict (demo_call_args kwargs); OList [VInt 1; VInt 2; VInt 99]].

(** The example store with an unregistered type name. *)
Definition unknown_type_store : heap :=
  [ ODict [("type", VStr "AlexNet"); ("depth", VInt 3)] ].

(** The example store with a number as the type. *)
Definition numbered_type_store : heap :=
  [ ODict [("type", VInt 7); ("depth", VInt 3)] ].

(** * Properties *)

(** ** Lookup *)

Lemma py_or_truthy (x : pyobj) (b : option pyobj) :
  truthy x = true -> py_or (Some x) b = Some x.
Proof. intros Hx. unfold py_or. now rewrite Hx. Qed.

(** [get] on a key that neither map holds. *)
Lemma get_absent (r : Registry) (k : string) :
  class_map r !! k = None -> func_map r !! k = None -> get r k = None.
Proof. intros Hc Hf. unfold get. now rewrite Hc, Hf. Qed.

(** [get] prefers a class-map entry whose truth value is true. *)
Lemma get_class_first (r : Registry) (k : string) (c : pyobj) :
  class_map r !! k = Some c -> truthy c = true -> get r k = Some c.
Proof. intros Hc Ht. unfold get. rewrite Hc. now apply py_or_truthy. Qed.

(** [get] falls back to the function map when the class map has no entry. *)
Lemma get_function_fallback (r : Registry) (k : string) :
  class_map r !! k = None -> get r k = func_map r !! k.
Proof. intros Hc. unfold get. now rewrite Hc. Qed.

(** C3 (evaluated at the failing input): the key ["net"] is in both maps, and
    [get] returns the function-map entry, not the class-map entry, because the
    class in the class map is false under [bool]; and after that class alone
    has been registered with [register_class], [contains] finds its key and
    [get] returns nothing. *)
Theorem get_skips_falsy_class :
  class_map shadowed_registry !! "net" = Some (PClass Falsy) /\
  get shadowed_registry "net" = Some (PFunction make_vgg) /\
  get shadowed_registry "net" <> class_map shadowed_registry !! "net" /\
  exists w',
    register_class (Some "net") (PClass Falsy) (fresh_world MODELS) = (Ok (PClass Falsy), w') /\
    class_map (self w') !! "net" = Some (PClass Falsy) /\
    contains (self w') "net" = true /\
    get (self w') "net" = None.
Proof.
  split; [reflexivity|]. split; [reflexivity|]. split; [vm_compute; congruence|].
  eexists. split; [reflexivity|]. repeat split; reflexivity.
Qed.

(** ** Registration *)

Section RegistrationFacts.
Context `{Rendering}.

Lemma name_or_dunder_named {S} (nm : option string) (o : pyobj) (n : string) (s : S) :
  dunder_name o = Some n -> name_or_dunder nm o s = (Ok (str_or nm n), s).
Proof.
  intros Hn. unfold name_or_dunder, str_or. rewrite Hn.
  destruct nm as [k|]; [destruct (String.eqb k EmptyString)|]; reflexivity.
Qed.

Lemma register_class_run (w : World) (nm : option string) (c : ClassObj) :
  str_in "class" (allow_types (self w)) = true ->
  let k := str_or nm (ty_name (cls_type c)) in
  register_class nm (PClass c) w =
    (Ok (PClass c),
     class_registered k (PClass c)
       (warnings_for (class_map (self w) !! k) (fun prev => class_warning k prev (PClass c))) w).
Proof.
  intros Hallow k. unfold register_class, bind, raise_if, gets. simpl.
  rewrite Hallow. simpl.
  rewrite (name_or_dunder_named nm (PClass c) (ty_name (cls_type c))) by reflexivity.
  fold k. destruct (class_map (self w) !! k) as [prev|] eqn:Hold; simpl.
  - reflexivity.
  - unfold class_registered, set_class_map, modify. simpl. now rewrite app_nil_r.
Qed.

Lemma register_function_run (w : World) (nm : option string) (f : FunctionObj) :
  str_in "function" (allow_types (self w)) = true ->
  let k := str_or nm (fn_name f) in
  register_function nm (PFunction f) w =
    (Ok (PFunction f),
     function_registered k (PFunction f)
       (warnings_for (func_map (self w) !! k) (fun prev => function_warning k prev (PFunction f))) w).
Proof.
  intros Hallow k. unfold register_function, bind, raise_if, gets. simpl.
  rewrite Hallow. simpl.
  rewrite (name_or_dunder_named nm (PFunction f) (fn_name f)) by reflexivity.
  fold k. destruct (func_map (self w) !! k) as [prev|] eqn:Hold; simpl.
  - reflexivity.
  - unfold function_registered, set_func_map, modify. simpl. now rewrite app_nil_r.
Qed.

Lemma register_by_hand_class_run (w : World) (nm : option string) (c : ClassObj) :
  str_in "class" (allow_types (self w)) = true ->
  let k := str_or nm (ty_name (cls_type c)) in
  register_by_hand (PClass c) nm w =
    (Ok tt,
     class_registered k (PClass c)
       (warnings_for (class_map (self w) !! k) (fun prev => class_warning k prev (PClass c))) w).
Proof.
  intros Hallow k. unfold register_by_hand, bind, raise_if, when, gets. simpl.
  rewrite (name_or_dunder_named nm (PClass c) (ty_name (cls_type c))) by reflexivity.
  fold k. rewrite Hallow. simpl.
  destruct (class_map (self w) !! k) as [prev|] eqn:Hold; simpl.
  - reflexivity.
  - unfold class_registered, set_class_map, modify. simpl. now rewrite app_nil_r.
Qed.

Lemma register_by_hand_function_run (w : World) (nm : option string) (f : FunctionObj) :
  str_in "function" (allow_types (self w)) = true ->
  (is_lambda (PFunction f) = true -> nm <> None) ->
  let k := str_or nm (fn_name f) in
  register_by_hand (PFunction f) nm w =
    (Ok tt,
     function_registered k (PFunction f)
       (warnings_for (func_map (self w) !! k) (fun prev => function_warning k prev (PFunction f))) w).
Proof.
  intros Hallow Hlam k. unfold register_by_hand, bind, raise_if, when, gets.
  assert (Hpre : (if is_lambda (PFunction f)
                  then match nm with
                       | Some _ => ret tt
                       | None => raise (Exn ValueError "Lambda function needs a explicit name, got None" None)
                       end
                  else ret tt) w = (Ok tt, w)).
  { destruct (is_lambda (PFunction f)); [|reflexivity].
    destruct nm; [reflexivity|]. now destruct Hlam. }
  rewrite Hpre.
  rewrite (name_or_dunder_named nm (PFunction f) (fn_name f)) by reflexivity.
  fold k. simpl. rewrite Hallow. simpl.
  destruct (func_map (self w) !! k) as [prev|] eqn:Hold; simpl.
  - reflexivity.
  - unfold function_registered, set_func_map, modify. simpl. now rewrite app_nil_r.
Qed.

End RegistrationFacts.

Section RegistrationClaims.
Context `{Rendering}.

Lemma register_class_failure (w w' : World) (nm : option string) (o : pyobj) (e : exn) :
  register_class nm o w = (Raise e, w') -> w' = w.
Proof.
  destruct o as [c|f|n t].
  - destruct (str_in "class" (allow_types (self w))) eqn:Hallow.
    + rewrite register_class_run by assumption. discriminate.
    + unfold register_class, bind, raise_if, gets. simpl. rewrite Hallow. simpl.
      unfold raise. now intros [= _ <-].
  - unfold register_class, bind, raise_if, raise. simpl. now intros [= _ <-].
  - unfold register_class, bind, raise_if, raise. simpl. now intros [= _ <-].
Qed.

Lemma register_function_failure (w w' : World) (nm : option string) (o : pyobj) (e : exn) :
  register_function nm o w = (Raise e, w') -> w' = w.
Proof.
  destruct o as [c|f|n t].
  - unfold register_function, bind, raise_if, raise. simpl. now intros [= _ <-].
  - destruct (str_in "function" (allow_types (self w))) eqn:Hallow.
    + rewrite register_function_run by assumption. discriminate.
    + unfold register_function, bind, raise_if, gets. simpl. rewrite Hallow. simpl.
      unfold raise. now intros [= _ <-].
  - unfold register_function, bind, raise_if, raise. simpl. now intros [= _ <-].
Qed.

Lemma register_by_hand_failure (w w' : World) (nm : option string) (o : pyobj) (e : exn) :
  register_by_hand o nm w = (Raise e, w') -> w' = w.
Proof.
  destruct o as [c|f|n t].
  - destruct (str_in "class" (allow_types (self w))) eqn:Hallow.
    + rewrite register_by_hand_class_run by assumption. discriminate.
    + unfold register_by_hand, bind, raise_if, when, gets. simpl.
      rewrite (name_or_dunder_named nm (PClass c) (ty_name (cls_type c))) by reflexivity.
      rewrite Hallow. simpl. unfold raise. now intros [= _ <-].
  - destruct (is_lambda (PFunction f)) eqn:Hlam; [destruct nm as [k|]|].
    + destruct (str_in "function" (allow_types (self w))) eqn:Hallow.
      * rewrite register_by_hand_function_run by (assumption || discriminate). discriminate.
      * unfold register_by_hand, bind, raise_if, when, gets. rewrite Hlam.
        unfold ret at 1.
        rewrite (name_or_dunder_named (Some k) (PFunction f) (fn_name f)) by reflexivity.
        simpl. rewrite Hallow. simpl. unfold raise. now intros [= _ <-].
    + unfold register_by_hand, bind, when. rewrite Hlam. unfold raise. now intros [= _ <-].
    + destruct (str_in "function" (allow_types (self w))) eqn:Hallow.
      * rewrite register_by_hand_function_run by (assumption || congruence). discriminate.
      * unfold register_by_hand, bind, raise_if, when, gets. rewrite Hlam.
        unfold ret at 1.
        rewrite (name_or_dunder_named nm (PFunction f) (fn_name f)) by reflexivity.
        simpl. rewrite Hallow. simpl. unfold raise. now intros [= _ <-].
  - unfold register_by_hand, bind, raise_if, when, gets. simpl.
    unfold name_or_dunder. simpl.
    destruct nm as [k|]; [destruct (String.eqb k EmptyString)|]; try destruct n;
      simpl; unfold raise; now intros [= _ <-].
Qed.

(** The three causes of a failed registration, each raising with the world
    as it was. *)
Lemma registration_failure_causes (w : World) (nm : option string) (o : pyobj) :
  (isclass o = false -> exists msg, register_class nm o w = (Raise (Exn TypeError msg None), w)) /\
  (isfunction o = false -> exists msg, register_function nm o w = (Raise (Exn TypeError msg None), w)) /\
  (isclass o = true -> str_in "class" (allow_types (self w)) = false ->
     exists msg, register_class nm o w = (Raise (Exn TypeError msg None), w)) /\
  (isfunction o = true -> str_in "function" (allow_types (self w)) = false ->
     exists msg, register_function nm o w = (Raise (Exn TypeError msg None), w)) /\
  (is_lambda o = true ->
     register_by_hand o None w =
       (Raise (Exn ValueError "Lambda function needs a explicit name, got None" None), w)).
Proof.
  repeat split.
  - intros Hk. unfold register_class, bind, raise_if. rewrite Hk. simpl. eauto.
  - intros Hk. unfold register_function, bind, raise_if. rewrite Hk. simpl. eauto.
  - intros Hk Hallow. unfold register_class, bind, raise_if, gets. rewrite Hk. simpl.
    rewrite Hallow. simpl. eauto.
  - intros Hk Hallow. unfold register_function, bind, raise_if, gets. rewrite Hk. simpl.
    rewrite Hallow. simpl. eauto.
  - intros Hlam. unfold register_by_hand, bind, when. now rewrite Hlam.
Qed.

(** C10: a registration that raises, whichever of [register_class],
    [register_function] and [register_by_hand] it is and whatever the cause,
    leaves the class map and the function map of the registry exactly as they
    were. *)
Theorem failed_registration_is_atomic
    (w w' : World) (nm : option string) (o : pyobj) (e : exn) :
  register_class nm o w = (Raise e, w') \/
  register_function nm o w = (Raise e, w') \/
  register_by_hand o nm w = (Raise e, w') ->
  class_map (self w') = class_map (self w) /\ func_map (self w') = func_map (self w).
Proof.
  intros [Hr | [Hr | Hr]].
  - apply register_class_failure in Hr. now subst.
  - apply register_function_failure in Hr. now subst.
  - apply register_by_hand_failure in Hr. now subst.
Qed.

(** C9, as amended: [register_by_hand] on a lambda with no explicit name
    raises the ValueError and changes nothing; with an explicit name that is
    not empty, on a registry that allows functions, it succeeds and stores the
    lambda in the function map under that name, and [get] returns it under
    that name when the class map has no entry for it. *)
Theorem register_by_hand_lambda (w : World) (f : FunctionObj) :
  is_lambda (PFunction f) = true ->
  register_by_hand (PFunction f) None w =
    (Raise (Exn ValueError "Lambda function needs a explicit name, got None" None), w) /\
  (forall n : string,
     n <> EmptyString ->
     str_in "function" (allow_types (self w)) = true ->
     exists w',
       register_by_hand (PFunction f) (Some n) w = (Ok tt, w') /\
       func_map (self w') !! n = Some (PFunction f) /\
       class_map (self w') = class_map (self w) /\
       (class_map (self w) !! n = None -> get (self w') n = Some (PFunction f))).
Proof.
  intros Hlam. split.
  - unfold register_by_hand, bind, when. now rewrite Hlam.
  - intros n Hn Hallow.
    assert (Hk : str_or (Some n) (fn_name f) = n).
    { unfold str_or. destruct (String.eqb n EmptyString) eqn:E; [|reflexivity].
      apply String.eqb_eq in E. contradiction. }
    eexists. split.
    { rewrite register_by_hand_function_run by (assumption || discriminate).
      rewrite Hk. reflexivity. }
    simpl. rewrite lookup_insert_eq. repeat split.
    intros Hc. unfold get. simpl. rewrite Hc. simpl. now rewrite lookup_insert_eq.
Qed.


(** Registering under one key changes no other key (no cross-key leakage):
    what [get] answers for any other key is what it answered before. *)
Lemma registration_other_key (w : World) (k k2 : string) (o : pyobj) (msgs : list string) :
  k <> k2 ->
  get (self (class_registered k o msgs w)) k2 = get (self w) k2 /\
  get (self (function_registered k o msgs w)) k2 = get (self w) k2.
Proof.
  intros Hne. unfold get. simpl. now rewrite !lookup_insert_ne by assumption.
Qed.

Lemma registry_kinds_init (nm : string) (allow : list string) :
  registry_kinds (Registry_init nm allow).
Proof. split; intros k o Hk; simpl in Hk; now rewrite lookup_empty in Hk. Qed.

Lemma registry_kinds_class_registered (w : World) (k : string) (c : ClassObj)
    (msgs : list string) :
  registry_kinds (self w) -> registry_kinds (self (class_registered k (PClass c) msgs w)).
Proof.
  intros [Hc Hf]. split; simpl; [|exact Hf].
  intros k' o. rewrite lookup_insert. case_decide; [now intros [= <-] | apply Hc].
Qed.

Lemma registry_kinds_function_registered (w : World) (k : string) (f : FunctionObj)
    (msgs : list string) :
  registry_kinds (self w) -> registry_kinds (self (function_registered k (PFunction f) msgs w)).
Proof.
  intros [Hc Hf]. split; simpl; [exact Hc|].
  intros k' o. rewrite lookup_insert. case_decide; [now intros [= <-] | apply Hf].
Qed.

(** Every registration, successful or not, keeps classes in the class map
    and functions in the function map. *)
Lemma registration_keeps_kinds (w w' : World) (nm : option string) (o : pyobj) :
  registry_kinds (self w) ->
  (forall res, register_class nm o w = (res, w') -> registry_kinds (self w')) /\
  (forall res, register_function nm o w = (res, w') -> registry_kinds (self w')) /\
  (forall res, register_by_hand o nm w = (res, w') -> registry_kinds (self w')).
Proof.
  intros Hkinds. split; [|split]; intros [v|e] Hrun;
    try (first [apply register_class_failure in Hrun
               |apply register_function_failure in Hrun
               |apply register_by_hand_failure in Hrun]; now subst).
  - destruct o as [c|f|n t]; [|discriminate|discriminate].
    destruct (str_in "class" (allow_types (self w))) eqn:Hallow.
    + rewrite register_class_run in Hrun by assumption. injection Hrun as _ <-.
      now apply registry_kinds_class_registered.
    + unfold register_class, bind, raise_if, gets in Hrun. simpl in Hrun.
      rewrite Hallow in Hrun. discriminate.
  - destruct o as [c|f|n t]; [discriminate| |discriminate].
    destruct (str_in "function" (allow_types (self w))) eqn:Hallow.
    + rewrite register_function_run in Hrun by assumption. injection Hrun as _ <-.
      now apply registry_kinds_function_registered.
    + unfold register_function, bind, raise_if, gets in Hrun. simpl in Hrun.
      rewrite Hallow in Hrun. discriminate.
  - destruct o as [c|f|n t].
    + destruct (str_in "class" (allow_types (self w))) eqn:Hallow.
      * rewrite register_by_hand_class_run in Hrun by assumption. injection Hrun as _ <-.
        now apply registry_kinds_class_registered.
      * unfold register_by_hand, bind, raise_if, when, gets in Hrun. simpl in Hrun.
        rewrite (name_or_dunder_named nm (PClass c) (ty_name (cls_type c))) in Hrun
          by reflexivity.
        rewrite Hallow in Hrun. discriminate.
    + destruct (str_in "function" (allow_types (self w))) eqn:Hallow.
      * destruct (is_lambda (PFunction f)) eqn:Hlam; [destruct nm as [k|]|].
        -- rewrite register_by_hand_function_run in Hrun by (assumption || discriminate).
           injection Hrun as _ <-. now apply registry_kinds_function_registered.
        -- unfold register_by_hand, bind, when in Hrun. rewrite Hlam in Hrun. discriminate.
        -- rewrite register_by_hand_function_run in Hrun by (assumption || congruence).
           injection Hrun as _ <-. now apply registry_kinds_function_registered.
      * destruct (is_lambda (PFunction f)) eqn:Hlam; [destruct nm as [k|]|];
          unfold register_by_hand, bind, raise_if, when, gets in Hrun; rewrite Hlam in Hrun;
          try discriminate; unfold ret at 1 in Hrun;
          rewrite (name_or_dunder_named _ (PFunction f) (fn_name f)) in Hrun by reflexivity;
          simpl in Hrun; rewrite Hallow in Hrun; discriminate.
    + unfold register_by_hand, bind, raise_if, when, gets, name_or_dunder in Hrun.
      simpl in Hrun.
      destruct nm as [k|]; [destruct (String.eqb k EmptyString)|]; try destruct n;
        simpl in Hrun; discriminate.
Qed.

End RegistrationClaims.

(** Witnesses and counterexamples for the registration claims. *)

Lemma failed_registration_is_atomic_witness :
  register_function None (PClass ResNet) models_with_net
    = (Raise (Exn TypeError "Registry must be type function, got <class 'type'>" None),
       models_with_net) /\
  class_map (self models_with_net) = class_map (self models_with_net) /\
  func_map (self models_with_net) = func_map (self models_with_net).
Proof.
  split; [reflexivity|].
  apply (failed_registration_is_atomic models_with_net models_with_net None (PClass ResNet)
           (Exn TypeError "Registry must be type function, got <class 'type'>" None)).
  right. left. reflexivity.
Defined.

Lemma register_by_hand_lambda_witness :
  is_lambda (PFunction a_lambda) = true /\
  exists w',
    register_by_hand (PFunction a_lambda) (Some "identity") (fresh_world MODELS) = (Ok tt, w') /\
    get (self w') "identity" = Some (PFunction a_lambda).
Proof.
  split; [reflexivity|].
  destruct (register_by_hand_lambda (fresh_world MODELS) a_lambda eq_refl) as [_ Hnamed].
  destruct (Hnamed "identity") as (w' & Hrun & _ & _ & Hget); [discriminate | reflexivity |].
  exists w'. split; [exact Hrun | apply Hget; reflexivity].
Defined.

(** C9 as stated fails: with an explicit name the call need not succeed, and
    the lambda need not be what the registry returns under that name.
    (1) a registry that allows classes only raises the TypeError;
    (2) the empty string as explicit name counts as no name, the lambda is
        stored under ["<lambda>"] and [get] finds nothing under the empty name;
    (3) a class already registered under the name is what [get] returns. *)
Lemma register_by_hand_lambda_counterexample :
  (~ exists w', register_by_hand (PFunction a_lambda) (Some "identity") (fresh_world SHAPES)
                = (Ok tt, w')) /\
  (exists w', register_by_hand (PFunction a_lambda) (Some EmptyString) (fresh_world MODELS) = (Ok tt, w') /\
              get (self w') EmptyString = None /\
              get (self w') "<lambda>" = Some (PFunction a_lambda)) /\
  (exists w', register_by_hand (PFunction a_lambda) (Some "net") models_with_net = (Ok tt, w') /\
              get (self w') "net" = Some (PClass ResNet)).
Proof.
  split; [|split].
  - intros [w' Hrun]. vm_compute in Hrun. discriminate.
  - eexists. split; [reflexivity|]. split; reflexivity.
  - eexists. split; [reflexivity|]. reflexivity.
Qed.



(** ** Ordered dicts *)

Lemma od_get_set_eq {V} (k : string) (v : V) (d : odict V) :
  od_get k (od_set k v d) = Some v.
Proof.
  induction d as [|[k' v'] d IH]; simpl.
  - now rewrite String.eqb_refl.
  - destruct (String.eqb k k') eqn:E; simpl; rewrite ?String.eqb_refl, ?E; auto.
Qed.

Lemma od_get_set_ne {V} (k k' : string) (v : V) (d : odict V) :
  k <> k' -> od_get k (od_set k' v d) = od_get k d.
Proof.
  intros Hne. induction d as [|[k0 v0] d IH]; simpl.
  - apply String.eqb_neq in Hne. now rewrite Hne.
  - destruct (String.eqb k' k0) eqn:E; simpl.
    + apply String.eqb_eq in E. subst k0.
      apply String.eqb_neq in Hne. now rewrite Hne.
    + destruct (String.eqb k k0); auto.
Qed.

Lemma od_set_values_in {V} (k : string) (v : V) (d : odict V) (u : V) :
  In u (map snd (od_set k v d)) -> u = v \/ In u (map snd d).
Proof.
  induction d as [|[k' v'] d IH]; simpl.
  - intuition.
  - destruct (String.eqb k k'); simpl; intuition.
Qed.

Lemma od_in_true {V} (k : string) (d : odict V) :
  od_in k d = true <-> exists v, od_get k d = Some v.
Proof.
  unfold od_in. destruct (od_get k d); split; eauto; try discriminate.
  intros [v Hv]. discriminate.
Qed.

Lemma od_in_false {V} (k : string) (d : odict V) :
  od_in k d = false <-> od_get k d = None.
Proof. unfold od_in. destruct (od_get k d); split; congruence. Qed.

Lemma kind_eqb_eq (a b : param_kind) : kind_eqb a b = true <-> a = b.
Proof. destruct a, b; simpl; split; congruence. Qed.

(** ** Introspection of a class: the most derived declaration wins *)

Lemma class_parameter_loop (type_c : TypeObj) (docs : odict string) (k : string)
    (params : list InspectParameter) (args : odict ValueComment) :
  od_get k (fold_left (class_parameter_step type_c docs) params args) =
    match od_get k args with
    | Some vc => Some vc
    | None =>
        match List.find
                (fun value => String.eqb (p_name value) k
                              && kind_eqb (p_kind value) POSITIONAL_OR_KEYWORD) params with
        | Some value => Some (parameter_value_comment (ty_name type_c) docs value)
        | None => None
        end
    end.
Proof.
  revert args. induction params as [|p params IH]; intros args; simpl.
  - now destruct (od_get k args).
  - rewrite IH. unfold class_parameter_step.
    destruct (kind_eqb (p_kind p) POSITIONAL_OR_KEYWORD) eqn:Hkind; simpl.
    + destruct (od_in (p_name p) args) eqn:Hin.
      * destruct (od_get k args) as [vc|] eqn:Hk; [reflexivity|].
        destruct (String.eqb (p_name p) k) eqn:E; simpl; [|reflexivity].
        apply String.eqb_eq in E. subst k.
        apply od_in_true in Hin. destruct Hin as [v Hv]. congruence.
      * destruct (String.eqb (p_name p) k) eqn:E; simpl.
        -- apply String.eqb_eq in E. subst k.
           rewrite od_get_set_eq. apply od_in_false in Hin. now rewrite Hin.
        -- apply String.eqb_neq in E. rewrite od_get_set_ne by congruence. reflexivity.
    + rewrite andb_false_r. reflexivity.
Qed.

Lemma class_level_loop (levels : list TypeObj) (k : string) (args : odict ValueComment) :
  od_get k (fold_left class_level_step levels args) =
    match od_get k args with
    | Some vc => Some vc
    | None => first_capture levels k
    end.
Proof.
  revert args. induction levels as [|type_c levels IH]; intros args; simpl.
  - now destruct (od_get k args).
  - rewrite IH. unfold class_level_step. rewrite class_parameter_loop.
    unfold level_capture. destruct (od_get k args); [reflexivity|].
    now destruct (List.find _ _).
Qed.

(** The template of a class, key by key: first occurrence in resolution
    order. *)
Lemma get_class_arguments_first_capture (cls : ClassObj) (k : string) :
  od_get k (get_class_arguments cls) = first_capture (mro cls) k.
Proof. unfold get_class_arguments. now rewrite class_level_loop. Qed.

(** A level whose signature has no parameter named [k] contributes nothing
    for [k]. *)
Lemma level_capture_absent (type_c : TypeObj) (k : string) :
  (forall value, In value (ty_init type_c) -> p_name value <> k) ->
  level_capture type_c k = None.
Proof.
  intros Hno. unfold level_capture.
  destruct (List.find _ _) as [value|] eqn:Hfind; [|reflexivity].
  apply find_some in Hfind. destruct Hfind as [Hin Hp].
  apply filter_In in Hin. destruct Hin as [Hin _].
  apply andb_true_iff in Hp. destruct Hp as [Hp _].
  apply String.eqb_eq in Hp. now apply Hno in Hin.
Qed.

(** A level contributes only what a positional-or-keyword parameter of its
    signature gives. *)
Lemma level_capture_source (type_c : TypeObj) (k : string) (vc : ValueComment) :
  level_capture type_c k = Some vc ->
  exists value,
    In value (ty_init type_c) /\ p_name value = k /\
    p_kind value = POSITIONAL_OR_KEYWORD /\ k <> "self" /\
    vc = parameter_value_comment (ty_name type_c) (_get_doc_params (ty_doc type_c)) value.
Proof.
  unfold level_capture. destruct (List.find _ _) as [value|] eqn:Hfind; [|discriminate].
  intros [= <-]. apply find_some in Hfind. destruct Hfind as [Hin Hp].
  apply filter_In in Hin. destruct Hin as [Hin Hself].
  apply andb_true_iff in Hp. destruct Hp as [Hname Hkind].
  apply String.eqb_eq in Hname. apply kind_eqb_eq in Hkind.
  apply negb_true_iff, String.eqb_neq in Hself.
  exists value. repeat split; auto. congruence.
Qed.

(** With a default, the value of the [ValueComment] is that default. *)
Lemma parameter_value_comment_default (owner : string) (docs : odict string)
    (value : InspectParameter) (d : pyval) :
  p_default value = Some d -> vc_value (parameter_value_comment owner docs value) = d.
Proof.
  intros Hd. unfold parameter_value_comment. rewrite Hd.
  now destruct (od_get (p_name value) docs).
Qed.

(** In a signature, where names are unique, the parameter named [k] is the
    one the level captures, provided it is positional-or-keyword. *)
Lemma level_capture_declared (type_c : TypeObj) (value : InspectParameter) :
  NoDup (map p_name (ty_init type_c)) ->
  In value (ty_init type_c) ->
  p_kind value = POSITIONAL_OR_KEYWORD ->
  p_name value <> "self" ->
  level_capture type_c (p_name value) =
    Some (parameter_value_comment (ty_name type_c) (_get_doc_params (ty_doc type_c)) value).
Proof.
  intros Hnd Hin Hkind Hself.
  destruct (level_capture type_c (p_name value)) as [vc|] eqn:Hcap.
  - apply level_capture_source in Hcap.
    destruct Hcap as (value' & Hin' & Hname & _ & _ & ->).
    assert (value' = value) as ->; [|reflexivity].
    clear - Hnd Hin Hin' Hname. induction (ty_init type_c) as [|p l IH]; [contradiction|].
    simpl in Hnd. apply NoDup_cons in Hnd. destruct Hnd as [Hnotin Hnd].
    destruct Hin as [->|Hin], Hin' as [->|Hin']; auto.
    + exfalso. apply Hnotin. rewrite <- Hname. now apply list_elem_of_In, in_map.
    + exfalso. apply Hnotin. rewrite Hname. now apply list_elem_of_In, in_map.
  - exfalso. unfold level_capture in Hcap.
    destruct (List.find _ _) as [v|] eqn:Hfind; [discriminate|].
    assert (Hv : In value (List.filter (fun v => negb (String.eqb (p_name v) "self"))
                              (ty_init type_c))).
    { apply filter_In. split; [assumption|]. now apply negb_true_iff, String.eqb_neq. }
    apply (find_none _ _ Hfind) in Hv. simpl in Hv.
    rewrite String.eqb_refl in Hv. simpl in Hv.
    apply kind_eqb_eq in Hkind. congruence.
Qed.

Lemma first_capture_app (pre post : list TypeObj) (k : string) :
  first_capture (pre ++ post) k =
    match first_capture pre k with
    | Some vc => Some vc
    | None => first_capture post k
    end.
Proof.
  induction pre as [|type_c pre IH]; simpl; [reflexivity|].
  now destruct (level_capture type_c k).
Qed.

(** C4, as amended: the template of a class holds, for every name, what the
    first class in resolution order contributes for it, so that what a more
    derived part of the order has captured is never replaced by what follows.
    On a subclass B(A): if only A declares the positional-or-keyword
    parameter [k] (other than [self]) with a default (B's signature has no
    such name, or B inherits A's constructor), the template has [k] with A's
    default; if B declares the positional-or-keyword parameter [k] with a
    default, the template has B's default, whatever A declares. *)
Theorem class_template_most_derived_wins (cls : ClassObj) (k : string) :
  od_get k (get_class_arguments cls) = first_capture (mro cls) k /\
  (forall pre post vc,
     mro cls = pre ++ post -> first_capture pre k = Some vc ->
     od_get k (get_class_arguments cls) = Some vc) /\
  (forall B A rest value d,
     mro cls = B :: A :: rest ->
     NoDup (map p_name (ty_init A)) ->
     In value (ty_init A) -> p_name value = k -> k <> "self" ->
     p_kind value = POSITIONAL_OR_KEYWORD -> p_default value = Some d ->
     (forall q, In q (ty_init B) -> p_name q <> k) \/ ty_init B = ty_init A ->
     exists doc, od_get k (get_class_arguments cls) = Some {| vc_value := d; vc_comment := doc |}) /\
  (forall B rest value d,
     mro cls = B :: rest ->
     NoDup (map p_name (ty_init B)) ->
     In value (ty_init B) -> p_name value = k -> k <> "self" ->
     p_kind value = POSITIONAL_OR_KEYWORD -> p_default value = Some d ->
     exists doc, od_get k (get_class_arguments cls) = Some {| vc_value := d; vc_comment := doc |}).
Proof.
  assert (Hval : forall owner docs value d,
             p_default value = Some d ->
             exists doc, parameter_value_comment owner docs value
                         = {| vc_value := d; vc_comment := doc |}).
  { intros owner docs value d Hd.
    exists (vc_comment (parameter_value_comment owner docs value)).
    rewrite <- (parameter_value_comment_default owner docs value d Hd).
    now destruct (parameter_value_comment owner docs value). }
  split; [apply get_class_arguments_first_capture|]. split; [|split].
  - intros pre post vc Hmro Hpre.
    rewrite get_class_arguments_first_capture, Hmro, first_capture_app. now rewrite Hpre.
  - intros B A rest value d Hmro Hnd Hin Hname Hself Hkind Hd HB.
    rewrite get_class_arguments_first_capture, Hmro. simpl. subst k.
    destruct HB as [Hno | Hsame].
    + rewrite (level_capture_absent B) by assumption.
      rewrite (level_capture_declared A value) by assumption.
      destruct (Hval (ty_name A) (_get_doc_params (ty_doc A)) value d Hd) as [doc ->]. eauto.
    + rewrite (level_capture_declared B value) by (rewrite ?Hsame; assumption).
      destruct (Hval (ty_name B) (_get_doc_params (ty_doc B)) value d Hd) as [doc ->]. eauto.
  - intros B rest value d Hmro Hnd Hin Hname Hself Hkind Hd.
    rewrite get_class_arguments_first_capture, Hmro. simpl. subst k.
    rewrite (level_capture_declared B value) by assumption.
    destruct (Hval (ty_name B) (_get_doc_params (ty_doc B)) value d Hd) as [doc ->]. eauto.
Qed.

Lemma class_template_most_derived_wins_witness :
  (exists doc, od_get "q" (get_class_arguments B_class)
               = Some {| vc_value := PyInt 2; vc_comment := doc |}) /\
  (exists doc, od_get "p" (get_class_arguments B_class)
               = Some {| vc_value := PyInt 5; vc_comment := doc |}).
Proof.
  destruct (class_template_most_derived_wins B_class "q") as (_ & _ & Hbase & _).
  destruct (class_template_most_derived_wins B_class "p") as (_ & _ & _ & Hderived).
  assert (Hnd : forall a b c : string, a <> b -> a <> c -> b <> c -> NoDup [a; b; c]).
  { intros a b c Hab Hac Hbc. repeat constructor; rewrite ?list_elem_of_In; simpl; intuition. }
  split.
  - apply (Hbase B_type A_type [object_type] (pk "q" POSITIONAL_OR_KEYWORD (Some (PyInt 2)))
             (PyInt 2));
      [ reflexivity | apply Hnd; discriminate | simpl; tauto | reflexivity | discriminate
      | reflexivity | reflexivity
      | left; simpl; intros q [<-|[<-|[<-|[]]]]; discriminate ].
  - apply (Hderived B_type [A_type; object_type] (pk "p" POSITIONAL_OR_KEYWORD (Some (PyInt 5)))
             (PyInt 5));
      [ reflexivity | apply Hnd; discriminate | simpl; tauto | reflexivity | discriminate
      | reflexivity | reflexivity ].
Defined.

(** C4 as stated fails for a parameter that is not positional-or-keyword:
    only [KA] declares [p], with the default 3, and the template of [KB(KA)]
    has no [p]; [MB] and [MA] both declare [p], with the defaults 1 and 2, and
    the template of [MB(MA)] carries 2, the default of the base. *)
Lemma class_template_counterexample :
  In (pk "p" KEYWORD_ONLY (Some (PyInt 3))) (ty_init KA_type) /\
  od_get "p" (get_class_arguments KB_class) = None /\
  In (pk "p" KEYWORD_ONLY (Some (PyInt 1))) (ty_init (cls_type MB_class)) /\
  od_get "p" (get_class_arguments MB_class) = Some {| vc_value := PyInt 2; vc_comment := EmptyString |}.
Proof. simpl. repeat split; auto. Qed.

(** ** Introspection of a function *)

Lemma function_parameter_step_entry (func : FunctionObj) (docs : odict string)
    (args : odict ValueComment) (value : InspectParameter) :
  function_parameter_step func docs args value =
    match function_entry func docs value with
    | Some vc => od_set (p_name value) vc args
    | None => args
    end.
Proof. unfold function_parameter_step, function_entry. now destruct (p_kind value). Qed.

Lemma function_parameter_loop_other (func : FunctionObj) (docs : odict string) (k : string)
    (params : list InspectParameter) (args : odict ValueComment) :
  (forall value, In value params -> p_name value <> k) ->
  od_get k (fold_left (function_parameter_step func docs) params args) = od_get k args.
Proof.
  revert args. induction params as [|p params IH]; intros args Hno; simpl; [reflexivity|].
  rewrite IH by (intros v Hv; apply Hno; now right).
  rewrite function_parameter_step_entry.
  destruct (function_entry func docs p); [|reflexivity].
  apply od_get_set_ne. intros ->. now apply (Hno p); [left|].
Qed.

Lemma function_parameter_loop (func : FunctionObj) (docs : odict string)
    (params : list InspectParameter) (args : odict ValueComment)
    (value : InspectParameter) (vc : ValueComment) :
  NoDup (map p_name params) ->
  In value params ->
  function_entry func docs value = Some vc ->
  od_get (p_name value) (fold_left (function_parameter_step func docs) params args) = Some vc.
Proof.
  revert args. induction params as [|p params IH]; intros args Hnd Hin Hentry; [contradiction|].
  simpl in Hnd. apply NoDup_cons in Hnd. destruct Hnd as [Hnotin Hnd].
  simpl. destruct Hin as [->|Hin].
  - rewrite function_parameter_loop_other.
    + rewrite function_parameter_step_entry, Hentry. apply od_get_set_eq.
    + intros v Hv Heq. apply Hnotin. rewrite <- Heq. now apply list_elem_of_In, in_map.
  - now apply IH.
Qed.

(** C5, as amended: in the template of a function, a variadic-keyword
    parameter always has an entry whose default is the empty dict and a
    variadic-positional parameter one whose default is the empty list, both
    with an empty comment; the template of a class never has an entry for a
    name that only variadic (or other not positional-or-keyword) parameters
    carry: the class variant skips them. *)
Theorem variadic_parameters_in_templates :
  (forall (func : FunctionObj) (value : InspectParameter),
     NoDup (map p_name (fn_params func)) ->
     In value (fn_params func) ->
     (p_kind value = VAR_KEYWORD ->
      od_get (p_name value) (get_function_arguments func)
        = Some {| vc_value := PyDict []; vc_comment := EmptyString |}) /\
     (p_kind value = VAR_POSITIONAL ->
      od_get (p_name value) (get_function_arguments func)
        = Some {| vc_value := PyList []; vc_comment := EmptyString |})) /\
  (forall (cls : ClassObj) (k : string),
     (forall type_c value,
        In type_c (mro cls) -> In value (ty_init type_c) -> p_name value = k ->
        p_kind value <> POSITIONAL_OR_KEYWORD) ->
     od_get k (get_class_arguments cls) = None).
Proof.
  split.
  - intros func value Hnd Hin. unfold get_function_arguments.
    split; intros Hkind; apply function_parameter_loop; auto;
      unfold function_entry; now rewrite Hkind.
  - intros cls k Hvar. rewrite get_class_arguments_first_capture.
    induction (mro cls) as [|type_c levels IH]; simpl; [reflexivity|].
    destruct (level_capture type_c k) as [vc|] eqn:Hcap.
    + apply level_capture_source in Hcap. destruct Hcap as (value & Hin & Hname & Hkind & _).
      exfalso. apply (Hvar type_c value); auto. now left.
    + apply IH. intros t v Ht. apply Hvar. now right.
Qed.

Lemma variadic_parameters_in_templates_witness :
  od_get "kwargs" (get_function_arguments collect)
    = Some {| vc_value := PyDict []; vc_comment := EmptyString |} /\
  od_get "args" (get_function_arguments collect)
    = Some {| vc_value := PyList []; vc_comment := EmptyString |} /\
  od_get "kwargs" (get_class_arguments Collector) = None.
Proof.
  destruct variadic_parameters_in_templates as [Hfun Hcls].
  assert (Hnd : NoDup (map p_name (fn_params collect))).
  { simpl. repeat constructor; rewrite ?list_elem_of_In; simpl; intuition discriminate. }
  split; [|split].
  - apply (Hfun collect (pk "kwargs" VAR_KEYWORD None) Hnd); [simpl; tauto | reflexivity].
  - apply (Hfun collect (pk "args" VAR_POSITIONAL None) Hnd); [simpl; tauto | reflexivity].
  - apply Hcls. simpl. intros type_c value [<-|[<-|[]]] Hin Hname; simpl in Hin;
      intuition (subst; simpl in *; discriminate).
Defined.

(** C5 as stated fails for the class variant: the constructor of [Collector]
    has the variadic parameters [*args] and [**kwargs], and its template has
    an entry for neither, while the template of the function with the same
    parameters has both. *)
Lemma variadic_parameters_counterexample :
  In (pk "kwargs" VAR_KEYWORD None) (ty_init (cls_type Collector)) /\
  In (pk "args" VAR_POSITIONAL None) (ty_init (cls_type Collector)) /\
  od_get "kwargs" (get_class_arguments Collector) = None /\
  od_get "args" (get_class_arguments Collector) = None /\
  get_class_arguments Collector
    = [("first", {| vc_value := PyNone;
                    vc_comment := "TODO: Complete this value for type Collector." |})].
Proof. simpl. repeat split; auto. Qed.

(** ** [fetch_parameters] *)

Lemma prefix_append (sub rest : string) : String.prefix sub (sub +:+ rest) = true.
Proof.
  induction sub as [|c sub IH]; simpl; [now destruct rest|].
  destruct (ascii_dec c c); [assumption | contradiction].
Qed.

Lemma str_contains_here (sub rest : string) : str_contains sub (sub +:+ rest) = true.
Proof.
  assert (Hunfold : forall s, str_contains sub s = true <->
                              String.prefix sub s = true \/
                              match s with
                              | EmptyString => False
                              | String _ s' => str_contains sub s' = true
                              end).
  { intros [|c s]; simpl; rewrite orb_true_iff; intuition discriminate. }
  apply Hunfold. left. apply prefix_append.
Qed.

Lemma str_contains_self (sub : string) : str_contains sub sub = true.
Proof.
  assert (Hnil : forall s, s +:+ EmptyString = s).
  { induction s as [|c s IH]; [reflexivity|].
    change (String c (s +:+ EmptyString) = String c s). now rewrite IH. }
  rewrite <- (Hnil sub) at 2. apply str_contains_here.
Qed.

Lemma str_contains_append (sub before s : string) :
  str_contains sub s = true -> str_contains sub (before +:+ s) = true.
Proof.
  intros Hs. induction before as [|c before IH]; [assumption|].
  change (str_contains sub (String c (before +:+ s)) = true).
  simpl. rewrite IH. apply orb_true_r.
Qed.

(** C6, as amended: for a key in neither map [fetch_parameters] raises the
    ValueError whose message is ["Unexpected type "] followed by the key (the
    registry's name is not part of it); for a key of the class map it returns
    the template of that class, for a key of the function map alone the
    template of that function; for no key present in either map does it
    raise a ValueError, and in a registry filled by the registration methods
    (classes in the class map, functions in the function map) it returns a
    template for every such key. *)
Theorem fetch_parameters_result (r : Registry) (req_type : string) :
  (class_map r !! req_type = None -> func_map r !! req_type = None ->
   fetch_parameters r req_type = Raise (Exn ValueError ("Unexpected type " +:+ req_type) None) /\
   str_contains req_type ("Unexpected type " +:+ req_type) = true) /\
  (forall c, class_map r !! req_type = Some (PClass c) ->
             fetch_parameters r req_type = Ok (get_class_arguments c)) /\
  (forall f, class_map r !! req_type = None -> func_map r !! req_type = Some (PFunction f) ->
             fetch_parameters r req_type = Ok (get_function_arguments f)) /\
  (is_Some (class_map r !! req_type) \/ is_Some (func_map r !! req_type) ->
   (forall msg ctx, fetch_parameters r req_type <> Raise (Exn ValueError msg ctx)) /\
   (registry_kinds r -> exists template, fetch_parameters r req_type = Ok template)).
Proof.
  unfold fetch_parameters. split; [|split; [|split]].
  - intros Hc Hf. rewrite Hc, Hf. split; [reflexivity|].
    apply str_contains_append, str_contains_self.
  - intros c ->. reflexivity.
  - intros f -> ->. reflexivity.
  - intros Hpresent. split.
    + intros msg ctx. destruct Hpresent as [[o Ho] | [o Ho]]; rewrite Ho.
      * destruct o; discriminate.
      * destruct (class_map r !! req_type) as [[]|]; destruct o; discriminate.
    + intros [Hclasses Hfunctions].
      destruct (class_map r !! req_type) as [o|] eqn:Hc.
      * apply Hclasses in Hc. destruct o; try discriminate. eauto.
      * destruct Hpresent as [[o Ho] | [o Ho]]; [discriminate|]. rewrite Ho.
        apply Hfunctions in Ho. destruct o; try discriminate. eauto.
Qed.

Lemma fetch_parameters_result_witness :
  fetch_parameters demo_registry "AlexNet" = Raise (Exn ValueError "Unexpected type AlexNet" None) /\
  fetch_parameters demo_registry "vgg" = Ok (get_function_arguments make_vgg).
Proof.
  destruct (fetch_parameters_result demo_registry "AlexNet") as (Hmissing & _).
  destruct (fetch_parameters_result demo_registry "vgg") as (_ & _ & Hfunction & _).
  split.
  - apply Hmissing; reflexivity.
  - apply Hfunction; reflexivity.
Defined.

(** C6 as stated fails on the registry name: the ValueError for the
    unregistered key ["AlexNet"] of the registry [MODELS] has the message
    ["Unexpected type AlexNet"], in which the key occurs and the name of the
    registry does not. *)
Lemma fetch_parameters_counterexample :
  name demo_registry = "MODELS" /\
  fetch_parameters demo_registry "AlexNet" = Raise (Exn ValueError "Unexpected type AlexNet" None) /\
  str_contains "AlexNet" "Unexpected type AlexNet" = true /\
  str_contains (name demo_registry) "Unexpected type AlexNet" = false.
Proof. repeat split; reflexivity. Qed.

(** ** [copy.deepcopy] never writes to an object that was there before *)

Lemma list_append_writes_cell (y : loc) : writes_cell y (fun _ : unit => list_append y).
Proof.
  intros _ v h. unfold list_append.
  destruct (h !! y) as [[entries|items]|] eqn:Hy; try (split; [|split]; eauto; fail).
  - split; [|split]; eauto. intros o' Ho'. exists (ODict entries). split; [congruence|].
    intros u Hu. right. congruence.
  - split; [apply length_insert|]. split.
    + intros l Hl. now apply list_lookup_insert_ne.
    + intros o'. rewrite list_lookup_insert_eq by (now apply lookup_lt_Some in Hy).
      intros [= <-]. exists (OList items). split; [reflexivity|].
      simpl. intros u Hu. apply in_app_or in Hu. simpl in Hu. intuition.
  - split; [|split]; eauto. intros o' Ho'. congruence.
Qed.

Lemma dict_setitem_writes_cell (y : loc) : writes_cell y (dict_setitem y).
Proof.
  intros k v h. unfold dict_setitem.
  destruct (h !! y) as [[entries|items]|] eqn:Hy.
  - split; [apply length_insert|]. split.
    + intros l Hl. now apply list_lookup_insert_ne.
    + intros o'. rewrite list_lookup_insert_eq by (now apply lookup_lt_Some in Hy).
      intros [= <-]. exists (ODict entries). split; [reflexivity|].
      simpl. intros u Hu. apply od_set_values_in in Hu. intuition.
  - split; [|split]; eauto. intros o' Ho'. exists (OList items). split; [congruence|].
    intros u Hu. right. congruence.
  - split; [|split]; eauto. intros o' Ho'. congruence.
Qed.

Lemma deepcopy_items_frame {K} deepcopy_child (store : K -> value -> heap -> heap) (y : loc) :
  preserves_store deepcopy_child -> writes_cell y store ->
  forall items memo h memo' h',
    deepcopy_items deepcopy_child store items memo h = Some (memo', h') ->
    length h <= length h' /\ forall l, l < length h -> l <> y -> h' !! l = h !! l.
Proof.
  intros Hchild Hstore. induction items as [|[k a] rest IH]; intros memo h memo' h' Hrun.
  - simpl in Hrun. injection Hrun as <- <-. auto.
  - simpl in Hrun.
    destruct (deepcopy_child a memo h) as [[[a' memo1] h1]|] eqn:Ha; [|discriminate].
    apply Hchild in Ha. destruct Ha as [Hlen Hold].
    destruct (Hstore k a' h1) as (Hslen & Hsother & _).
    apply IH in Hrun. destruct Hrun as [Hlen' Hold']. rewrite Hslen in *.
    split; [lia|]. intros l Hl Hy.
    rewrite Hold' by (lia || assumption). rewrite Hsother by assumption. now apply Hold.
Qed.

Lemma deepcopy_rec_frame (fuel : nat) : preserves_store (deepcopy_rec fuel).
Proof.
  induction fuel as [|fuel IH]; intros x memo h y memo' h' Hrun.
  - destruct x as [| b | z | s | o | l]; simpl in Hrun;
      try (injection Hrun as <- <- <-; auto; fail).
    destruct (memo !! l); [injection Hrun as <- <- <-; auto | discriminate].
  - destruct x as [| b | z | s | o | l]; simpl in Hrun;
      try (injection Hrun as <- <- <-; auto; fail).
    destruct (memo !! l); [injection Hrun as <- <- <-; auto|].
    destruct (h !! l) as [[entries|items]|]; [| |discriminate].
    + destruct (deepcopy_items _ _ _ _ _) as [[memo1 h1]|] eqn:Hloop; [|discriminate].
      injection Hrun as <- <- <-.
      apply (deepcopy_items_frame _ _ (length h) IH (dict_setitem_writes_cell _)) in Hloop.
      rewrite length_app in Hloop. simpl in Hloop. destruct Hloop as [Hlen Hold].
      split; [lia|]. intros l0 Hl0. rewrite Hold by lia. now apply lookup_app_l.
    + destruct (deepcopy_items _ _ _ _ _) as [[memo1 h1]|] eqn:Hloop; [|discriminate].
      injection Hrun as <- <- <-.
      apply (deepcopy_items_frame _ _ (length h) IH (list_append_writes_cell _)) in Hloop.
      rewrite length_app in Hloop. simpl in Hloop. destruct Hloop as [Hlen Hold].
      split; [lia|]. intros l0 Hl0. rewrite Hold by lia. now apply lookup_app_l.
Qed.

(** ** What [copy.deepcopy] returns is made of new objects *)

Lemma cells_fresh_store {K} (n : nat) (store : K -> value -> heap -> heap) (y : loc)
    (k : K) (v : value) (h : heap) :
  writes_cell y store -> val_fresh n v -> cells_fresh n h -> cells_fresh n (store k v h).
Proof.
  intros Hstore Hv Hcells l o u Hl Ho Hu.
  destruct (Hstore k v h) as (_ & Hother & Hcell).
  destruct (decide (l = y)) as [->|Hne].
  - apply Hcell in Ho. destruct Ho as (o0 & Ho0 & Hvals).
    apply Hvals in Hu. destruct Hu as [->|Hu]; [assumption|]. eapply Hcells; eauto.
  - rewrite Hother in Ho by assumption. eapply Hcells; eauto.
Qed.

Lemma cells_fresh_alloc (n : nat) (h : heap) (o : obj) :
  obj_values o = [] -> cells_fresh n h -> cells_fresh n (h ++ [o]).
Proof.
  intros Hempty Hcells l o' u Hl Ho' Hu.
  destruct (decide (l < length h)) as [Hlt|Hge].
  - rewrite lookup_app_l in Ho' by assumption. eapply Hcells; eauto.
  - rewrite lookup_app_r in Ho' by lia.
    destruct (l - length h) as [|i]; simpl in Ho'; [|discriminate].
    injection Ho' as <-. rewrite Hempty in Hu. contradiction.
Qed.

Lemma memo_fresh_insert (n : nat) (memo : gmap loc loc) (l y : loc) :
  n <= y -> memo_fresh n memo -> memo_fresh n (<[l := y]> memo).
Proof.
  intros Hy Hmemo l0 y0. rewrite lookup_insert. case_decide.
  - intros [= <-]. assumption.
  - apply Hmemo.
Qed.

Lemma deepcopy_items_fresh {K} (n : nat) deepcopy_child
    (store : K -> value -> heap -> heap) (y : loc) :
  preserves_store deepcopy_child -> produces_fresh n deepcopy_child -> writes_cell y store ->
  forall items memo h memo' h',
    n <= length h -> memo_fresh n memo -> cells_fresh n h ->
    deepcopy_items deepcopy_child store items memo h = Some (memo', h') ->
    memo_fresh n memo' /\ cells_fresh n h'.
Proof.
  intros Hframe Hchild Hstore.
  induction items as [|[k a] rest IH]; intros memo h memo' h' Hn Hmemo Hcells Hrun.
  - simpl in Hrun. injection Hrun as <- <-. auto.
  - simpl in Hrun.
    destruct (deepcopy_child a memo h) as [[[a' memo1] h1]|] eqn:Ha; [|discriminate].
    destruct (Hframe _ _ _ _ _ _ Ha) as [Hlen _].
    destruct (Hchild _ _ _ _ _ _ Hn Hmemo Hcells Ha) as (Ha' & Hmemo1 & Hcells1).
    apply IH in Hrun; auto.
    + destruct (Hstore k a' h1) as (-> & _). lia.
    + eapply cells_fresh_store; eauto.
Qed.

Lemma deepcopy_rec_fresh (n fuel : nat) : produces_fresh n (deepcopy_rec fuel).
Proof.
  induction fuel as [|fuel IH]; intros x memo h y memo' h' Hn Hmemo Hcells Hrun.
  - destruct x as [| b | z | s | o | l]; simpl in Hrun;
      try (injection Hrun as <- <- <-; simpl; auto; fail).
    destruct (memo !! l) eqn:Hl; [|discriminate].
    injection Hrun as <- <- <-. simpl. eauto.
  - destruct x as [| b | z | s | o | l]; simpl in Hrun;
      try (injection Hrun as <- <- <-; simpl; auto; fail).
    destruct (memo !! l) eqn:Hl; [injection Hrun as <- <- <-; simpl; eauto|].
    destruct (h !! l) as [[entries|items]|]; [| |discriminate].
    + destruct (deepcopy_items _ _ _ _ _) as [[memo1 h1]|] eqn:Hloop; [|discriminate].
      injection Hrun as <- <- <-.
      apply (deepcopy_items_fresh n _ _ (length h) (deepcopy_rec_frame fuel) IH
               (dict_setitem_writes_cell _)) in Hloop.
      * simpl. tauto.
      * rewrite length_app. lia.
      * now apply memo_fresh_insert.
      * now apply cells_fresh_alloc.
    + destruct (deepcopy_items _ _ _ _ _) as [[memo1 h1]|] eqn:Hloop; [|discriminate].
      injection Hrun as <- <- <-.
      apply (deepcopy_items_fresh n _ _ (length h) (deepcopy_rec_frame fuel) IH
               (list_append_writes_cell _)) in Hloop.
      * simpl. tauto.
      * rewrite length_app. lia.
      * now apply memo_fresh_insert.
      * now apply cells_fresh_alloc.
Qed.

(** ** [copy.deepcopy] returns: the nesting of calls is bounded by the store *)

Lemma memo_old_size (n : nat) (memo : gmap loc loc) : memo_old n memo -> size memo <= n.
Proof.
  intros Hold. rewrite <- (size_dom (D := gset nat)).
  rewrite <- (size_set_seq (C := gset nat) 0 n). apply subseteq_size.
  intros l Hl. apply elem_of_dom in Hl. apply elem_of_set_seq. apply Hold in Hl. lia.
Qed.

Lemma memo_old_insert (n : nat) (memo : gmap loc loc) (l y : loc) :
  l < n -> memo_old n memo -> memo_old n (<[l := y]> memo).
Proof.
  intros Hl Hold l0. rewrite lookup_insert. case_decide; [now subst | apply Hold].
Qed.

Lemma old_closed_frame (n : nat) (h h' : heap) :
  n <= length h -> (forall l, l < length h -> h' !! l = h !! l) ->
  old_closed n h -> old_closed n h'.
Proof.
  intros Hn Hsame Hclosed l o v Hl Ho Hv. rewrite Hsame in Ho by lia. eapply Hclosed; eauto.
Qed.

Lemma old_closed_store {K} (n : nat) (store : K -> value -> heap -> heap) (y : loc)
    (k : K) (v : value) (h : heap) :
  writes_cell y store -> n <= y -> old_closed n h -> old_closed n (store k v h).
Proof.
  intros Hstore Hy Hclosed l o u Hl Ho Hu.
  destruct (Hstore k v h) as (_ & Hother & _).
  rewrite Hother in Ho by lia. eapply Hclosed; eauto.
Qed.

Lemma deepcopy_items_returns {K} (n budget : nat) deepcopy_child
    (store : K -> value -> heap -> heap) (y : loc) :
  preserves_store deepcopy_child -> returns_below n budget deepcopy_child ->
  writes_cell y store -> n <= y ->
  forall items memo h,
    n <= length h -> old_closed n h -> Forall (fun kv => val_below n (snd kv)) items ->
    memo_old n memo -> n < budget + size memo ->
    exists memo' h',
      deepcopy_items deepcopy_child store items memo h = Some (memo', h') /\
      memo ⊆ memo' /\ memo_old n memo'.
Proof.
  intros Hframe Hchild Hstore Hy.
  induction items as [|[k a] rest IH]; intros memo h Hn Hclosed Hitems Hmemo Hbudget.
  - simpl. eauto.
  - simpl. apply Forall_cons in Hitems. destruct Hitems as [Ha Hrest]. simpl in Ha.
    destruct (Hchild a memo h Hn Hclosed Ha Hmemo Hbudget) as (a' & memo1 & h1 & Hrun & Hsub & Hmemo1).
    rewrite Hrun. destruct (Hframe _ _ _ _ _ _ Hrun) as [Hlen Hsame].
    destruct (IH memo1 (store k a' h1)) as (memo' & h' & Hloop & Hsub' & Hmemo'); auto.
    + destruct (Hstore k a' h1) as (-> & _). lia.
    + eapply old_closed_store; eauto. eapply old_closed_frame; eauto.
    + apply map_subseteq_size in Hsub. lia.
    + exists memo', h'. split; [assumption|]. split; [|assumption].
      etransitivity; eassumption.
Qed.

Lemma old_closed_alloc (n : nat) (h : heap) (o : obj) :
  n <= length h -> old_closed n h -> old_closed n (h ++ [o]).
Proof.
  intros Hn Hclosed l o' v Hl Ho' Hv.
  rewrite lookup_app_l in Ho' by lia. eapply Hclosed; eauto.
Qed.

Lemma deepcopy_rec_returns (n fuel : nat) : returns_below n fuel (deepcopy_rec fuel).
Proof.
  induction fuel as [|fuel IH]; intros x memo h Hn Hclosed Hx Hmemo Hbudget.
  - pose proof (memo_old_size n memo Hmemo). lia.
  - assert (Hdone : forall y : value,
               exists y0 memo' h', Some (y, memo, h) = Some (y0, memo', h') /\
                                   memo ⊆ memo' /\ memo_old n memo').
    { intros y. exists y, memo, h. split; [reflexivity|]. split; [reflexivity | assumption]. }
    destruct x as [| b | z | s | o | l]; simpl; try apply Hdone.
    destruct (memo !! l) as [y|] eqn:Hl; [apply Hdone|].
    simpl in Hx.
    assert (Hsize : S (size memo) <= n).
    { rewrite <- (map_size_insert_None l 0 memo Hl).
      apply memo_old_size. now apply memo_old_insert. }
    destruct (h !! l) as [o|] eqn:Ho; [|apply lookup_ge_None in Ho; lia].
    assert (Hvals : Forall (val_below n) (obj_values o)).
    { apply Forall_forall. intros v Hv. apply list_elem_of_In in Hv.
      exact (Hclosed l o v Hx Ho Hv). }
    destruct o as [entries|items]; simpl in Hvals.
    + destruct (deepcopy_items_returns n fuel (deepcopy_rec fuel) (dict_setitem (length h))
                  (length h) (deepcopy_rec_frame fuel) IH (dict_setitem_writes_cell _) Hn
                  entries (<[l := length h]> memo) (h ++ [ODict []]))
        as (memo' & h' & Hloop & Hsub & Hmemo').
      * rewrite length_app. lia.
      * now apply old_closed_alloc.
      * exact (proj1 (List.Forall_map snd (val_below n) entries) Hvals).
      * now apply memo_old_insert.
      * rewrite map_size_insert_None by assumption. lia.
      * exists (VRef (length h)), memo', h'. rewrite Hloop. split; [reflexivity|].
        split; [|assumption]. etransitivity; [|eassumption]. now apply insert_subseteq.
    + destruct (deepcopy_items_returns n fuel (deepcopy_rec fuel)
                  (fun _ : unit => list_append (length h))
                  (length h) (deepcopy_rec_frame fuel) IH (list_append_writes_cell _) Hn
                  (map (pair tt) items) (<[l := length h]> memo) (h ++ [OList []]))
        as (memo' & h' & Hloop & Hsub & Hmemo').
      * rewrite length_app. lia.
      * now apply old_closed_alloc.
      * exact (proj2 (List.Forall_map (pair tt) (fun kv => val_below n (snd kv)) items) Hvals).
      * now apply memo_old_insert.
      * rewrite map_size_insert_None by assumption. lia.
      * exists (VRef (length h)), memo', h'. rewrite Hloop. split; [reflexivity|].
        split; [|assumption]. etransitivity; [|eassumption]. now apply insert_subseteq.
Qed.

Lemma closed_old_closed (h : heap) : closed h -> old_closed (length h) h.
Proof.
  intros Hclosed l o v _ Ho Hv. specialize (Hclosed l o v Ho Hv). now destruct v.
Qed.

(** [copy.deepcopy] returns on every store without dangling references. *)
Lemma deepcopy_total (h : heap) (x : value) :
  closed h -> val_closed h x ->
  exists y memo' h', deepcopy_rec (S (length h)) x ∅ h = Some (y, memo', h').
Proof.
  intros Hclosed Hx.
  assert (Hbelow : val_below (length h) x) by (destruct x; exact Hx).
  assert (Hmemo : memo_old (length h) (∅ : gmap loc loc)).
  { intros l [y Hy]. now rewrite lookup_empty in Hy. }
  destruct (deepcopy_rec_returns (length h) (S (length h)) x ∅ h (le_n _)
              (closed_old_closed h Hclosed) Hbelow Hmemo) as (y & memo' & h' & Hrun & _).
  - lia.
  - eauto.
Qed.

(** ** The copy of a dict *)

Lemma deepcopy_rec_copy_of (fuel : nat) : copies_values (deepcopy_rec fuel).
Proof.
  intros x memo h y memo' h' Hrun.
  destruct x as [| b | z | s | o | l]; destruct fuel; simpl in Hrun;
    try (injection Hrun as <- <- <-; reflexivity).
  - destruct (memo !! l); [injection Hrun as <- <- <-; simpl; eauto | discriminate].
  - destruct (memo !! l); [injection Hrun as <- <- <-; simpl; eauto|].
    destruct (h !! l) as [[entries|items]|]; [| |discriminate];
      destruct (deepcopy_items _ _ _ _ _) as [[memo1 h1]|]; try discriminate;
      injection Hrun as <- <- <-; simpl; eauto.
Qed.

Lemma deepcopy_items_dict deepcopy_child (y : loc) :
  preserves_store deepcopy_child -> copies_values deepcopy_child ->
  forall items memo h memo' h' acc,
    h !! y = Some (ODict acc) ->
    deepcopy_items deepcopy_child (dict_setitem y) items memo h = Some (memo', h') ->
    exists copies,
      entries_copied items copies /\ h' !! y = Some (ODict (od_update acc copies)).
Proof.
  intros Hframe Hcopy.
  induction items as [|[k a] rest IH]; intros memo h memo' h' acc Hy Hrun.
  - simpl in Hrun. injection Hrun as <- <-. exists []. split; [constructor | assumption].
  - simpl in Hrun.
    destruct (deepcopy_child a memo h) as [[[a' memo1] h1]|] eqn:Ha; [|discriminate].
    pose proof (Hcopy _ _ _ _ _ _ Ha) as Hcopied.
    destruct (Hframe _ _ _ _ _ _ Ha) as [Hlen Hsame].
    assert (Hy1 : h1 !! y = Some (ODict acc)).
    { rewrite Hsame; [assumption|]. now apply lookup_lt_Some in Hy. }
    apply (IH _ _ _ _ (od_set k a' acc)) in Hrun.
    + destruct Hrun as (copies & Hcopies & Hfinal).
      exists ((k, a') :: copies). split; [|exact Hfinal].
      constructor; [split; [reflexivity | exact Hcopied] | exact Hcopies].
    + unfold dict_setitem. rewrite Hy1. apply list_lookup_insert_eq.
      now apply lookup_lt_Some in Hy1.
Qed.

Lemma od_set_new {V} (k : string) (v : V) (d : odict V) :
  ~ In k (map fst d) -> od_set k v d = d ++ [(k, v)].
Proof.
  induction d as [|[k' v'] d IH]; simpl; intros Hnotin; [reflexivity|].
  destruct (String.eqb k k') eqn:E.
  - apply String.eqb_eq in E. subst k'. tauto.
  - rewrite IH by tauto. reflexivity.
Qed.

Lemma od_update_new {V} (d other : odict V) :
  NoDup (map fst (d ++ other)) -> od_update d other = d ++ other.
Proof.
  revert d. induction other as [|[k v] other IH]; intros d Hnd.
  - unfold od_update. simpl. now rewrite app_nil_r.
  - change (od_update d ((k, v) :: other)) with (od_update (od_set k v d) other).
    assert (Hsplit : d ++ (k, v) :: other = (d ++ [(k, v)]) ++ other)
      by (now rewrite <- app_assoc).
    rewrite Hsplit in Hnd |- *.
    assert (Hk : ~ In k (map fst d)).
    { rewrite !map_app in Hnd. simpl in Hnd.
      apply NoDup_app in Hnd. destruct Hnd as (Hnd & _ & _).
      apply NoDup_app in Hnd. destruct Hnd as (_ & Hdisj & _).
      intros Hin. apply (Hdisj k); [now apply list_elem_of_In | left]. }
    rewrite od_set_new by assumption. now apply IH.
Qed.

Lemma entries_copied_keys (entries copies : odict value) :
  entries_copied entries copies -> map fst copies = map fst entries.
Proof.
  induction 1 as [|[k v] [k' v'] entries copies [Hk _] _ IH]; simpl; [reflexivity|].
  simpl in Hk. congruence.
Qed.

Lemma entries_copied_get (entries copies : odict value) (k : string) :
  entries_copied entries copies ->
  match od_get k entries with
  | Some v => exists v', od_get k copies = Some v' /\ copy_of v v'
  | None => od_get k copies = None
  end.
Proof.
  induction 1 as [|[k0 v] [k0' v'] entries copies [Hk Hv] _ IH]; simpl; [reflexivity|].
  simpl in Hk, Hv. subst k0'. destruct (String.eqb k k0); [eauto | exact IH].
Qed.

(** The copy of a dict is a new dict with the same keys in the same order,
    each with the copy of its value. *)
Lemma deepcopy_dict_copy (fuel : nat) (l : loc) (h : heap) (entries : odict value)
    (y : value) (memo' : gmap loc loc) (h' : heap) :
  h !! l = Some (ODict entries) ->
  NoDup (map fst entries) ->
  deepcopy_rec fuel (VRef l) ∅ h = Some (y, memo', h') ->
  exists copies,
    y = VRef (length h) /\ h' !! length h = Some (ODict copies) /\
    entries_copied entries copies.
Proof.
  intros Hl Hnd Hrun. destruct fuel as [|fuel]; simpl in Hrun.
  - now rewrite lookup_empty in Hrun.
  - rewrite lookup_empty, Hl in Hrun.
    destruct (deepcopy_items _ _ _ _ _) as [[memo1 h1]|] eqn:Hloop; [|discriminate].
    injection Hrun as <- <- <-.
    apply (deepcopy_items_dict _ _ (deepcopy_rec_frame fuel) (deepcopy_rec_copy_of fuel)
             _ _ _ _ _ []) in Hloop.
    + destruct Hloop as (copies & Hcopies & Hfinal). exists copies.
      split; [reflexivity|]. split; [|assumption].
      rewrite od_update_new in Hfinal; [exact Hfinal|].
      simpl. now rewrite (entries_copied_keys _ _ Hcopies).
    + rewrite lookup_app_r by lia. now rewrite Nat.sub_diag.
Qed.

(** ** The copy holds what the original holds *)

Lemma copied_val_mono (memo memo' : gmap loc loc) (v v' : value) :
  memo ⊆ memo' -> copied_val memo v v' -> copied_val memo' v v'.
Proof.
  intros Hsub. destruct v as [| b | z | s | o | l]; simpl; auto.
  intros (y & Hy & ->). exists y. split; [|reflexivity].
  exact (lookup_weaken _ _ _ _ Hy Hsub).
Qed.

Lemma copied_obj_mono (memo memo' : gmap loc loc) (o o' : obj) :
  memo ⊆ memo' -> copied_obj memo o o' -> copied_obj memo' o o'.
Proof.
  intros Hsub. destruct o as [entries|items], o' as [entries'|items']; simpl; auto.
  - intros Hall. eapply Forall2_impl; [exact Hall|].
    intros kv kv' [Hk Hv]. split; [exact Hk|]. now apply (copied_val_mono memo).
  - intros Hall. eapply Forall2_impl; [exact Hall|].
    intros v v'. now apply copied_val_mono.
Qed.

Lemma extends_store_frame (h0 h h' : heap) :
  extends_store h0 h ->
  length h <= length h' -> (forall l, l < length h0 -> h' !! l = h !! l) ->
  extends_store h0 h'.
Proof.
  intros [Hlen Hsame] Hlen' Hsame'. split; [lia|].
  intros l Hl. rewrite Hsame' by assumption. now apply Hsame.
Qed.

Lemma deepcopy_items_graph {K} (h0 : heap) deepcopy_child
    (store : K -> value -> heap -> heap) (stored : K -> value -> obj -> obj) (y : loc) :
  preserves_store deepcopy_child -> copies_graph h0 deepcopy_child ->
  writes_cell y store ->
  (forall k v h o, h !! y = Some o -> store k v h !! y = Some (stored k v o)) ->
  length h0 <= y ->
  forall items memo h memo' h' o,
    extends_store h0 h -> y < length h ->
    Forall (fun kv => val_closed h0 (snd kv)) items ->
    memo_old (length h0) memo -> h !! y = Some o ->
    deepcopy_items deepcopy_child store items memo h = Some (memo', h') ->
    memo ⊆ memo' /\ memo_old (length h0) memo' /\
    (exists copies,
       Forall2 (fun kv kv' => fst kv = fst kv' /\ copied_val memo' (snd kv) (snd kv'))
         items copies /\
       h' !! y = Some (fold_left (fun o kv => stored (fst kv) (snd kv) o) copies o)) /\
    completed h0 memo memo' h h'.
Proof.
  intros Hframe Hchild Hstore Hstored Hy.
  induction items as [|[k a] rest IH]; intros memo h memo' h' o Hext Hylt Hitems Hmemo Ho Hrun.
  - simpl in Hrun. injection Hrun as <- <-. split; [reflexivity|]. split; [assumption|].
    split; [exists []; split; [constructor | exact Ho]|].
    intros l yl Hl Hno. congruence.
  - simpl in Hrun.
    destruct (deepcopy_child a memo h) as [[[a' memo1] h1]|] eqn:Ha; [|discriminate].
    apply Forall_cons in Hitems. destruct Hitems as [Hva Hrest]. simpl in Hva.
    destruct (Hframe _ _ _ _ _ _ Ha) as [Hlen1 Hsame1].
    destruct (Hchild _ _ _ _ _ _ Hext Hva Hmemo Ha) as (Hsub1 & Hmemo1 & Hcopied & Hdone1).
    destruct (Hstore k a' h1) as (Hslen & Hsother & _).
    assert (Ho1 : h1 !! y = Some o) by (rewrite Hsame1; assumption).
    assert (Hext1 : extends_store h0 (store k a' h1)).
    { apply (extends_store_frame h0 h); [assumption | lia |].
      intros l Hl. rewrite Hsother by lia. apply Hsame1. destruct Hext. lia. }
    pose proof (deepcopy_items_frame _ _ y Hframe Hstore _ _ _ _ _ Hrun) as [Hlen' Hsame'].
    destruct (IH memo1 (store k a' h1) memo' h' (stored k a' o) Hext1)
      as (Hsub & Hmemo' & (copies & Hcopies & Hfinal) & Hdone); auto.
    { lia. }
    split; [etransitivity; eassumption|]. split; [assumption|]. split.
    { exists ((k, a') :: copies). split; [|exact Hfinal].
      constructor; [|exact Hcopies]. split; [reflexivity|].
      now apply (copied_val_mono memo1). }
    intros l yl Hl Hno. destruct (memo1 !! l) as [yl1|] eqn:Hl1.
    + assert (yl1 = yl) as -> by (pose proof (lookup_weaken _ _ _ _ Hl1 Hsub); congruence).
      destruct (Hdone1 l yl Hl1 Hno) as ([Hge Hlt] & o1 & o1' & Horig & Hcell & Hobj).
      split; [lia|]. exists o1, o1'. split; [assumption|]. split.
      * rewrite Hsame' by lia. rewrite Hsother by lia. assumption.
      * now apply (copied_obj_mono memo1).
    + destruct (Hdone l yl Hl Hl1) as ([Hge Hlt] & Hrest'). split; [lia | exact Hrest'].
Qed.

Lemma dict_setitem_stored (y : loc) (k : string) (v : value) (h : heap) (o : obj) :
  h !! y = Some o -> dict_setitem y k v h !! y = Some (dict_stored k v o).
Proof.
  intros Ho. unfold dict_setitem. rewrite Ho. destruct o as [acc|items]; [|assumption].
  apply list_lookup_insert_eq. now apply lookup_lt_Some in Ho.
Qed.

Lemma list_append_stored (y : loc) (k : unit) (v : value) (h : heap) (o : obj) :
  h !! y = Some o -> list_append y v h !! y = Some (list_stored k v o).
Proof.
  intros Ho. unfold list_append. rewrite Ho. destruct o as [acc|items]; [assumption|].
  apply list_lookup_insert_eq. now apply lookup_lt_Some in Ho.
Qed.

Lemma dict_stored_fold (copies acc : odict value) :
  fold_left (fun o kv => dict_stored (fst kv) (snd kv) o) copies (ODict acc)
  = ODict (od_update acc copies).
Proof.
  revert acc. induction copies as [|[k v] copies IH]; intros acc; [reflexivity|].
  simpl. now rewrite IH.
Qed.

Lemma list_stored_fold (copies : list (unit * value)) (acc : list value) :
  fold_left (fun o kv => list_stored (fst kv) (snd kv) o) copies (OList acc)
  = OList (acc ++ map snd copies).
Proof.
  revert acc. induction copies as [|[k v] copies IH]; intros acc; simpl.
  - now rewrite app_nil_r.
  - rewrite IH. now rewrite <- app_assoc.
Qed.

Lemma memo_old_insert_closed (h0 : heap) (memo : gmap loc loc) (l y : loc) :
  l < length h0 -> memo_old (length h0) memo -> memo_old (length h0) (<[l := y]> memo).
Proof.
  intros Hl Hold l0. rewrite lookup_insert. case_decide; [now subst | apply Hold].
Qed.

Lemma extends_store_alloc (h0 h : heap) (o : obj) :
  extends_store h0 h -> extends_store h0 (h ++ [o]).
Proof.
  intros [Hlen Hsame]. split; [rewrite length_app; lia|].
  intros l Hl. rewrite lookup_app_l by lia. now apply Hsame.
Qed.

(** The first visit of an object: its new copy, filled by the loop. *)
Lemma deepcopy_object_graph {K} (h0 : heap) deepcopy_child
    (store : K -> value -> heap -> heap) (stored : K -> value -> obj -> obj)
    (items : list (K * value)) (empty : obj) (l : loc) (memo : gmap loc loc) (h : heap)
    (memo' : gmap loc loc) (h' : heap) :
  preserves_store deepcopy_child -> copies_graph h0 deepcopy_child ->
  writes_cell (length h) store ->
  (forall k v h1 o, h1 !! length h = Some o -> store k v h1 !! length h = Some (stored k v o)) ->
  extends_store h0 h -> l < length h0 -> memo_old (length h0) memo -> memo !! l = None ->
  Forall (fun kv => val_closed h0 (snd kv)) items ->
  deepcopy_items deepcopy_child store items (<[l := length h]> memo) (h ++ [empty])
    = Some (memo', h') ->
  memo ⊆ memo' /\ memo_old (length h0) memo' /\ memo' !! l = Some (length h) /\
  length h < length h' /\
  (exists copies,
     Forall2 (fun kv kv' => fst kv = fst kv' /\ copied_val memo' (snd kv) (snd kv'))
       items copies /\
     h' !! length h
     = Some (fold_left (fun o kv => stored (fst kv) (snd kv) o) copies empty)) /\
  completed h0 (<[l := length h]> memo) memo' (h ++ [empty]) h'.
Proof.
  intros Hframe Hchild Hstore Hstored Hext Hl Hmemo Hnew Hitems Hrun.
  pose proof (deepcopy_items_frame _ _ _ Hframe Hstore _ _ _ _ _ Hrun) as [Hlen' _].
  rewrite length_app in Hlen'. simpl in Hlen'.
  destruct (deepcopy_items_graph h0 deepcopy_child store stored (length h)
              Hframe Hchild Hstore Hstored (proj1 Hext)
              items (<[l := length h]> memo) (h ++ [empty]) memo' h' empty)
    as (Hsub & Hmemo' & Hcopies & Hdone); auto.
  - now apply extends_store_alloc.
  - rewrite length_app. simpl. lia.
  - now apply memo_old_insert_closed.
  - rewrite lookup_app_r by lia. now rewrite Nat.sub_diag.
  - split; [etransitivity; [|exact Hsub]; now apply insert_subseteq|].
    split; [assumption|]. split.
    { apply (lookup_weaken _ _ _ _ (lookup_insert_eq memo l (length h)) Hsub). }
    split; [lia|]. split; assumption.
Qed.

Lemma copies_graph_done (h0 : heap) (x y : value) (memo : gmap loc loc) (h : heap) :
  memo_old (length h0) memo -> copied_val memo x y ->
  memo ⊆ memo /\ memo_old (length h0) memo /\ copied_val memo x y /\
  completed h0 memo memo h h.
Proof.
  intros Hmemo Hcopied. split; [reflexivity|]. split; [assumption|]. split; [assumption|].
  intros l yl Hl Hno. congruence.
Qed.

Lemma deepcopy_rec_graph (h0 : heap) (fuel : nat) :
  closed h0 -> dicts_wf h0 -> copies_graph h0 (deepcopy_rec fuel).
Proof.
  intros Hclosed Hwf.
  induction fuel as [|fuel IH]; intros x memo h y memo' h' Hext Hx Hmemo Hrun.
  - destruct x as [| b | z | s | o | l]; simpl in Hrun;
      try (injection Hrun as <- <- <-; now apply copies_graph_done).
    destruct (memo !! l) as [yl|] eqn:Hl; [|discriminate].
    injection Hrun as <- <- <-. apply copies_graph_done; [assumption | simpl; eauto].
  - destruct x as [| b | z | s | o | l]; simpl in Hrun;
      try (injection Hrun as <- <- <-; now apply copies_graph_done).
    destruct (memo !! l) as [yl|] eqn:Hl.
    { injection Hrun as <- <- <-. apply copies_graph_done; [assumption | simpl; eauto]. }
    simpl in Hx. destruct Hext as [Hlen Hsame].
    rewrite Hsame in Hrun by assumption.
    destruct (h0 !! l) as [[entries|items]|] eqn:Ho; [| |discriminate].
    + destruct (deepcopy_items _ _ _ _ _) as [[memo1 h1]|] eqn:Hloop; [|discriminate].
      injection Hrun as <- <- <-.
      destruct (deepcopy_object_graph h0 (deepcopy_rec fuel) (dict_setitem (length h))
                  dict_stored entries (ODict []) l memo h memo1 h1
                  (deepcopy_rec_frame fuel) IH (dict_setitem_writes_cell _)
                  (dict_setitem_stored _) (conj Hlen Hsame) Hx Hmemo Hl)
        as (Hsub & Hmemo1 & Hmine & Hlt & (copies & Hcopies & Hcell) & Hdone); auto.
      { apply Forall_forall. intros [k v] Hin. apply list_elem_of_In in Hin.
        apply (Hclosed l (ODict entries) v Ho). simpl. now apply (in_map snd) in Hin. }
      rewrite dict_stored_fold in Hcell.
      assert (Hkeys : map fst copies = map fst entries).
      { clear - Hcopies. induction Hcopies as [|[k v] [k' v'] ? ? [Hk _] _ IHc];
          simpl; [reflexivity|]. simpl in Hk. congruence. }
      rewrite od_update_new in Hcell by (simpl; rewrite Hkeys; exact (Hwf _ _ Ho)).
      split; [assumption|]. split; [assumption|]. split; [simpl; eauto|].
      intros l' yl Hl' Hno. destruct (decide (l' = l)) as [->|Hne].
      * assert (yl = length h) as -> by congruence.
        split; [lia|]. exists (ODict entries), (ODict copies). auto.
      * destruct (Hdone l' yl Hl') as ([Hge Hlt'] & Hrest).
        { now rewrite lookup_insert_ne by congruence. }
        rewrite length_app in Hge. simpl in Hge. split; [lia | exact Hrest].
    + destruct (deepcopy_items _ _ _ _ _) as [[memo1 h1]|] eqn:Hloop; [|discriminate].
      injection Hrun as <- <- <-.
      destruct (deepcopy_object_graph h0 (deepcopy_rec fuel)
                  (fun _ : unit => list_append (length h))
                  list_stored (map (pair tt) items) (OList []) l memo h memo1 h1
                  (deepcopy_rec_frame fuel) IH (list_append_writes_cell _)
                  (fun k => list_append_stored _ k) (conj Hlen Hsame) Hx Hmemo Hl)
        as (Hsub & Hmemo1 & Hmine & Hlt & (copies & Hcopies & Hcell) & Hdone); auto.
      { apply Forall_forall. intros [k v] Hin. apply list_elem_of_In in Hin.
        apply in_map_iff in Hin. destruct Hin as (v0 & Heq & Hin).
        injection Heq as <- <-. exact (Hclosed l (OList items) v0 Ho Hin). }
      rewrite list_stored_fold in Hcell. simpl in Hcell.
      assert (Hvals : Forall2 (copied_val memo1) items (map snd copies)).
      { clear - Hcopies. revert copies Hcopies.
        induction items as [|v items IHi]; intros copies Hcopies;
          inversion Hcopies as [|? [k' v'] ? ? [_ Hv] Hrest]; subst; simpl; constructor; auto. }
      split; [assumption|]. split; [assumption|]. split; [simpl; eauto|].
      intros l' yl Hl' Hno. destruct (decide (l' = l)) as [->|Hne].
      * assert (yl = length h) as -> by congruence.
        split; [lia|]. exists (OList items), (OList (map snd copies)). auto.
      * destruct (Hdone l' yl Hl') as ([Hge Hlt'] & Hrest).
        { now rewrite lookup_insert_ne by congruence. }
        rewrite length_app in Hge. simpl in Hge. split; [lia | exact Hrest].
Qed.

(** The copy of a config: a new dict with the keys of the config in their
    order, and behind every reference a finished copy. *)
Lemma deepcopy_config_graph (h : heap) (l : loc) (entries : odict value) (y : value)
    (memo' : gmap loc loc) (h1 : heap) :
  closed h -> dicts_wf h -> h !! l = Some (ODict entries) ->
  deepcopy_rec (S (length h)) (VRef l) ∅ h = Some (y, memo', h1) ->
  exists copies,
    y = VRef (length h) /\ h1 !! length h = Some (ODict copies) /\
    memo' !! l = Some (length h) /\
    Forall2 (fun kv kv' => fst kv = fst kv' /\ copied_val memo' (snd kv) (snd kv'))
      entries copies /\
    forall l' yl,
      memo' !! l' = Some yl -> l' <> l ->
      length h < yl /\
      exists o o', h !! l' = Some o /\ h1 !! yl = Some o' /\ copied_obj memo' o o'.
Proof.
  intros Hclosed Hwf Hl Hrun. simpl in Hrun. rewrite lookup_empty, Hl in Hrun.
  destruct (deepcopy_items _ _ _ _ _) as [[memo1 h1']|] eqn:Hloop; [|discriminate].
  injection Hrun as <- <- <-.
  assert (Hext : extends_store h h) by (split; auto).
  assert (Hempty : memo_old (length h) (∅ : gmap loc loc)).
  { intros l0 [y0 Hy0]. now rewrite lookup_empty in Hy0. }
  destruct (deepcopy_object_graph h (deepcopy_rec (length h)) (dict_setitem (length h))
              dict_stored entries (ODict []) l ∅ h memo1 h1'
              (deepcopy_rec_frame _) (deepcopy_rec_graph h _ Hclosed Hwf)
              (dict_setitem_writes_cell _) (dict_setitem_stored _) Hext)
    as (_ & _ & Hmine & _ & (copies & Hcopies & Hcell) & Hdone); auto.
  { now apply lookup_lt_Some in Hl. }
  { apply Forall_forall. intros [k v] Hin. apply list_elem_of_In in Hin.
    apply (Hclosed l (ODict entries) v Hl). simpl. now apply (in_map snd) in Hin. }
  rewrite dict_stored_fold in Hcell.
  assert (Hkeys : map fst copies = map fst entries).
  { clear - Hcopies. induction Hcopies as [|[k v] [k' v'] ? ? [Hk _] _ IHc];
      simpl; [reflexivity|]. simpl in Hk. congruence. }
  rewrite od_update_new in Hcell by (simpl; rewrite Hkeys; exact (Hwf _ _ Hl)).
  exists copies. split; [reflexivity|]. split; [assumption|]. split; [assumption|].
  split; [assumption|].
  intros l' yl Hl' Hne. destruct (Hdone l' yl Hl') as ([Hge _] & Hrest).
  { now rewrite lookup_insert_ne, lookup_empty by congruence. }
  rewrite length_app in Hge. simpl in Hge. split; [lia | exact Hrest].
Qed.

Lemma reach_through (h : heap) (l r : loc) (o : obj) (v : value) :
  h !! l = Some o -> In v (obj_values o) -> reach h [v] r -> reach h [VRef l] r.
Proof.
  intros Ho Hin Hreach. induction Hreach as [r Hroot | r r' o' _ IH Ho' Hin'].
  - destruct Hroot as [->|[]]. apply (reach_step h _ l r o); [|assumption|assumption].
    apply reach_root. now left.
  - now apply (reach_step h _ r r' o').
Qed.

(** Behind a renamed reference the copy holds what the original holds, as
    long as the way does not lead through [root]. *)
Lemma content_copied (h h2 : heap) (memo : gmap loc loc) (root : loc) :
  (forall l' yl,
     memo !! l' = Some yl -> l' <> root ->
     exists o o', h !! l' = Some o /\ h2 !! yl = Some o' /\ copied_obj memo o o') ->
  forall depth v v',
    copied_val memo v v' -> ~ reach h [v] root ->
    content depth h2 v' = content depth h v.
Proof.
  intros Hgraph. induction depth as [|depth IH]; intros v v' Hcopied Hnot;
    destruct v as [| b | z | s | o | l]; simpl in Hcopied; subst; try reflexivity;
    destruct Hcopied as (y & Hy & ->); [reflexivity|].
  assert (Hne : l <> root).
  { intros ->. apply Hnot. apply reach_root. now left. }
  destruct (Hgraph l y Hy Hne) as (o & o' & Ho & Ho' & Hobj).
  simpl. rewrite Ho, Ho'.
  assert (Hchild : forall u u', In u (obj_values o) -> copied_val memo u u' ->
                                content depth h2 u' = content depth h u).
  { intros u u' Hin Hu. apply IH; [assumption|].
    intros Hreach. apply Hnot. now apply (reach_through h l root o u). }
  destruct o as [entries|items], o' as [entries'|items']; simpl in Hobj; try contradiction.
  - f_equal. simpl in Hchild. clear Ho Ho'.
    induction Hobj as [|[k u] [k' u'] entries entries' [Hk Hu] _ IHe]; [reflexivity|].
    simpl in Hk, Hu. subst k'. simpl. f_equal.
    + f_equal. apply Hchild; [now left | assumption].
    + apply IHe. intros u0 u0' Hin. apply Hchild. now right.
  - f_equal. simpl in Hchild. clear Ho Ho'.
    induction Hobj as [|u u' items items' Hu _ IHe]; [reflexivity|].
    simpl. f_equal.
    + apply Hchild; [now left | assumption].
    + apply IHe. intros u0 u0' Hin. apply Hchild. now right.
Qed.

(** The entries of the copy of a config, in the store of the call. *)
Lemma config_copy_content (h : heap) (cfg : value) (entries : odict value) (h1 : heap)
    (copies kwargs : odict value) :
  closed h -> dicts_wf h -> dict_of h cfg = Some entries ->
  deepcopy cfg h = (Ok (VRef (length h)), h1) ->
  h1 !! length h = Some (ODict copies) ->
  Forall2 (fun kv kv' =>
             fst kv = fst kv' /\
             passed_copy h cfg (merged h1 (length h) copies kwargs) (snd kv) (snd kv'))
    entries copies.
Proof.
  intros Hclosed Hwf Hcfg Hdc Hy.
  destruct cfg as [| b | z | s | o | l]; try discriminate. simpl in Hcfg.
  destruct (h !! l) as [[entries0|items]|] eqn:Hl; try discriminate.
  injection Hcfg as ->. unfold deepcopy in Hdc.
  destruct (deepcopy_rec (S (length h)) (VRef l) ∅ h) as [[[y memo'] h1']|] eqn:Hrun;
    [|discriminate].
  injection Hdc as -> ->.
  destruct (deepcopy_config_graph h l entries _ memo' h1 Hclosed Hwf Hl Hrun)
    as (copies' & _ & Hy' & Hmine & Hcopies & Hgraph).
  assert (copies' = copies) as -> by congruence.
  assert (Hcall : forall l' yl,
             memo' !! l' = Some yl -> l' <> l ->
             exists o o', h !! l' = Some o /\
                          merged h1 (length h) copies kwargs !! yl = Some o' /\
                          copied_obj memo' o o').
  { intros l' yl Hl' Hne. destruct (Hgraph l' yl Hl' Hne) as (Hlt & o & o' & Ho & Ho' & Hobj).
    exists o, o'. split; [assumption|]. split; [|assumption].
    unfold merged, popped. now rewrite !list_lookup_insert_ne by lia. }
  eapply Forall2_impl; [exact Hcopies|].
  intros [k v] [k' v'] [Hk Hv]. simpl in *. split; [exact Hk|]. split; [|split].
  - destruct v; simpl in Hv |- *; auto. destruct Hv as (y & _ & ->). eauto.
  - destruct v as [| b | z | s | o | l0]; simpl in Hv; subst; try exact I.
    destruct Hv as (y & Hy0 & ->). simpl.
    destruct (decide (l0 = l)) as [->|Hne]; [assert (y = length h) by congruence; lia|].
    destruct (Hgraph l0 y Hy0 Hne) as [Hlt _]. lia.
  - intros Hnot depth.
    apply (content_copied h _ memo' l Hcall); [assumption | now apply Hnot].
Qed.

(** ** Running [build_from_config] *)

Lemma bind_Ok {S A B} (m : M S A) (k : A -> M S B) (s : S) (a : A) (s' : S) :
  m s = (Ok a, s') -> bind m k s = k a s'.
Proof. intros Hm. unfold bind. now rewrite Hm. Qed.

Lemma bind_Raise {S A B} (m : M S A) (k : A -> M S B) (s : S) (e : exn) (s' : S) :
  m s = (Raise e, s') -> bind m k s = (Raise e, s').
Proof. intros Hm. unfold bind. now rewrite Hm. Qed.

Section BuilderFacts.
Context `{Rendering}.
Variable invoke : pyobj -> odict value -> M heap value.

Lemma memo_fresh_empty (n : nat) : memo_fresh n ∅.
Proof. intros l y Hy. now rewrite lookup_empty in Hy. Qed.

Lemma cells_fresh_initial (h : heap) : cells_fresh (length h) h.
Proof.
  intros l o v Hl Ho. apply lookup_lt_Some in Ho. lia.
Qed.

(** On a config that is a dict with a ["type"] entry, in a well-formed
    store, the copy is made and the entry popped; what remains is the
    resolution of the type, the merge of the overrides and the call. *)
Lemma build_from_config_run (h : heap) (cfg : value) (entries : odict value) (t : value)
    (r : Registry) (kwargs : odict value) :
  closed h -> dicts_wf h ->
  dict_of h cfg = Some entries -> od_get "type" entries = Some t ->
  exists copies t' h1,
    let y := length h in
    entries_copied entries copies /\ od_get "type" copies = Some t' /\ copy_of t t' /\
    length h < length h1 /\ (forall l, l < length h -> h1 !! l = h !! l) /\
    h1 !! y = Some (ODict copies) /\ cells_fresh (length h) h1 /\
    build_from_config invoke cfg (IsRegistry r) kwargs h =
      (req_type_entry <- resolve_entry r t' ;;
       dict_update (VRef y) kwargs ;;;
       invoke_entry invoke req_type_entry (VRef y)) (popped h1 y copies) /\
    build_arguments cfg r kwargs h =
      (req_type_entry <- resolve_entry r t' ;;
       dict_update (VRef y) kwargs ;;;
       args <- dict_items (VRef y) ;;
       ret (req_type_entry, args)) (popped h1 y copies).
Proof.
  intros Hclosed Hwf Hcfg Htype.
  destruct cfg as [| b | z | s | o | l]; try discriminate. simpl in Hcfg.
  destruct (h !! l) as [[entries0|items]|] eqn:Hl; try discriminate.
  injection Hcfg as ->.
  assert (Hlt : l < length h) by (now apply lookup_lt_Some in Hl).
  destruct (deepcopy_total h (VRef l) Hclosed Hlt) as (y & memo' & h1 & Hcopy).
  destruct (deepcopy_rec_frame _ _ _ _ _ _ _ Hcopy) as [Hlen Hsame].
  destruct (deepcopy_rec_fresh (length h) _ _ _ _ _ _ _ (le_n _)
              (memo_fresh_empty _) (cells_fresh_initial h) Hcopy) as (_ & _ & Hfresh).
  destruct (deepcopy_dict_copy _ _ _ _ _ _ _ Hl (Hwf _ _ Hl) Hcopy)
    as (copies & -> & Hy & Hcopies).
  pose proof (entries_copied_get entries copies "type" Hcopies) as Hget.
  rewrite Htype in Hget. destruct Hget as (t' & Ht' & Hcopied).
  exists copies, t', h1. simpl.
  assert (Hlen1 : length h < length h1) by (now apply lookup_lt_Some in Hy).
  repeat (split; [assumption|]).
  assert (Hdc : deepcopy (VRef l) h = (Ok (VRef (length h)), h1))
    by (unfold deepcopy; now rewrite Hcopy).
  assert (Hpop : dict_pop (VRef (length h)) "type" h1 = (Ok t', popped h1 (length h) copies))
    by (unfold dict_pop; now rewrite Hy, Ht').
  split.
  - unfold build_from_config. rewrite (bind_Ok (gets (fun h => h)) _ h h h eq_refl).
    cbv beta. unfold dict_of. rewrite Hl. unfold od_in. rewrite Htype. simpl negb.
    rewrite (bind_Ok (raise_if false _) _ h tt h eq_refl).
    now rewrite (bind_Ok _ _ _ _ _ Hdc), (bind_Ok _ _ _ _ _ Hpop).
  - unfold build_arguments.
    now rewrite (bind_Ok _ _ _ _ _ Hdc), (bind_Ok _ _ _ _ _ Hpop).
Qed.

End BuilderFacts.

Section BuilderSteps.
Context `{Rendering}.
Variable invoke : pyobj -> odict value -> M heap value.

(** Resolving the type reads the registry and leaves the store alone. *)
Lemma resolve_entry_cases (r : Registry) (t : value) (h : heap) :
  match t with
  | VStr s =>
      match get r s with
      | Some o => resolve_entry r t h = (Ok (VObj o), h)
      | None =>
          resolve_entry r t h =
            (Raise (Exn KeyError (s +:+ " not found in " +:+ name r +:+ " registry") None), h)
      end
  | _ => resolve_entry r t h = (Ok t, h)
  end.
Proof.
  destruct t as [| b | z | s | o | l]; try reflexivity.
  simpl. now destruct (get r s).
Qed.

(** With the copy in place, the overrides are merged into it, and the call
    receives the merged entries. *)
Lemma merge_and_call (h1 : heap) (y : loc) (copies kwargs : odict value) (entry : value) :
  h1 !! y = Some (ODict copies) ->
  let args := od_update (od_remove "type" copies) kwargs in
  (dict_update (VRef y) kwargs ;;; invoke_entry invoke entry (VRef y)) (popped h1 y copies)
    = call_entry invoke entry args (merged h1 y copies kwargs) /\
  (dict_update (VRef y) kwargs ;;; args' <- dict_items (VRef y) ;; ret (entry, args'))
    (popped h1 y copies)
    = (Ok (entry, args), merged h1 y copies kwargs).
Proof.
  intros Hy args.
  assert (Hlt : y < length h1) by (now apply lookup_lt_Some in Hy).
  assert (Hupd : dict_update (VRef y) kwargs (popped h1 y copies)
                 = (Ok tt, merged h1 y copies kwargs)).
  { unfold dict_update, popped, merged. now rewrite list_lookup_insert_eq. }
  assert (Hitems : dict_items (VRef y) (merged h1 y copies kwargs)
                   = (Ok args, merged h1 y copies kwargs)).
  { unfold dict_items, dict_of, merged, popped.
    rewrite list_lookup_insert_eq; [reflexivity|]. now rewrite length_insert. }
  split.
  - rewrite (bind_Ok _ _ _ _ _ Hupd).
    destruct entry as [| b | z | s | [c|f|n t] | l]; try reflexivity.
    + unfold invoke_entry, call_entry, try_except_Exception.
      now rewrite (bind_Ok _ _ _ _ _ Hitems).
    + unfold invoke_entry, call_entry, try_except_Exception.
      now rewrite (bind_Ok _ _ _ _ _ Hitems).
  - rewrite (bind_Ok _ _ _ _ _ Hupd). now rewrite (bind_Ok _ _ _ _ _ Hitems).
Qed.

(** The store at the call still has every object that was there before the
    builder ran. *)
Lemma merged_frame (h h1 : heap) (copies kwargs : odict value) :
  (forall l, l < length h -> h1 !! l = h !! l) ->
  forall l, l < length h ->
    popped h1 (length h) copies !! l = h !! l /\
    merged h1 (length h) copies kwargs !! l = h !! l.
Proof.
  intros Hsame l Hl. unfold merged, popped.
  rewrite !list_lookup_insert_ne by lia. auto.
Qed.

(** What the call does to the outcome: a result is returned as it is, an
    [Exception] is wrapped, anything else passes. *)
Lemma call_entry_outcome (o : pyobj) (args : odict value) (h : heap) :
  isclass o || isfunction o = true ->
  call_entry invoke (VObj o) args h =
    match invoke o args h with
    | (Ok v, h') => (Ok v, h')
    | (Raise e, h') =>
        if is_Exception (exn_type e) then
          (Raise (Exn Exception_
                    ((if isclass o then "Failed to init class " else "Failed to invoke function ")
                     +:+ str_obj o +:+ ", with " +:+ str_exn e) (Some e)), h')
        else (Raise e, h')
    end.
Proof.
  destruct o as [c|f|n t]; try discriminate; intros _; simpl;
    unfold try_except_Exception; destruct (invoke _ args h) as [[v|e] h'];
    try reflexivity; now destruct (is_Exception (exn_type e)).
Qed.

(** The three early exits of [build_from_config], each with the store
    untouched. *)
Lemma build_from_config_rejects (h : heap) (cfg : value) (kwargs : odict value) :
  (forall registry,
     dict_of h cfg = None ->
     build_from_config invoke cfg registry kwargs h =
       (Raise (Exn TypeError ("config must be type dict, got " +:+ str_type_of h cfg) None), h)) /\
  (forall registry entries,
     dict_of h cfg = Some entries -> od_get "type" entries = None ->
     build_from_config invoke cfg registry kwargs h =
       (Raise (Exn KeyError ("config must contain key type, got " +:+ str_value h cfg) None), h)) /\
  (forall entries t v,
     dict_of h cfg = Some entries -> od_get "type" entries = Some t ->
     build_from_config invoke cfg (NotRegistry v) kwargs h =
       (Raise (Exn TypeError ("registry must be type Registry, got " +:+ str_type_of h v) None),
        h)).
Proof.
  repeat apply conj.
  - intros registry Hcfg. unfold build_from_config.
    rewrite (bind_Ok (gets (fun h => h)) _ h h h eq_refl). cbv beta. now rewrite Hcfg.
  - intros registry entries Hcfg Htype. unfold build_from_config.
    rewrite (bind_Ok (gets (fun h => h)) _ h h h eq_refl). cbv beta. rewrite Hcfg.
    unfold od_in. rewrite Htype. reflexivity.
  - intros entries t v Hcfg Htype. unfold build_from_config.
    rewrite (bind_Ok (gets (fun h => h)) _ h h h eq_refl). cbv beta. rewrite Hcfg.
    unfold od_in. rewrite Htype. reflexivity.
Qed.

End BuilderSteps.

(** ** The checks of [build_from_config] *)

Section BuilderChecks.
Context `{Rendering}.
Variable invoke : pyobj -> odict value -> M heap value.

(** Past the checks, no error of the checks is raised. *)
Lemma call_entry_no_validation_error (entry : value) (args : odict value) (h h' : heap)
    (e : exn) :
  call_entry invoke entry args h = (Raise e, h') -> ~ validation_error e.
Proof.
  assert (Hother : forall got : string,
             (@Raise value (Exn TypeError ("type must be str or class, got " +:+ got) None), h)
             = (Raise e, h') -> ~ validation_error e).
  { intros v [= <- _] Hve. inversion Hve. }
  assert (Hcall : forall o, isclass o || isfunction o = true ->
             call_entry invoke (VObj o) args h = (Raise e, h') -> ~ validation_error e).
  { intros o Hkind. rewrite call_entry_outcome by assumption.
    destruct (invoke o args h) as [[v|e0] h0]; [discriminate|].
    destruct (is_Exception (exn_type e0)) eqn:Hexc.
    - intros [= <- _] Hve. inversion Hve.
    - intros [= <- _] Hve. destruct Hve; discriminate. }
  destruct entry as [| b | z | s | [c|f|n t] | l];
    try (unfold call_entry, bind, gets, raise; apply Hother).
  - now apply Hcall.
  - now apply Hcall.
Qed.

(** C1: the four checks of [build_from_config], in the order of the code.
    A config that is not a dict raises the TypeError; a dict without
    ["type"] raises the KeyError; with a dict that has ["type"], a registry
    argument that is not a [Registry] raises the TypeError; with all that in
    order, a ["type"] that is a string for which [registry.get] finds nothing
    raises the KeyError whose message names the registry; and a config that
    passes the four checks raises none of these four errors. *)
Theorem build_from_config_checks (h : heap) (cfg : value) (kwargs : odict value) :
  (forall registry,
     dict_of h cfg = None ->
     build_from_config invoke cfg registry kwargs h =
       (Raise (Exn TypeError ("config must be type dict, got " +:+ str_type_of h cfg) None), h)) /\
  (forall registry entries,
     dict_of h cfg = Some entries -> od_get "type" entries = None ->
     build_from_config invoke cfg registry kwargs h =
       (Raise (Exn KeyError ("config must contain key type, got " +:+ str_value h cfg) None), h)) /\
  (forall entries t v,
     dict_of h cfg = Some entries -> od_get "type" entries = Some t ->
     build_from_config invoke cfg (NotRegistry v) kwargs h =
       (Raise (Exn TypeError ("registry must be type Registry, got " +:+ str_type_of h v) None),
        h)) /\
  (forall entries s r,
     closed h -> dicts_wf h ->
     dict_of h cfg = Some entries -> od_get "type" entries = Some (VStr s) ->
     get r s = None ->
     str_contains (name r) (s +:+ " not found in " +:+ name r +:+ " registry") = true /\
     exists h',
       build_from_config invoke cfg (IsRegistry r) kwargs h =
         (Raise (Exn KeyError (s +:+ " not found in " +:+ name r +:+ " registry") None), h')) /\
  (forall entries t r,
     closed h -> dicts_wf h ->
     dict_of h cfg = Some entries -> od_get "type" entries = Some t ->
     (forall s, t = VStr s -> get r s <> None) ->
     forall e h',
       build_from_config invoke cfg (IsRegistry r) kwargs h = (Raise e, h') ->
       ~ validation_error e).
Proof.
  destruct (build_from_config_rejects invoke h cfg kwargs) as (Hdict & Htyped & Hregistry).
  repeat apply conj; [exact Hdict | exact Htyped | exact Hregistry | |].
  - intros entries s r Hclosed Hwf Hcfg Htype Hget. split.
    + apply str_contains_append, str_contains_append, str_contains_here.
    + destruct (build_from_config_run invoke h cfg entries (VStr s) r kwargs
                  Hclosed Hwf Hcfg Htype)
        as (copies & t' & h1 & _ & _ & Hcopy & _ & _ & _ & _ & Hrun & _).
      simpl in Hcopy. subst t'. rewrite Hrun.
      assert (Hres : resolve_entry r (VStr s) (popped h1 (length h) copies)
                     = (Raise (Exn KeyError (s +:+ " not found in " +:+ name r +:+ " registry")
                                 None), popped h1 (length h) copies))
        by (simpl; now rewrite Hget).
      rewrite (bind_Raise _ _ _ _ _ Hres). eauto.
  - intros entries t r Hclosed Hwf Hcfg Htype Hfound e h' Hbuild.
    destruct (build_from_config_run invoke h cfg entries t r kwargs Hclosed Hwf Hcfg Htype)
      as (copies & t' & h1 & _ & _ & Hcopy & _ & _ & Hy & _ & Hrun & _).
    rewrite Hrun in Hbuild. clear Hrun.
    assert (Hres : exists entry,
               resolve_entry r t' (popped h1 (length h) copies)
               = (Ok entry, popped h1 (length h) copies)).
    { pose proof (resolve_entry_cases r t' (popped h1 (length h) copies)) as Hres.
      destruct t' as [| b | z | s | o | l]; eauto.
      assert (t = VStr s) as -> by (destruct t; simpl in Hcopy; try congruence;
                                    destruct Hcopy; discriminate).
      specialize (Hfound s eq_refl). destruct (get r s); [eauto | contradiction]. }
    destruct Hres as [entry Hres]. rewrite (bind_Ok _ _ _ _ _ Hres) in Hbuild.
    destruct (merge_and_call invoke h1 (length h) copies kwargs entry Hy) as [Hcall _].
    rewrite Hcall in Hbuild. now apply call_entry_no_validation_error in Hbuild.
Qed.

End BuilderChecks.

(** ** The caller's config after the call *)





Section BuilderFrame.
Context `{Rendering}.
Variable invoke : pyobj -> odict value -> M heap value.


(** The call is what is left of [build_from_config] once the arguments are
    there. *)
Lemma build_from_config_call (h : heap) (cfg : value) (entries : odict value) (r : Registry)
    (kwargs : odict value) (entry : value) (args : odict value) (h2 : heap) :
  dict_of h cfg = Some entries -> od_in "type" entries = true ->
  build_arguments cfg r kwargs h = (Ok (entry, args), h2) ->
  build_from_config invoke cfg (IsRegistry r) kwargs h = call_entry invoke entry args h2.
Proof.
  intros Hcfg Htype. unfold build_from_config, build_arguments.
  rewrite (bind_Ok (gets (fun h => h)) _ h h h eq_refl). cbv beta. rewrite Hcfg, Htype.
  rewrite (bind_Ok (raise_if (negb true) _) _ h tt h eq_refl).
  unfold bind at 1 6. destruct (deepcopy cfg h) as [[c|e] h1]; [|discriminate].
  unfold bind at 1 5. destruct (dict_pop c "type" h1) as [[t'|e] h1']; [|discriminate].
  unfold bind at 1 4. destruct (resolve_entry r t' h1') as [[entry'|e] h1'']; [|discriminate].
  unfold bind at 1 3. destruct (dict_update c kwargs h1'') as [[[]|e] h2']; [|discriminate].
  unfold bind, ret. destruct (dict_items c h2') as [[args'|e] h2''] eqn:Hitems; [|discriminate].
  intros [= -> -> <-].
  assert (h2'' = h2') as ->.
  { unfold dict_items in Hitems. destruct (dict_of h2' c); now injection Hitems. }
  destruct entry as [| b | z | s | [c0|f|n t] | l]; try reflexivity;
    unfold invoke_entry, call_entry, try_except_Exception;
    now rewrite (bind_Ok _ _ _ _ _ Hitems).
Qed.

End BuilderFrame.

Lemma od_get_absent {V} (k : string) (d : odict V) :
  ~ In k (map fst d) -> od_get k d = None.
Proof.
  induction d as [|[k' v'] d IH]; simpl; intros Hnotin; [reflexivity|].
  destruct (String.eqb k k') eqn:E.
  - apply String.eqb_eq in E. subst k'. tauto.
  - apply IH. tauto.
Qed.

Lemma od_get_remove {V} (k k' : string) (d : odict V) :
  od_get k (od_remove k' d) = if String.eqb k k' then None else od_get k d.
Proof.
  induction d as [|[k0 v0] d IH]; simpl.
  - now destruct (String.eqb k k').
  - destruct (String.eqb k' k0) eqn:E0; simpl.
    + apply String.eqb_eq in E0. subst k0. rewrite IH.
      now destruct (String.eqb k k').
    + rewrite IH. destruct (String.eqb k k0) eqn:E1; [|reflexivity].
      apply String.eqb_eq in E1. subst k0. rewrite String.eqb_sym in E0. now rewrite E0.
Qed.

Lemma od_get_update {V} (k : string) (d other : odict V) :
  NoDup (map fst other) ->
  od_get k (od_update d other) =
    match od_get k other with Some v => Some v | None => od_get k d end.
Proof.
  revert d. induction other as [|[k0 v0] other IH]; intros d Hnd; [reflexivity|].
  simpl in Hnd. apply NoDup_cons in Hnd. destruct Hnd as [Hnotin Hnd].
  change (od_update d ((k0, v0) :: other)) with (od_update (od_set k0 v0 d) other).
  rewrite IH by assumption. simpl.
  destruct (String.eqb k k0) eqn:E.
  - apply String.eqb_eq in E. subst k0.
    rewrite od_get_absent by (now rewrite <- list_elem_of_In). apply od_get_set_eq.
  - apply String.eqb_neq in E. destruct (od_get k other); [reflexivity|].
    now apply od_get_set_ne.
Qed.

Lemma od_set_keys {V} (k : string) (v : V) (d : odict V) :
  exists extra, map fst (od_set k v d) = map fst d ++ extra.
Proof.
  induction d as [|[k' v'] d [extra IH]]; simpl.
  - now exists [k].
  - destruct (String.eqb k k') eqn:E; simpl.
    + apply String.eqb_eq in E. subst k'. exists []. now rewrite app_nil_r.
    + exists extra. now rewrite IH.
Qed.

Lemma od_update_keys {V} (d other : odict V) :
  exists extra, map fst (od_update d other) = map fst d ++ extra.
Proof.
  revert d. induction other as [|[k0 v0] other IH]; intros d.
  - exists []. now rewrite app_nil_r.
  - change (od_update d ((k0, v0) :: other)) with (od_update (od_set k0 v0 d) other).
    destruct (IH (od_set k0 v0 d)) as [extra ->].
    destruct (od_set_keys k0 v0 d) as [extra0 ->].
    exists (extra0 ++ extra). now rewrite app_assoc.
Qed.

Lemma od_remove_keys {V} (k : string) (d : odict V) :
  map fst (od_remove k d) = List.filter (fun k' => negb (String.eqb k k')) (map fst d).
Proof.
  induction d as [|[k' v'] d IH]; simpl; [reflexivity|].
  destruct (String.eqb k k'); simpl; now rewrite IH.
Qed.


Lemma od_get_Forall2 {V W} (P : V -> W -> Prop) (entries : odict V) (copies : odict W)
    (k : string) :
  Forall2 (fun kv kv' => fst kv = fst kv' /\ P (snd kv) (snd kv')) entries copies ->
  match od_get k entries with
  | Some v => exists v', od_get k copies = Some v' /\ P v v'
  | None => od_get k copies = None
  end.
Proof.
  induction 1 as [|[k0 v] [k0' v'] entries copies [Hk Hv] _ IH]; simpl; [reflexivity|].
  simpl in Hk, Hv. subst k0'. destruct (String.eqb k k0); [eauto | exact IH].
Qed.

Lemma keys_Forall2 {V W} (P : V -> W -> Prop) (entries : odict V) (copies : odict W) :
  Forall2 (fun kv kv' => fst kv = fst kv' /\ P (snd kv) (snd kv')) entries copies ->
  map fst copies = map fst entries.
Proof.
  induction 1 as [|[k v] [k' v'] entries copies [Hk _] _ IH]; simpl; [reflexivity|].
  simpl in Hk. congruence.
Qed.


Section BuilderCopies.
Context `{Rendering}.
Variable invoke : pyobj -> odict value -> M heap value.

(** The first two steps of the builder past its checks: the copy of the
    config, made of new objects, and the removal of ["type"] from the copy. *)
Lemma config_copy_run (h : heap) (cfg : value) (entries : odict value) (t : value) :
  closed h -> dicts_wf h ->
  dict_of h cfg = Some entries -> od_get "type" entries = Some t ->
  exists copies t' h1,
    let y := length h in
    entries_copied entries copies /\ od_get "type" copies = Some t' /\ copy_of t t' /\
    (forall l, l < length h -> h1 !! l = h !! l) /\
    h1 !! y = Some (ODict copies) /\ cells_fresh (length h) h1 /\
    deepcopy cfg h = (Ok (VRef y), h1) /\
    dict_pop (VRef y) "type" h1 = (Ok t', popped h1 y copies).
Proof.
  intros Hclosed Hwf Hcfg Htype.
  destruct cfg as [| b | z | s | o | l]; try discriminate. simpl in Hcfg.
  destruct (h !! l) as [[entries0|items]|] eqn:Hl; try discriminate.
  injection Hcfg as ->.
  assert (Hlt : l < length h) by (now apply lookup_lt_Some in Hl).
  destruct (deepcopy_total h (VRef l) Hclosed Hlt) as (y & memo' & h1 & Hcopy).
  destruct (deepcopy_rec_frame _ _ _ _ _ _ _ Hcopy) as [Hlen Hsame].
  destruct (deepcopy_rec_fresh (length h) _ _ _ _ _ _ _ (le_n _)
              (memo_fresh_empty _) (cells_fresh_initial h) Hcopy) as (_ & _ & Hfresh).
  destruct (deepcopy_dict_copy _ _ _ _ _ _ _ Hl (Hwf _ _ Hl) Hcopy)
    as (copies & -> & Hy & Hcopies).
  pose proof (entries_copied_get entries copies "type" Hcopies) as Hget.
  rewrite Htype in Hget. destruct Hget as (t' & Ht' & Hcopied).
  exists copies, t', h1. simpl.
  repeat (split; [assumption|]). split.
  - unfold deepcopy. now rewrite Hcopy.
  - unfold dict_pop. now rewrite Hy, Ht'.
Qed.

(** Resolving the type does not depend on the store. *)
Lemma resolve_entry_store (r : Registry) (t : value) (h h' : heap) :
  exists res, resolve_entry r t h = (res, h) /\ resolve_entry r t h' = (res, h').
Proof.
  destruct t as [| b | z | s | o | l]; simpl; eauto.
  destruct (get r s); eauto.
Qed.

(** The arguments of the call, when the builder gets as far as the call:
    the entries of the copy without ["type"], updated with the overrides;
    and the copy holds what the config holds. *)
Lemma build_arguments_content (h : heap) (cfg : value) (entries : odict value)
    (r : Registry) (kwargs : odict value) (entry : value) (args : odict value) (h2 : heap) :
  closed h -> dicts_wf h ->
  dict_of h cfg = Some entries -> od_in "type" entries = true ->
  build_arguments cfg r kwargs h = (Ok (entry, args), h2) ->
  exists copies,
    Forall2 (fun kv kv' => fst kv = fst kv' /\ passed_copy h cfg h2 (snd kv) (snd kv'))
      entries copies /\
    args = od_update (od_remove "type" copies) kwargs.
Proof.
  intros Hclosed Hwf Hcfg Htype Hargs.
  apply od_in_true in Htype. destruct Htype as [t Htype].
  destruct (config_copy_run h cfg entries t Hclosed Hwf Hcfg Htype)
    as (copies & t' & h1 & _ & _ & _ & _ & Hy & _ & Hdc & Hpop).
  simpl in Hy, Hdc, Hpop. exists copies.
  unfold build_arguments in Hargs.
  rewrite (bind_Ok _ _ _ _ _ Hdc), (bind_Ok _ _ _ _ _ Hpop) in Hargs.
  destruct (resolve_entry_store r t' (popped h1 (length h) copies)
              (popped h1 (length h) copies)) as ([entry'|e] & Hres & _).
  - rewrite (bind_Ok _ _ _ _ _ Hres) in Hargs.
    destruct (merge_and_call invoke h1 (length h) copies kwargs entry' Hy) as [_ Hmerge].
    rewrite Hmerge in Hargs. injection Hargs as _ <- <-.
    split; [|reflexivity]. now apply config_copy_content.
  - rewrite (bind_Raise _ _ _ _ _ Hres) in Hargs. discriminate.
Qed.

End BuilderCopies.

Section BuilderClaims.
Context `{Rendering}.
Variable invoke : pyobj -> odict value -> M heap value.

(** C7, as amended: when the class or function that [build_from_config] has
    resolved raises an exception that is an [Exception], the builder raises
    an [Exception] whose message names the class or function and quotes the
    original, which is attached as its context; an exception that is not an
    [Exception] (SystemExit, KeyboardInterrupt) passes unwrapped. Either way
    the builder does not return normally. *)
Theorem invocation_failure_is_raised (h : heap) (cfg : value) (entries : odict value)
    (r : Registry) (kwargs : odict value) (o : pyobj) (args : odict value) (h2 h3 : heap)
    (e : exn) :
  dict_of h cfg = Some entries -> od_in "type" entries = true ->
  build_arguments cfg r kwargs h = (Ok (VObj o, args), h2) ->
  isclass o || isfunction o = true ->
  invoke o args h2 = (Raise e, h3) ->
  let wrapped :=
    Exn Exception_
      ((if isclass o then "Failed to init class " else "Failed to invoke function ")
       +:+ str_obj o +:+ ", with " +:+ str_exn e) (Some e) in
  build_from_config invoke cfg (IsRegistry r) kwargs h =
    (Raise (if is_Exception (exn_type e) then wrapped else e), h3) /\
  str_contains (str_obj o) (exn_msg wrapped) = true /\
  str_contains (str_exn e) (exn_msg wrapped) = true /\
  exn_context wrapped = Some e /\
  (forall v h', build_from_config invoke cfg (IsRegistry r) kwargs h <> (Ok v, h')).
Proof.
  intros Hcfg Htype Hargs Hkind Hraise wrapped.
  assert (Hrun : build_from_config invoke cfg (IsRegistry r) kwargs h =
                 (Raise (if is_Exception (exn_type e) then wrapped else e), h3)).
  { rewrite (build_from_config_call invoke h cfg entries r kwargs _ _ _ Hcfg Htype Hargs).
    rewrite call_entry_outcome by assumption. rewrite Hraise.
    now destruct (is_Exception (exn_type e)). }
  split; [exact Hrun|]. split; [|split; [|split]].
  - simpl. apply str_contains_append, str_contains_here.
  - simpl. apply str_contains_append, str_contains_append, str_contains_append,
      str_contains_self.
  - reflexivity.
  - intros v h'. rewrite Hrun. discriminate.
Qed.


End BuilderClaims.

(** ** Checking a concrete store *)

Lemma closedb_closed (h : heap) : closedb h = true -> closed h.
Proof.
  unfold closedb, closed. intros Hall l o v Ho Hv.
  rewrite forallb_forall in Hall. apply list_elem_of_lookup_2, list_elem_of_In in Ho.
  specialize (Hall o Ho). rewrite forallb_forall in Hall. specialize (Hall v Hv).
  destruct v; simpl in *; auto. now apply Nat.ltb_lt.
Qed.

Lemma nodupb_NoDup (l : list string) : nodupb l = true -> NoDup l.
Proof.
  induction l as [|x rest IH]; simpl; [constructor|].
  intros Hx. apply andb_true_iff in Hx. destruct Hx as [Hx Hrest]. constructor; [|auto].
  intros Hin. apply list_elem_of_In in Hin. apply negb_true_iff in Hx.
  unfold str_in in Hx. apply not_true_iff_false in Hx. apply Hx.
  apply existsb_exists. exists x. split; [assumption | apply String.eqb_refl].
Qed.

Lemma dicts_wfb_wf (h : heap) : dicts_wfb h = true -> dicts_wf h.
Proof.
  unfold dicts_wfb, dicts_wf. intros Hall l entries Hl.
  rewrite forallb_forall in Hall. apply list_elem_of_lookup_2, list_elem_of_In in Hl.
  apply nodupb_NoDup. exact (Hall _ Hl).
Qed.




(** ** The builder on the example store *)

Lemma build_from_config_checks_witness :
  exists h',
    build_from_config demo_invoke (VRef 0) (IsRegistry demo_registry) [] unknown_type_store
    = (Raise (Exn KeyError "AlexNet not found in MODELS registry" None), h').
Proof.
  destruct (build_from_config_checks demo_invoke unknown_type_store (VRef 0) [])
    as (_ & _ & _ & Hnotfound & _).
  destruct (Hnotfound [("type", VStr "AlexNet"); ("depth", VInt 3)] "AlexNet" demo_registry)
    as [_ Hraise].
  - apply closedb_closed. reflexivity.
  - apply dicts_wfb_wf. reflexivity.
  - reflexivity.
  - reflexivity.
  - reflexivity.
  - exact Hraise.
Defined.

Lemma invocation_failure_is_raised_witness :
  build_from_config demo_invoke (VRef 0) (IsRegistry demo_registry) [("fail", VInt 1)] demo_store
  = (Raise (Exn Exception_ "Failed to init class <ResNet>, with told to fail"
              (Some (Exn (UserError "RuntimeError") "told to fail" None))),
     demo_called_store [("fail", VInt 1)]).
Proof.
  exact (proj1 (invocation_failure_is_raised demo_invoke demo_store (VRef 0)
                  [("type", VStr "ResNet"); ("layers", VRef 1); ("depth", VInt 3)]
                  demo_registry [("fail", VInt 1)] (PClass ResNet)
                  (demo_call_args [("fail", VInt 1)]) (demo_call_store [("fail", VInt 1)])
                  (demo_called_store [("fail", VInt 1)])
                  (Exn (UserError "RuntimeError") "told to fail" None)
                  eq_refl eq_refl eq_refl eq_refl eq_refl)).
Defined.

(** C7 as stated fails for an exception that is not an [Exception]: the
    resolved class exits the interpreter (SystemExit), and what the builder
    raises is that very exception: not wrapped, naming no class, with no
    context. *)
Lemma invocation_failure_counterexample :
  build_arguments (VRef 0) demo_registry [("exit", VInt 1)] demo_store
    = (Ok (VObj (PClass ResNet), demo_call_args [("exit", VInt 1)]),
       demo_call_store [("exit", VInt 1)]) /\
  demo_invoke (PClass ResNet) (demo_call_args [("exit", VInt 1)])
      (demo_call_store [("exit", VInt 1)])
    = (Raise (Exn SystemExit "0" None), demo_called_store [("exit", VInt 1)]) /\
  build_from_config demo_invoke (VRef 0) (IsRegistry demo_registry) [("exit", VInt 1)] demo_store
    = (Raise (Exn SystemExit "0" None), demo_called_store [("exit", VInt 1)]) /\
  str_contains (str_obj (PClass ResNet)) "0" = false /\
  exn_context (Exn SystemExit "0" None) = None.
Proof. repeat split; reflexivity. Qed.



(** * Further properties of the registry *)

(** ** Lookup and membership *)

(** X1: what [get] returns is registered: it is the entry of the class map
    under the key, and true under [bool], or else the entry of the function
    map under the key; whenever [get] finds something [contains] is true, and
    where [contains] is false [get] returns nothing and [fetch_parameters]
    raises. *)
Theorem get_returns_registered (r : Registry) (k : string) :
  (forall o, get r k = Some o ->
     (class_map r !! k = Some o /\ truthy o = true \/ func_map r !! k = Some o) /\
     contains r k = true) /\
  (contains r k = false ->
     get r k = None /\
     fetch_parameters r k = Raise (Exn ValueError ("Unexpected type " +:+ k) None)).
Proof.
  unfold get, contains, fetch_parameters, py_or. split.
  - intros o Hget. destruct (class_map r !! k) as [c|] eqn:Hc.
    + split; [|reflexivity]. destruct (truthy c) eqn:Ht.
      * injection Hget as <-. now left.
      * now right.
    + split; [now right|]. rewrite Hget. reflexivity.
  - intros Hcontains. apply orb_false_iff in Hcontains. destruct Hcontains as [Hc Hf].
    apply bool_decide_eq_false in Hc, Hf.
    destruct (class_map r !! k) as [c|]; [exfalso; apply Hc; eauto|].
    destruct (func_map r !! k) as [f|]; [exfalso; apply Hf; eauto|].
    split; reflexivity.
Qed.

Lemma get_returns_registered_witness :
  (class_map demo_registry !! "vgg" = Some (PFunction make_vgg) /\
   truthy (PFunction make_vgg) = true \/
   func_map demo_registry !! "vgg" = Some (PFunction make_vgg)) /\
  contains demo_registry "vgg" = true.
Proof.
  destruct (get_returns_registered demo_registry "vgg") as [Hfound _].
  apply Hfound. reflexivity.
Defined.

(** ** What a registration does to the registry *)

Section RegistrationEffects.
Context `{Rendering}.

Lemma register_class_effect (w w' : World) (nm : option string) (o : pyobj)
    (res : result pyobj) :
  register_class nm o w = (res, w') -> registration_effect w w' nm o.
Proof.
  intros Hrun. destruct res as [v|e]; [|left; now apply register_class_failure in Hrun].
  destruct o as [c|f|n t]; [|discriminate|discriminate].
  destruct (str_in "class" (allow_types (self w))) eqn:Hallow.
  - rewrite register_class_run in Hrun by assumption. injection Hrun as _ <-.
    right. left. eauto.
  - unfold register_class, bind, raise_if, gets in Hrun. simpl in Hrun.
    rewrite Hallow in Hrun. discriminate.
Qed.

Lemma register_function_effect (w w' : World) (nm : option string) (o : pyobj)
    (res : result pyobj) :
  register_function nm o w = (res, w') -> registration_effect w w' nm o.
Proof.
  intros Hrun. destruct res as [v|e]; [|left; now apply register_function_failure in Hrun].
  destruct o as [c|f|n t]; [discriminate| |discriminate].
  destruct (str_in "function" (allow_types (self w))) eqn:Hallow.
  - rewrite register_function_run in Hrun by assumption. injection Hrun as _ <-.
    right. right. eauto.
  - unfold register_function, bind, raise_if, gets in Hrun. simpl in Hrun.
    rewrite Hallow in Hrun. discriminate.
Qed.

Lemma register_by_hand_effect (w w' : World) (nm : option string) (o : pyobj)
    (res : result unit) :
  register_by_hand o nm w = (res, w') -> registration_effect w w' nm o.
Proof.
  intros Hrun. destruct res as [v|e]; [|left; now apply register_by_hand_failure in Hrun].
  destruct o as [c|f|n t].
  - destruct (str_in "class" (allow_types (self w))) eqn:Hallow.
    + rewrite register_by_hand_class_run in Hrun by assumption. injection Hrun as _ <-.
      right. left. eauto.
    + unfold register_by_hand, bind, raise_if, when, gets in Hrun. simpl in Hrun.
      rewrite (name_or_dunder_named nm (PClass c) (ty_name (cls_type c))) in Hrun
        by reflexivity.
      rewrite Hallow in Hrun. discriminate.
  - destruct (str_in "function" (allow_types (self w))) eqn:Hallow.
    + destruct (is_lambda (PFunction f)) eqn:Hlam; [destruct nm as [k|]|].
      * rewrite register_by_hand_function_run in Hrun by (assumption || discriminate).
        injection Hrun as _ <-. right. right. eauto.
      * unfold register_by_hand, bind, when in Hrun. rewrite Hlam in Hrun. discriminate.
      * rewrite register_by_hand_function_run in Hrun by (assumption || congruence).
        injection Hrun as _ <-. right. right. eauto.
    + destruct (is_lambda (PFunction f)) eqn:Hlam; [destruct nm as [k|]|];
        unfold register_by_hand, bind, raise_if, when, gets in Hrun; rewrite Hlam in Hrun;
        try discriminate; unfold ret at 1 in Hrun;
        rewrite (name_or_dunder_named _ (PFunction f) (fn_name f)) in Hrun by reflexivity;
        simpl in Hrun; rewrite Hallow in Hrun; discriminate.
  - unfold register_by_hand, bind, raise_if, when, gets, name_or_dunder in Hrun.
    simpl in Hrun.
    destruct nm as [k|]; [destruct (String.eqb k EmptyString)|]; try destruct n;
      simpl in Hrun; discriminate.
Qed.

Lemma registered_by_effect (w w' : World) (nm : option string) (o : pyobj) :
  registered_by w w' nm o -> registration_effect w w' nm o.
Proof.
  intros [[res Hrun] | [[res Hrun] | [res Hrun]]].
  - eapply register_class_effect; eauto.
  - eapply register_function_effect; eauto.
  - eapply register_by_hand_effect; eauto.
Qed.

End RegistrationEffects.

Section RegistrationProperties.
Context `{Rendering}.

Lemma contains_true (r : Registry) (k : string) :
  contains r k = true <-> is_Some (class_map r !! k) \/ is_Some (func_map r !! k).
Proof.
  unfold contains. rewrite orb_true_iff, !bool_decide_eq_true. reflexivity.
Qed.

Lemma app_singleton_neq {A} (l : list A) (x : A) : l ++ [x] <> l.
Proof.
  intros Heq. apply (f_equal length) in Heq. rewrite length_app in Heq. simpl in Heq. lia.
Qed.

(** X2: registration and lookup round trip. On a registry that allows the
    kind, the decorator returns the entity itself and stores it under the
    explicit name, or under the entity's own name when the name is missing or
    empty; afterwards [contains] holds for that key and [fetch_parameters]
    and [get] find the entity (a class if it is true under [bool], a function
    if the class map has nothing under the key). A warning is issued exactly
    when the key was already in that map. *)
Theorem registration_round_trip (w : World) (nm : option string) :
  (forall c : ClassObj,
     str_in "class" (allow_types (self w)) = true ->
     let k := str_or nm (ty_name (cls_type c)) in
     exists w',
       register_class nm (PClass c) w = (Ok (PClass c), w') /\
       class_map (self w') !! k = Some (PClass c) /\
       contains (self w') k = true /\
       fetch_parameters (self w') k = Ok (get_class_arguments c) /\
       (cls_truthy c = true -> get (self w') k = Some (PClass c)) /\
       (warned w' = warned w <-> class_map (self w) !! k = None)) /\
  (forall f : FunctionObj,
     str_in "function" (allow_types (self w)) = true ->
     let k := str_or nm (fn_name f) in
     exists w',
       register_function nm (PFunction f) w = (Ok (PFunction f), w') /\
       func_map (self w') !! k = Some (PFunction f) /\
       contains (self w') k = true /\
       (class_map (self w) !! k = None ->
        fetch_parameters (self w') k = Ok (get_function_arguments f) /\
        get (self w') k = Some (PFunction f)) /\
       (warned w' = warned w <-> func_map (self w) !! k = None)).
Proof.
  split.
  - intros c Hallow k. eexists. split; [now apply register_class_run|]. fold k.
    simpl. rewrite lookup_insert_eq. split; [reflexivity|]. split.
    { apply contains_true. left. simpl. rewrite lookup_insert_eq. eauto. }
    split. { unfold fetch_parameters. simpl. now rewrite lookup_insert_eq. }
    split. { intros Ht. unfold get. simpl. rewrite lookup_insert_eq. now apply py_or_truthy. }
    destruct (class_map (self w) !! k) as [prev|]; simpl.
    + split; [intros Heq; now apply app_singleton_neq in Heq | discriminate].
    + rewrite app_nil_r. tauto.
  - intros f Hallow k. eexists. split; [now apply register_function_run|]. fold k.
    simpl. rewrite lookup_insert_eq. split; [reflexivity|]. split.
    { apply contains_true. right. simpl. rewrite lookup_insert_eq. eauto. }
    split.
    { intros Hc. unfold fetch_parameters, get. simpl. rewrite Hc, lookup_insert_eq.
      split; reflexivity. }
    destruct (func_map (self w) !! k) as [prev|]; simpl.
    + split; [intros Heq; now apply app_singleton_neq in Heq | discriminate].
    + rewrite app_nil_r. tauto.
Qed.

(** X3: no registration, successful or failed, by any of the three methods,
    changes what [get], [contains] and [fetch_parameters] answer for a key
    other than the one under which the entity is stored. *)
Theorem registration_other_keys (w w' : World) (nm : option string) (o : pyobj) (k2 : string) :
  registered_by w w' nm o ->
  (forall n, dunder_name o = Some n -> k2 <> str_or nm n) ->
  get (self w') k2 = get (self w) k2 /\
  contains (self w') k2 = contains (self w) k2 /\
  fetch_parameters (self w') k2 = fetch_parameters (self w) k2.
Proof.
  intros Hby Hk2. apply registered_by_effect in Hby.
  destruct Hby as [-> | [(c & -> & Hcls & Hw') | (f & -> & Hfun & Hw')]]; [auto | |];
    simpl in Hw'; subst w'; unfold get, contains, fetch_parameters; simpl;
    rewrite lookup_insert_ne by (intros Heq; now apply (Hk2 _ eq_refl)); auto.
Qed.

(** X4: a registration never takes anything away: the name and the allowed
    kinds of the registry stay, every key that [contains] found is still
    found, and the warnings issued before are still there, followed by at
    most one new warning. *)
Theorem registration_only_adds (w w' : World) (nm : option string) (o : pyobj) :
  registered_by w w' nm o ->
  name (self w') = name (self w) /\
  allow_types (self w') = allow_types (self w) /\
  (forall k, contains (self w) k = true -> contains (self w') k = true) /\
  exists msgs, warned w' = warned w ++ msgs /\ length msgs <= 1.
Proof.
  intros Hby. apply registered_by_effect in Hby.
  assert (Hmsgs : forall (old : option pyobj) mk, length (warnings_for old mk) <= 1).
  { intros [prev|] mk; simpl; lia. }
  destruct Hby as [-> | [(c & -> & Hcls & Hw') | (f & -> & Hfun & Hw')]].
  - repeat split; auto. exists []. rewrite app_nil_r. split; [reflexivity | simpl; lia].
  - simpl in Hw'. subst w'. simpl. repeat split; eauto.
    intros k Hk. apply contains_true in Hk. apply contains_true. simpl.
    destruct Hk as [Hk|Hk]; [left | now right].
    rewrite lookup_insert. case_decide; eauto.
  - simpl in Hw'. subst w'. simpl. repeat split; eauto.
    intros k Hk. apply contains_true in Hk. apply contains_true. simpl.
    destruct Hk as [Hk|Hk]; [now left | right].
    rewrite lookup_insert. case_decide; eauto.
Qed.

(** X5: [register_by_hand] and the decorators agree wherever they succeed.
    What [register_class] or [register_function] returns on success is the
    entity itself, and [register_by_hand] leaves the registry and the
    warnings in the very same state, with one exception: a lambda without an
    explicit name, which [register_function] stores under its own name
    ["<lambda>"] and [register_by_hand] refuses. Every success of
    [register_by_hand] is a success of the decorator for the kind of the
    entity. *)
Theorem register_by_hand_agrees (w w' : World) (nm : option string) (o : pyobj) :
  (forall v, register_class nm o w = (Ok v, w') ->
     v = o /\ register_by_hand o nm w = (Ok tt, w')) /\
  (forall v, register_function nm o w = (Ok v, w') ->
     v = o /\
     if is_lambda o && negb (bool_decide (is_Some nm)) then
       register_by_hand o nm w
         = (Raise (Exn ValueError "Lambda function needs a explicit name, got None" None), w) /\
       func_map (self w') !! "<lambda>" = Some o
     else register_by_hand o nm w = (Ok tt, w')) /\
  (register_by_hand o nm w = (Ok tt, w') ->
     isclass o = true /\ register_class nm o w = (Ok o, w') \/
     isfunction o = true /\ register_function nm o w = (Ok o, w')).
Proof.
  split; [|split].
  - intros v Hrun. destruct o as [c|f|n t]; [|discriminate|discriminate].
    destruct (str_in "class" (allow_types (self w))) eqn:Hallow.
    + rewrite register_class_run in Hrun by assumption. injection Hrun as <- <-.
      split; [reflexivity|]. now apply register_by_hand_class_run.
    + unfold register_class, bind, raise_if, gets in Hrun. simpl in Hrun.
      rewrite Hallow in Hrun. discriminate.
  - intros v Hrun. destruct o as [c|f|n t]; [discriminate| |discriminate].
    destruct (str_in "function" (allow_types (self w))) eqn:Hallow.
    + rewrite register_function_run in Hrun by assumption. injection Hrun as <- <-.
      split; [reflexivity|].
      destruct (is_lambda (PFunction f)) eqn:Hlam; [destruct nm as [k|]|]; simpl.
      * apply register_by_hand_function_run; [assumption | discriminate].
      * split.
        -- unfold register_by_hand, bind, when. now rewrite Hlam.
        -- simpl in Hlam. apply String.eqb_eq in Hlam. rewrite Hlam.
           apply lookup_insert_eq.
      * apply register_by_hand_function_run; [assumption | congruence].
    + unfold register_function, bind, raise_if, gets in Hrun. simpl in Hrun.
      rewrite Hallow in Hrun. discriminate.
  - intros Hrun. pose proof (register_by_hand_effect _ _ _ _ _ Hrun) as Heffect.
    destruct o as [c|f|n t].
    + left. split; [reflexivity|].
      destruct (str_in "class" (allow_types (self w))) eqn:Hallow.
      * rewrite register_by_hand_class_run in Hrun by assumption. injection Hrun as <-.
        now apply register_class_run.
      * unfold register_by_hand, bind, raise_if, when, gets in Hrun. simpl in Hrun.
        rewrite (name_or_dunder_named nm (PClass c) (ty_name (cls_type c))) in Hrun
          by reflexivity.
        rewrite Hallow in Hrun. discriminate.
    + right. split; [reflexivity|].
      destruct (str_in "function" (allow_types (self w))) eqn:Hallow.
      * assert (Hlam : is_lambda (PFunction f) = true -> nm <> None).
        { intros Hlam ->. unfold register_by_hand, bind, when in Hrun.
          rewrite Hlam in Hrun. discriminate. }
        rewrite register_by_hand_function_run in Hrun by assumption. injection Hrun as <-.
        now apply register_function_run.
      * exfalso. clear Heffect.
        destruct (is_lambda (PFunction f)) eqn:Hlam; [destruct nm as [k|]|];
          unfold register_by_hand, bind, raise_if, when, gets in Hrun; rewrite Hlam in Hrun;
          try discriminate; unfold ret at 1 in Hrun;
          rewrite (name_or_dunder_named _ (PFunction f) (fn_name f)) in Hrun by reflexivity;
          simpl in Hrun; rewrite Hallow in Hrun; discriminate.
    + exfalso. unfold register_by_hand, bind, raise_if, when, gets, name_or_dunder in Hrun.
      simpl in Hrun.
      destruct nm as [k|]; [destruct (String.eqb k EmptyString)|]; try destruct n;
        simpl in Hrun; discriminate.
Qed.

(** X6: the state of a registry after any sequence of registrations,
    whatever their outcomes, starting from a new registry: the name and the
    allowed kinds are those given at construction, the class map holds
    classes only and the function map functions only, a kind that is not
    allowed has an empty map, and [fetch_parameters] returns a template for
    every key that [contains] finds and raises the [ValueError] for every
    other key. *)
Theorem registry_invariant (nm : string) (allow : list string) (w : World) :
  registered_from (fresh_world (Registry_init nm allow)) w ->
  name (self w) = nm /\
  allow_types (self w) = allow /\
  registry_kinds (self w) /\
  (str_in "class" allow = false -> class_map (self w) = ∅) /\
  (str_in "function" allow = false -> func_map (self w) = ∅) /\
  (forall k,
     if contains (self w) k then exists template, fetch_parameters (self w) k = Ok template
     else fetch_parameters (self w) k
            = Raise (Exn ValueError ("Unexpected type " +:+ k) None)).
Proof.
  intros Hfrom.
  assert (Hinv : name (self w) = nm /\ allow_types (self w) = allow /\
                 registry_kinds (self w) /\
                 (str_in "class" allow = false -> class_map (self w) = ∅) /\
                 (str_in "function" allow = false -> func_map (self w) = ∅)).
  { induction Hfrom as [|w w' rn o Hfrom IH Hby].
    - split; [reflexivity|]. split; [reflexivity|].
      split; [apply registry_kinds_init|]. split; reflexivity.
    - destruct IH as (Hname & Hallow & Hkinds & Hnoclass & Hnofun).
      apply registered_by_effect in Hby.
      destruct Hby as [-> | [(c & -> & Hcls & Hw') | (f & -> & Hfun & Hw')]].
      + auto 6.
      + simpl in Hw'. subst w'. simpl. split; [exact Hname|]. split; [exact Hallow|].
        split; [now apply (registry_kinds_class_registered w _ c [])|].
        split; [congruence | exact Hnofun].
      + simpl in Hw'. subst w'. simpl. split; [exact Hname|]. split; [exact Hallow|].
        split; [now apply (registry_kinds_function_registered w _ f [])|].
        split; [exact Hnoclass | congruence]. }
  destruct Hinv as (Hname & Hallow & Hkinds & Hnoclass & Hnofun).
  split; [exact Hname|]. split; [exact Hallow|]. split; [exact Hkinds|].
  split; [exact Hnoclass|]. split; [exact Hnofun|].
  intros k. destruct Hkinds as [Hc Hf]. unfold contains, fetch_parameters.
  destruct (class_map (self w) !! k) as [o|] eqn:Hclass.
  - rewrite bool_decide_eq_true_2 by eauto. simpl.
    specialize (Hc k o Hclass). destruct o as [c|f|n t]; try discriminate. eauto.
  - rewrite (bool_decide_eq_false_2 (is_Some None)) by (intros [? ?]; discriminate). simpl.
    destruct (func_map (self w) !! k) as [o|] eqn:Hfunc.
    + rewrite bool_decide_eq_true_2 by eauto.
      specialize (Hf k o Hfunc). destruct o as [c|f|n t]; try discriminate. eauto.
    + rewrite bool_decide_eq_false_2 by (intros [? ?]; discriminate). reflexivity.
Qed.

End RegistrationProperties.

Lemma registration_round_trip_witness :
  exists w',
    register_class None (PClass VGG) models_with_net = (Ok (PClass VGG), w') /\
    get (self w') "VGG" = Some (PClass VGG) /\
    warned w' = warned models_with_net.
Proof.
  destruct (registration_round_trip models_with_net None) as [Hclass _].
  destruct (Hclass VGG) as (w' & Hrun & _ & _ & _ & Hget & Hwarn); [reflexivity|].
  exists w'. split; [exact Hrun|]. split; [apply Hget; reflexivity|].
  apply Hwarn. reflexivity.
Defined.

Lemma registration_other_keys_witness :
  exists w',
    register_function (Some "inception") (PFunction get_inception_v3) models_with_net
      = (Ok (PFunction get_inception_v3), w') /\
    get (self w') "net" = get (self models_with_net) "net" /\
    fetch_parameters (self w') "net" = fetch_parameters (self models_with_net) "net".
Proof.
  eexists. split; [reflexivity|].
  destruct (registration_other_keys models_with_net _ (Some "inception")
              (PFunction get_inception_v3) "net"
              (or_intror (or_introl (ex_intro _ _ eq_refl))))
    as (Hget & _ & Hfetch).
  - intros n [= <-]. discriminate.
  - split; [exact Hget | exact Hfetch].
Defined.

Lemma registration_only_adds_witness :
  exists w',
    register_by_hand (PFunction get_inception_v3) (Some "net") models_with_net = (Ok tt, w') /\
    name (self w') = "MODELS" /\ contains (self w') "net" = true /\ length (warned w') <= 1.
Proof.
  eexists. split; [reflexivity|].
  destruct (registration_only_adds models_with_net _ (Some "net") (PFunction get_inception_v3)
              (or_intror (or_intror (ex_intro _ _ eq_refl))))
    as (Hname & _ & Hkeys & msgs & Hwarned & Hlen).
  split; [exact Hname|]. split; [apply Hkeys; reflexivity|].
  rewrite Hwarned. simpl. exact Hlen.
Defined.

Lemma register_by_hand_agrees_witness :
  exists w',
    register_function None (PFunction a_lambda) (fresh_world MODELS)
      = (Ok (PFunction a_lambda), w') /\
    register_by_hand (PFunction a_lambda) None (fresh_world MODELS)
      = (Raise (Exn ValueError "Lambda function needs a explicit name, got None" None),
         fresh_world MODELS) /\
    func_map (self w') !! "<lambda>" = Some (PFunction a_lambda).
Proof.
  exists (snd (register_function None (PFunction a_lambda) (fresh_world MODELS))).
  split; [reflexivity|].
  destruct (register_by_hand_agrees (fresh_world MODELS)
              (snd (register_function None (PFunction a_lambda) (fresh_world MODELS)))
              None (PFunction a_lambda))
    as (_ & Hfun & _).
  destruct (Hfun (PFunction a_lambda) eq_refl) as [_ Hlam]. exact Hlam.
Defined.

Lemma registry_invariant_witness :
  let w := snd (register_function None (PFunction get_inception_v3)
                  (fresh_world (Registry_init "HEADS" ["class"]))) in
  func_map (self w) = ∅ /\ allow_types (self w) = ["class"].
Proof.
  intros w.
  destruct (registry_invariant "HEADS" ["class"] w) as (_ & Hallow & _ & _ & Hnofun & _).
  - apply (registered_more _ (fresh_world (Registry_init "HEADS" ["class"])) w None
             (PFunction get_inception_v3)); [apply registered_none|].
    right. left.
    exists (fst (register_function None (PFunction get_inception_v3)
                   (fresh_world (Registry_init "HEADS" ["class"])))).
    apply surjective_pairing.
  - split; [apply Hnofun; reflexivity | exact Hallow].
Defined.

(** ** The builder *)

Section BuilderProperties.
Context `{Rendering}.
Variable invoke : pyobj -> odict value -> M heap value.

(** What the call receives and in which store, when the builder gets as far
    as the call. *)
Lemma build_arguments_result (h : heap) (cfg : value) (entries : odict value) (t : value)
    (kwargs : odict value) :
  closed h -> dicts_wf h ->
  dict_of h cfg = Some entries -> od_get "type" entries = Some t ->
  exists copies t' h2,
    entries_copied entries copies /\ copy_of t t' /\
    (forall v, In v (map snd copies) -> val_fresh (length h) v) /\
    (forall l, l < length h -> h2 !! l = h !! l) /\
    let args := od_update (od_remove "type" copies) kwargs in
    forall r,
      (forall entry,
         resolve_entry r t' h2 = (Ok entry, h2) ->
         build_arguments cfg r kwargs h = (Ok (entry, args), h2) /\
         build_from_config invoke cfg (IsRegistry r) kwargs h
           = call_entry invoke entry args h2) /\
      (forall entry args' h2',
         build_arguments cfg r kwargs h = (Ok (entry, args'), h2') ->
         resolve_entry r t' h2 = (Ok entry, h2) /\ args' = args /\ h2' = h2).
Proof.
  intros Hclosed Hwf Hcfg Htype.
  destruct (config_copy_run h cfg entries t Hclosed Hwf Hcfg Htype)
    as (copies & t' & h1 & Hcopies & _ & Hcopy & Hsame & Hy & Hfresh & Hdc & Hpop).
  simpl in *. exists copies, t', (merged h1 (length h) copies kwargs).
  split; [exact Hcopies|]. split; [exact Hcopy|]. split.
  { intros v Hv. exact (Hfresh (length h) (ODict copies) v (le_n _) Hy Hv). }
  split. { intros l Hl. now apply (merged_frame h h1 copies kwargs Hsame l Hl). }
  intros r.
  assert (Hok : forall entry,
             resolve_entry r t' (popped h1 (length h) copies)
               = (Ok entry, popped h1 (length h) copies) ->
             build_arguments cfg r kwargs h
               = (Ok (entry, od_update (od_remove "type" copies) kwargs),
                  merged h1 (length h) copies kwargs)).
  { intros entry Hres.
    destruct (merge_and_call invoke h1 (length h) copies kwargs entry Hy) as [_ Hmerge].
    unfold build_arguments.
    rewrite (bind_Ok _ _ _ _ _ Hdc), (bind_Ok _ _ _ _ _ Hpop), (bind_Ok _ _ _ _ _ Hres).
    exact Hmerge. }
  destruct (resolve_entry_store r t' (popped h1 (length h) copies)
              (merged h1 (length h) copies kwargs)) as (res & Hp & Hm).
  split.
  - intros entry Hres. rewrite Hm in Hres. injection Hres as ->.
    split; [now apply Hok|].
    apply (build_from_config_call invoke h cfg entries r kwargs);
      [assumption | | now apply Hok].
    unfold od_in. now rewrite Htype.
  - intros entry args' h2' Hargs. destruct res as [entry0|e].
    + rewrite (Hok _ Hp) in Hargs. injection Hargs as <- <- <-. auto.
    + unfold build_arguments in Hargs.
      rewrite (bind_Ok _ _ _ _ _ Hdc), (bind_Ok _ _ _ _ _ Hpop), (bind_Raise _ _ _ _ _ Hp)
        in Hargs.
      discriminate.
Qed.

(** X7: the builder returns what the registered entity returns. For a config
    whose ["type"] is the name of a registered class or function, or is the
    class or function itself, the entity is called once, with a store in
    which every object of the caller is as it was, and the builder returns
    exactly when the entity returns, with the same result and the same store.
    When ["type"] is the entity itself the registry is not consulted: the
    outcome is the same for every registry. *)
Theorem build_from_config_returns (h : heap) (cfg : value) (entries : odict value) (t : value)
    (r : Registry) (kwargs : odict value) (o : pyobj) :
  closed h -> dicts_wf h ->
  dict_of h cfg = Some entries -> od_get "type" entries = Some t ->
  t = VObj o \/ (exists s, t = VStr s /\ get r s = Some o) ->
  isclass o || isfunction o = true ->
  exists args h2,
    build_arguments cfg r kwargs h = (Ok (VObj o, args), h2) /\
    (forall l, l < length h -> h2 !! l = h !! l) /\
    (forall v h',
       build_from_config invoke cfg (IsRegistry r) kwargs h = (Ok v, h') <->
       invoke o args h2 = (Ok v, h')) /\
    (t = VObj o ->
     forall r', build_from_config invoke cfg (IsRegistry r') kwargs h
                = build_from_config invoke cfg (IsRegistry r) kwargs h).
Proof.
  intros Hclosed Hwf Hcfg Htype Ht Hkind.
  destruct (build_arguments_result h cfg entries t kwargs Hclosed Hwf Hcfg Htype)
    as (copies & t' & h2 & _ & Hcopy & _ & Hsame & Hrun).
  simpl in Hrun. exists (od_update (od_remove "type" copies) kwargs), h2.
  assert (Hres : resolve_entry r t' h2 = (Ok (VObj o), h2)).
  { destruct Ht as [-> | (s & -> & Hget)]; simpl in Hcopy; subst t'; simpl;
      [reflexivity | now rewrite Hget]. }
  destruct (proj1 (Hrun r) _ Hres) as [Hargs Hbuild].
  split; [exact Hargs|]. split; [exact Hsame|]. split.
  - intros v h'. rewrite Hbuild, call_entry_outcome by assumption.
    destruct (invoke o _ h2) as [[v0|e] h0]; [reflexivity|].
    split; [|discriminate]. now destruct (is_Exception (exn_type e)).
  - intros -> r'. simpl in Hcopy. subst t'.
    destruct (proj1 (Hrun r') _ eq_refl) as [_ Hbuild'].
    now rewrite Hbuild, Hbuild'.
Qed.

Lemma od_get_args (copies kwargs : odict value) (k : string) :
  NoDup (map fst kwargs) ->
  od_get k (od_update (od_remove "type" copies) kwargs) =
    match od_get k kwargs with
    | Some v => Some v
    | None => if String.eqb k "type" then None else od_get k copies
    end.
Proof.
  intros Hnd. rewrite od_get_update by assumption. now rewrite od_get_remove.
Qed.

Lemma od_get_value {V} (k : string) (d : odict V) (v : V) :
  od_get k d = Some v -> In v (map snd d).
Proof.
  induction d as [|[k0 v0] d IH]; [discriminate|].
  simpl. destruct (String.eqb k k0); [left; congruence | right; auto].
Qed.

(** X8: the keyword arguments of the call. With overrides whose keys are
    distinct, as the keys of a dict are: an override is passed as it is,
    whatever the config has under its key, and also under the key ["type"];
    the config's own ["type"] is not passed; every other entry of the config
    is passed as the same atom, or as a reference to an object that did not
    exist before the builder ran and that holds, in the store of the call,
    what the original holds at every depth (the same keys in the same order,
    the same items, the same atoms), as long as the config is not among the
    objects the original leads to; nothing else is passed. The arguments come
    in the order of the config, followed by the overrides that are new. *)
Theorem build_arguments_forwarded (h : heap) (cfg : value) (entries : odict value)
    (r : Registry) (kwargs : odict value) (entry : value) (args : odict value) (h2 : heap) :
  closed h -> dicts_wf h -> NoDup (map fst kwargs) ->
  dict_of h cfg = Some entries -> od_in "type" entries = true ->
  build_arguments cfg r kwargs h = (Ok (entry, args), h2) ->
  (forall k,
     match od_get k kwargs with
     | Some v => od_get k args = Some v
     | None =>
         if String.eqb k "type" then od_get k args = None
         else
           match od_get k entries with
           | Some v => exists v', od_get k args = Some v' /\ passed_copy h cfg h2 v v'
           | None => od_get k args = None
           end
     end) /\
  exists extra, map fst args = map fst (od_remove "type" entries) ++ extra.
Proof.
  intros Hclosed Hwf Hnd Hcfg Htype Hargs.
  destruct (build_arguments_content invoke h cfg entries r kwargs entry args h2
              Hclosed Hwf Hcfg Htype Hargs) as (copies & Hcopies & ->).
  split.
  - intros k. rewrite od_get_args by assumption.
    destruct (od_get k kwargs) as [v|]; [reflexivity|].
    destruct (String.eqb k "type"); [reflexivity|].
    exact (od_get_Forall2 (passed_copy h cfg h2) entries copies k Hcopies).
  - destruct (od_update_keys (od_remove "type" copies) kwargs) as [extra Hkeys].
    exists extra. rewrite Hkeys, !od_remove_keys.
    now rewrite (keys_Forall2 (passed_copy h cfg h2) entries copies Hcopies).
Qed.

(** X9: a ["type"] that is neither a string nor a class or function (a
    number, None, a dict, an instance) is refused with a TypeError after the
    copy has been made: the registered code is not called, whatever it is,
    the registry plays no part, and every object of the caller is as it
    was. *)
Theorem build_from_config_bad_type (h : heap) (cfg : value) (entries : odict value) (t : value)
    (r : Registry) (kwargs : odict value) :
  closed h -> dicts_wf h ->
  dict_of h cfg = Some entries -> od_get "type" entries = Some t ->
  (forall s, t <> VStr s) ->
  (forall o, t = VObj o -> isclass o || isfunction o = false) ->
  exists t' h',
    copy_of t t' /\
    (forall l, l < length h -> h' !! l = h !! l) /\
    forall invoke' r',
      build_from_config invoke' cfg (IsRegistry r') kwargs h
        = (Raise (Exn TypeError ("type must be str or class, got " +:+ str_type_of h' t') None),
           h').
Proof.
  intros Hclosed Hwf Hcfg Htype Hnostr Hnocall.
  destruct (config_copy_run h cfg entries t Hclosed Hwf Hcfg Htype)
    as (copies & t' & h1 & _ & _ & Hcopy & Hsame & Hy & _ & Hdc & Hpop).
  simpl in *. exists t', (merged h1 (length h) copies kwargs).
  split; [exact Hcopy|]. split.
  { intros l Hl. now apply (merged_frame h h1 copies kwargs Hsame l Hl). }
  intros invoke' r'.
  assert (Hshape : match t' with
                   | VStr _ => False
                   | VObj o => isclass o || isfunction o = false
                   | _ => True
                   end).
  { destruct t as [| b | z | s | o | l]; simpl in Hcopy;
      [subst t'; exact I | subst t'; exact I | subst t'; exact I | now destruct (Hnostr s)
      | subst t'; exact (Hnocall o eq_refl) | destruct Hcopy as [y ->]; exact I]. }
  assert (Hres : resolve_entry r' t' (popped h1 (length h) copies)
                 = (Ok t', popped h1 (length h) copies)).
  { destruct t' as [| b | z | s | o | l]; try reflexivity. contradiction. }
  unfold build_from_config. rewrite (bind_Ok (gets (fun h => h)) _ h h h eq_refl).
  cbv beta. rewrite Hcfg. unfold od_in. rewrite Htype. simpl negb.
  rewrite (bind_Ok (raise_if false _) _ h tt h eq_refl).
  rewrite (bind_Ok _ _ _ _ _ Hdc), (bind_Ok _ _ _ _ _ Hpop), (bind_Ok _ _ _ _ _ Hres).
  destruct (merge_and_call invoke' h1 (length h) copies kwargs t' Hy) as [-> _].
  destruct t' as [| b | z | s | [c|f|n ty] | l]; try reflexivity; discriminate.
Qed.

(** The message of the registry check is that of no error raised on the way
    to the call or by the call. *)
Lemma call_entry_not_registry_error (entry : value) (args : odict value) (h h' : heap)
    (e : exn) (got : string) (ctx : option exn) :
  call_entry invoke entry args h = (Raise e, h') ->
  e <> Exn TypeError ("registry must be type Registry, got " +:+ got) ctx.
Proof.
  intros Hcall Heq.
  apply (call_entry_no_validation_error invoke entry args h h' e Hcall).
  subst e. constructor.
Qed.

(** X10: [Registry.build] builds from the registry itself. On a config that
    names a registered entity it returns what [build_from_config] returns
    with that registry: exactly what the entity returns, called in a store
    in which every object of the caller is as it was; the keyword [registry]
    cannot be overridden, [build] refuses it with a TypeError and leaves the
    store alone; and the error with which [build_from_config] refuses a
    registry that is not a [Registry] is never raised. *)
Theorem build_uses_own_registry (r : Registry) (h : heap) (kwargs : odict value) :
  closed h -> dicts_wf h ->
  (forall cfg entries s o,
     od_in "registry" kwargs = false -> od_in "cfg" kwargs = false ->
     dict_of h cfg = Some entries -> od_get "type" entries = Some (VStr s) ->
     get r s = Some o -> isclass o || isfunction o = true ->
     exists args h2,
       (forall l, l < length h -> h2 !! l = h !! l) /\
       forall v h',
         build invoke r [cfg] kwargs h = (Ok v, h') <-> invoke o args h2 = (Ok v, h')) /\
  (forall args,
     od_in "registry" kwargs = true ->
     exists msg, build invoke r args kwargs h = (Raise (Exn TypeError msg None), h)) /\
  (forall args e h' got ctx,
     build invoke r args kwargs h = (Raise e, h') ->
     e <> Exn TypeError ("registry must be type Registry, got " +:+ got) ctx).
Proof.
  intros Hclosed Hwf. split; [|split].
  - intros cfg entries s o Hnoreg Hnocfg Hcfg Htype Hget Hkind.
    destruct (build_arguments_result h cfg entries (VStr s) kwargs Hclosed Hwf Hcfg Htype)
      as (copies & t' & h2 & _ & Hcopy & _ & Hsame & Hrun).
    simpl in Hcopy, Hrun. subst t'.
    exists (od_update (od_remove "type" copies) kwargs), h2.
    split; [exact Hsame|]. intros v h'.
    assert (Hres : resolve_entry r (VStr s) h2 = (Ok (VObj o), h2))
      by (simpl; now rewrite Hget).
    destruct (proj1 (Hrun r) _ Hres) as [_ Hbuild].
    unfold build. rewrite Hnoreg, Hnocfg, Hbuild, call_entry_outcome by assumption.
    destruct (invoke o _ h2) as [[v0|e] h0]; [reflexivity|].
    split; [|discriminate]. now destruct (is_Exception (exn_type e)).
  - intros args Hreg. unfold build. rewrite Hreg. eexists. reflexivity.
  - intros args e h' got ctx Hbuild.
    assert (Hbfc : forall cfg kw,
               build_from_config invoke cfg (IsRegistry r) kw h = (Raise e, h') ->
               e <> Exn TypeError ("registry must be type Registry, got " +:+ got) ctx).
    { intros cfg kw Hrun.
      destruct (build_from_config_rejects invoke h cfg kw) as (Hc1 & Hc2 & _).
      destruct (dict_of h cfg) as [entries|] eqn:Hcfg;
        [|rewrite Hc1 in Hrun by reflexivity; injection Hrun as <- _; intros [= Heq _];
          discriminate].
      destruct (od_get "type" entries) as [t|] eqn:Htype;
        [|rewrite (Hc2 _ entries) in Hrun by auto; injection Hrun as <- _; discriminate].
      destruct (config_copy_run h cfg entries t Hclosed Hwf Hcfg Htype)
        as (copies & t' & h1 & _ & _ & _ & _ & Hy & _ & Hdc & Hpop).
      simpl in Hy, Hdc, Hpop. unfold build_from_config in Hrun.
      rewrite (bind_Ok (gets (fun h => h)) _ h h h eq_refl) in Hrun.
      cbv beta in Hrun. rewrite Hcfg in Hrun. unfold od_in in Hrun. rewrite Htype in Hrun.
      simpl negb in Hrun. rewrite (bind_Ok (raise_if false _) _ h tt h eq_refl) in Hrun.
      rewrite (bind_Ok _ _ _ _ _ Hdc), (bind_Ok _ _ _ _ _ Hpop) in Hrun.
      destruct (resolve_entry_store r t' (popped h1 (length h) copies)
                  (popped h1 (length h) copies)) as ([entry|e0] & Hres & _).
      - rewrite (bind_Ok _ _ _ _ _ Hres) in Hrun.
        destruct (merge_and_call invoke h1 (length h) copies kw entry Hy) as [Hcall _].
        rewrite Hcall in Hrun. exact (call_entry_not_registry_error _ _ _ _ _ got ctx Hrun).
      - rewrite (bind_Raise _ _ _ _ _ Hres) in Hrun. injection Hrun as <- _.
        destruct t' as [| b | z | s | o | l]; try discriminate.
        simpl in Hres. destruct (get r s); [discriminate|].
        injection Hres as <-. discriminate. }
    unfold build in Hbuild.
    destruct (od_in "registry" kwargs);
      [injection Hbuild as <- _; discriminate|].
    destruct args as [|cfg more].
    + destruct (od_get "cfg" kwargs) as [cfg|]; [exact (Hbfc _ _ Hbuild)|].
      injection Hbuild as <- _. discriminate.
    + destruct (od_in "cfg" kwargs);
        [injection Hbuild as <- _; discriminate|].
      destruct more; [exact (Hbfc _ _ Hbuild)|].
      injection Hbuild as <- _. discriminate.
Qed.

End BuilderProperties.

(** ** The builder on the example store *)

Lemma build_from_config_returns_witness :
  exists args h2,
    build_arguments (VRef 0) demo_registry [] demo_store
      = (Ok (VObj (PClass ResNet), args), h2) /\
    forall v h',
      build_from_config demo_invoke (VRef 0) (IsRegistry demo_registry) [] demo_store
        = (Ok v, h') <->
      demo_invoke (PClass ResNet) args h2 = (Ok v, h').
Proof.
  destruct (build_from_config_returns demo_invoke demo_store (VRef 0)
              [("type", VStr "ResNet"); ("layers", VRef 1); ("depth", VInt 3)]
              (VStr "ResNet") demo_registry [] (PClass ResNet))
    as (args & h2 & Hargs & _ & Hiff & _).
  - apply closedb_closed. reflexivity.
  - apply dicts_wfb_wf. reflexivity.
  - reflexivity.
  - reflexivity.
  - right. exists "ResNet". split; reflexivity.
  - reflexivity.
  - exists args, h2. split; [exact Hargs | exact Hiff].
Defined.

(** The list of the example config leads to no other object. *)
Lemma demo_list_is_a_leaf (l : loc) : reach demo_store [VRef 1] l -> l = 1.
Proof.
  induction 1 as [l Hin | l l' o _ IH Ho Hin].
  - destruct Hin as [Heq|[]]. now injection Heq.
  - subst l. injection Ho as <-. simpl in Hin. destruct Hin as [Heq|[Heq|[]]]; discriminate.
Qed.

Lemma build_arguments_forwarded_witness :
  let kwargs := [("depth", VInt 5); ("type", VStr "basic")] in
  let args := demo_call_args kwargs in
  od_get "depth" args = Some (VInt 5) /\
  od_get "type" args = Some (VStr "basic") /\
  exists v',
    od_get "layers" args = Some v' /\ val_fresh 2 v' /\
    content 1 (demo_call_store kwargs) v' = TList [TAtom (VInt 1); TAtom (VInt 2)].
Proof.
  intros kwargs args.
  destruct (build_arguments_forwarded demo_invoke demo_store (VRef 0)
              [("type", VStr "ResNet"); ("layers", VRef 1); ("depth", VInt 3)]
              demo_registry kwargs (VObj (PClass ResNet)) args (demo_call_store kwargs))
    as [Hget _].
  - apply closedb_closed. reflexivity.
  - apply dicts_wfb_wf. reflexivity.
  - apply nodupb_NoDup. reflexivity.
  - reflexivity.
  - reflexivity.
  - reflexivity.
  - split; [exact (Hget "depth")|]. split; [exact (Hget "type")|].
    destruct (Hget "layers") as (v' & Hv' & _ & Hfresh & Hcontent).
    exists v'. split; [exact Hv'|]. split; [exact Hfresh|].
    assert (Hleaf : forall l, VRef 0 = VRef l -> ~ reach demo_store [VRef 1] l).
    { intros l [= <-] Hreach. apply demo_list_is_a_leaf in Hreach. discriminate. }
    exact (Hcontent Hleaf 1).
Defined.

Lemma build_from_config_bad_type_witness :
  exists h',
    build_from_config demo_invoke (VRef 0) (IsRegistry demo_registry) [] numbered_type_store
      = (Raise (Exn TypeError
                  ("type must be str or class, got " +:+ str_type_of h' (VInt 7)) None), h') /\
    h' !! 0 = numbered_type_store !! 0.
Proof.
  destruct (build_from_config_bad_type numbered_type_store (VRef 0)
              [("type", VInt 7); ("depth", VInt 3)] (VInt 7) demo_registry [])
    as (t' & h' & Hcopy & Hsame & Hrun).
  - apply closedb_closed. reflexivity.
  - apply dicts_wfb_wf. reflexivity.
  - reflexivity.
  - reflexivity.
  - discriminate.
  - discriminate.
  - simpl in Hcopy. subst t'. exists h'. split; [apply Hrun|].
    apply Hsame. simpl. lia.
Defined.

Lemma build_uses_own_registry_witness :
  (exists args h2,
     forall v h',
       build demo_invoke demo_registry [VRef 0] [("depth", VInt 5)] demo_store = (Ok v, h') <->
       demo_invoke (PClass ResNet) args h2 = (Ok v, h')) /\
  forall e h',
    build demo_invoke demo_registry [VRef 0] [("depth", VInt 5)] demo_store = (Raise e, h') ->
    e <> Exn TypeError ("registry must be type Registry, got " +:+ "<class 'dict'>") None.
Proof.
  destruct (build_uses_own_registry demo_invoke demo_registry demo_store [("depth", VInt 5)])
    as (Hbuild & _ & Hnever).
  - apply closedb_closed. reflexivity.
  - apply dicts_wfb_wf. reflexivity.
  - split.
    + destruct (Hbuild (VRef 0)
                  [("type", VStr "ResNet"); ("layers", VRef 1); ("depth", VInt 3)]
                  "ResNet" (PClass ResNet) eq_refl eq_refl eq_refl eq_refl eq_refl eq_refl)
        as (args & h2 & _ & Hiff).
      exists args, h2. exact Hiff.
    + intros e h'. apply Hnever.
Defined.

(** ** Templates *)

Lemma doc_params_loop (params : list DocParam) (k : string) (acc : odict string) :
  od_get k
    (fold_left
       (fun ret param =>
          match description param with
          | Some desc => od_set (arg_name param) desc ret
          | None => ret
          end) params acc) =
    match last_description params k with
    | Some desc => Some desc
    | None => od_get k acc
    end.
Proof.
  revert acc. induction params as [|param params IH]; intros acc; simpl; [reflexivity|].
  rewrite IH. destruct (last_description params k); [reflexivity|].
  destruct (description param) as [desc|].
  - destruct (String.eqb k (arg_name param)) eqn:E.
    + apply String.eqb_eq in E. subst k. apply od_get_set_eq.
    + apply String.eqb_neq in E. now apply od_get_set_ne.
  - now destruct (String.eqb k (arg_name param)).
Qed.

Lemma od_set_add_key {V} (k : string) (v : V) (d : odict V) :
  map fst (od_set k v d) = add_key (map fst d) k.
Proof.
  unfold add_key. induction d as [|[k' v'] d IH]; simpl; [reflexivity|].
  destruct (String.eqb k k') eqn:E; simpl.
  - apply String.eqb_eq in E. now subst k'.
  - rewrite IH. now destruct (str_in k (map fst d)).
Qed.

Lemma str_in_In (x : string) (l : list string) : str_in x l = true <-> In x l.
Proof.
  unfold str_in. rewrite existsb_exists. split.
  - intros (y & Hy & E). apply String.eqb_eq in E. now subst y.
  - intros Hx. exists x. split; [assumption | apply String.eqb_refl].
Qed.

Lemma str_in_app (x : string) (l l' : list string) :
  str_in x (l ++ l') = str_in x l || str_in x l'.
Proof. unfold str_in. apply existsb_app. Qed.

Lemma filter_filter {A} (f g : A -> bool) (l : list A) :
  List.filter f (List.filter g l) = List.filter (fun x => g x && f x) l.
Proof.
  induction l as [|x l IH]; simpl; [reflexivity|].
  destruct (g x); simpl; [destruct (f x)|]; now rewrite IH.
Qed.

Lemma add_key_fold (l acc : list string) :
  fold_left add_key l acc
  = acc ++ List.filter (fun y => negb (str_in y acc)) (first_occurrences l).
Proof.
  revert acc. induction l as [|x l IH]; intros acc; simpl; [now rewrite app_nil_r|].
  rewrite IH. unfold add_key. destruct (str_in x acc) eqn:Hx; simpl.
  - f_equal. rewrite filter_filter. apply List.filter_ext. intros y.
    destruct (String.eqb x y) eqn:E; [|reflexivity].
    apply String.eqb_eq in E. subst y. now rewrite Hx.
  - rewrite <- app_assoc. simpl. do 2 f_equal. rewrite filter_filter.
    apply List.filter_ext. intros y. rewrite str_in_app. simpl.
    rewrite orb_false_r, negb_orb, (String.eqb_sym y x). apply andb_comm.
Qed.

Lemma first_occurrences_fold (l : list string) :
  fold_left add_key l [] = first_occurrences l.
Proof.
  rewrite add_key_fold. simpl. induction (first_occurrences l) as [|x l' IH]; simpl; congruence.
Qed.

Lemma filter_NoDup {A} (f : A -> bool) (l : list A) : NoDup l -> NoDup (List.filter f l).
Proof.
  induction 1 as [|x l Hx Hnd IH]; simpl; [constructor|].
  destruct (f x); [|assumption]. constructor; [|assumption].
  rewrite list_elem_of_In in *. intros Hin. apply filter_In in Hin. tauto.
Qed.

Lemma first_occurrences_NoDup (l : list string) : NoDup (first_occurrences l).
Proof.
  induction l as [|x l IH]; simpl; constructor; [|now apply filter_NoDup].
  rewrite list_elem_of_In. intros Hin. apply filter_In in Hin. destruct Hin as [_ Hx].
  now rewrite String.eqb_refl in Hx.
Qed.

Lemma first_occurrences_In (l : list string) (x : string) :
  In x (first_occurrences l) <-> In x l.
Proof.
  induction l as [|y l IH]; simpl; [reflexivity|].
  rewrite filter_In, IH. split; [tauto|].
  intros [->|Hin]; [now left|].
  destruct (String.eqb y x) eqn:E; [left; now apply String.eqb_eq | right; auto].
Qed.

Lemma first_occurrences_id (l : list string) : NoDup l -> first_occurrences l = l.
Proof.
  induction 1 as [|x l Hx Hnd IH]; simpl; [reflexivity|].
  rewrite IH. f_equal. rewrite list_elem_of_In in Hx. clear - Hx.
  induction l as [|y l IH]; simpl; [reflexivity|].
  destruct (String.eqb x y) eqn:E; simpl.
  - apply String.eqb_eq in E. subst y. exfalso. apply Hx. now left.
  - f_equal. apply IH. intros Hin. apply Hx. now right.
Qed.

(** A loop that stores at most one entry a turn: the keys it leaves. *)
Lemma keys_fold {A V} (step : odict V -> A -> odict V) (key : A -> option string) :
  (forall acc x,
     map fst (step acc x)
     = match key x with Some k => add_key (map fst acc) k | None => map fst acc end) ->
  forall l acc,
    map fst (fold_left step l acc) = fold_left add_key (omap key l) (map fst acc).
Proof.
  intros Hstep. induction l as [|x l IH]; intros acc; simpl; [reflexivity|].
  rewrite IH, Hstep. now destruct (key x).
Qed.

Lemma omap_filter_names (f : InspectParameter -> bool) (l : list InspectParameter) :
  omap (fun value => if f value then Some (p_name value) else None) l
  = map p_name (List.filter f l).
Proof.
  induction l as [|x l IH]; simpl; [reflexivity|].
  destruct (f x); simpl; rewrite <- IH; reflexivity.
Qed.

Lemma function_template_keys (func : FunctionObj) :
  map fst (get_function_arguments func)
  = first_occurrences (map p_name (List.filter listed_kind (fn_params func))).
Proof.
  unfold get_function_arguments.
  rewrite (keys_fold _ (fun value => if listed_kind value then Some (p_name value) else None)).
  - now rewrite omap_filter_names, first_occurrences_fold.
  - intros acc value. unfold function_parameter_step, listed_kind.
    destruct (p_kind value); simpl; try reflexivity; apply od_set_add_key.
Qed.

Lemma class_level_keys (type_c : TypeObj) (args : odict ValueComment) :
  map fst (class_level_step args type_c)
  = fold_left add_key (map p_name (List.filter listed_in_class (ty_init type_c)))
      (map fst args).
Proof.
  unfold class_level_step.
  rewrite (keys_fold _ (fun value => if kind_eqb (p_kind value) POSITIONAL_OR_KEYWORD
                                     then Some (p_name value) else None)).
  - pose proof (omap_filter_names
                  (fun value => kind_eqb (p_kind value) POSITIONAL_OR_KEYWORD)
                  (List.filter (fun value => negb (String.eqb (p_name value) "self"))
                     (ty_init type_c))) as Hnames.
    cbv beta in Hnames. rewrite Hnames, filter_filter. reflexivity.
  - intros acc value. unfold class_parameter_step.
    destruct (kind_eqb (p_kind value) POSITIONAL_OR_KEYWORD); simpl; [|reflexivity].
    unfold add_key. destruct (od_in (p_name value) acc) eqn:Hin.
    + apply od_in_true in Hin. destruct Hin as [vc Hvc].
      assert (Hkey : str_in (p_name value) (map fst acc) = true); [|now rewrite Hkey].
      apply str_in_In. destruct (in_dec string_dec (p_name value) (map fst acc)) as [|Hno];
        [assumption|]. apply od_get_absent in Hno. congruence.
    + rewrite od_set_add_key. reflexivity.
Qed.

Lemma class_template_keys (cls : ClassObj) :
  map fst (get_class_arguments cls) = first_occurrences (class_parameter_names cls).
Proof.
  unfold get_class_arguments, class_parameter_names.
  rewrite <- first_occurrences_fold.
  change (@nil string) with (map fst (@nil (string * ValueComment))).
  generalize (@nil (string * ValueComment)) as args.
  induction (mro cls) as [|type_c levels IH]; intros args; simpl; [reflexivity|].
  rewrite IH, class_level_keys, fold_left_app. reflexivity.
Qed.

(** X11: what [_get_doc_params] keeps of a parsed docstring: under each
    name the description that comes last for it, a parameter without
    description counting for nothing; every name once, in the order in which
    the names are first described. *)
Theorem doc_params_last_description (params : list DocParam) :
  (forall k, od_get k (_get_doc_params params) = last_description params k) /\
  map fst (_get_doc_params params)
  = first_occurrences
      (omap (fun param => match description param with
                          | Some _ => Some (arg_name param)
                          | None => None
                          end) params) /\
  NoDup (map fst (_get_doc_params params)).
Proof.
  assert (Hkeys : map fst (_get_doc_params params)
                  = first_occurrences
                      (omap (fun param => match description param with
                                          | Some _ => Some (arg_name param)
                                          | None => None
                                          end) params)).
  { unfold _get_doc_params. rewrite <- first_occurrences_fold.
    apply (keys_fold _ (fun param => match description param with
                                      | Some _ => Some (arg_name param)
                                      | None => None
                                      end)).
    intros acc param. destruct (description param); [apply od_set_add_key | reflexivity]. }
  split; [|split; [exact Hkeys|]].
  - intros k. unfold _get_doc_params. rewrite doc_params_loop.
    now destruct (last_description params k).
  - rewrite Hkeys. apply first_occurrences_NoDup.
Qed.

(** X12: the keys of a template and their order. The template of a function
    has the names of its positional-or-keyword and variadic parameters, in
    the order of the signature, and no others; the template of a class has
    the names of the positional-or-keyword parameters other than [self] of the
    constructors along the method-resolution order, each name where it first
    occurs, so that the parameters of the class itself come before those that
    only its bases have; no name occurs twice and [self] is never a key. *)
Theorem template_keys :
  (forall func : FunctionObj,
     map fst (get_function_arguments func)
     = first_occurrences (map p_name (List.filter listed_kind (fn_params func))) /\
     (NoDup (map p_name (fn_params func)) ->
      map fst (get_function_arguments func)
      = map p_name (List.filter listed_kind (fn_params func)))) /\
  (forall cls : ClassObj,
     map fst (get_class_arguments cls) = first_occurrences (class_parameter_names cls) /\
     NoDup (map fst (get_class_arguments cls)) /\
     ~ In "self" (map fst (get_class_arguments cls))).
Proof.
  split.
  - intros func. split; [apply function_template_keys|].
    intros Hnd. rewrite function_template_keys. apply first_occurrences_id.
    revert Hnd. generalize (fn_params func) as params.
    induction params as [|value params IH]; simpl; intros Hnd; [constructor|].
    apply NoDup_cons in Hnd. destruct Hnd as [Hnotin Hnd].
    destruct (listed_kind value); simpl; [|now apply IH].
    apply NoDup_cons. split; [|now apply IH].
    rewrite list_elem_of_In in *. intros Hin. apply Hnotin.
    apply in_map_iff in Hin. destruct Hin as (v & Hv & Hin).
    apply filter_In in Hin. apply in_map_iff. exists v. tauto.
  - intros cls. rewrite class_template_keys.
    split; [reflexivity|]. split; [apply first_occurrences_NoDup|].
    rewrite first_occurrences_In. unfold class_parameter_names.
    intros Hin. apply in_concat in Hin. destruct Hin as (names & Hnames & Hin).
    apply in_map_iff in Hnames. destruct Hnames as (type_c & <- & _).
    apply in_map_iff in Hin. destruct Hin as (value & Hname & Hin).
    apply filter_In in Hin. destruct Hin as [_ Hlisted].
    unfold listed_in_class in Hlisted. rewrite Hname in Hlisted. discriminate.
Qed.

Lemma template_keys_witness :
  map fst (get_function_arguments collect) = ["first"; "args"; "kwargs"] /\
  map fst (get_class_arguments B_class) = ["p"; "q"].
Proof.
  destruct template_keys as [Hfunc Hclass]. split.
  - destruct (Hfunc collect) as [_ Hkeys]. apply Hkeys.
    apply nodupb_NoDup. reflexivity.
  - destruct (Hclass B_class) as [Hkeys _]. exact Hkeys.
Defined.

Lemma function_parameter_loop_none (func : FunctionObj) (docs : odict string)
    (params : list InspectParameter) (value : InspectParameter) :
  NoDup (map p_name params) ->
  In value params ->
  function_entry func docs value = None ->
  od_get (p_name value) (fold_left (function_parameter_step func docs) params []) = None.
Proof.
  intros Hnd Hin Hentry. apply od_get_absent.
  rewrite (keys_fold _ (fun v => if listed_kind v then Some (p_name v) else None)).
  - rewrite omap_filter_names, first_occurrences_fold, first_occurrences_In.
    intros Hin'. apply in_map_iff in Hin'. destruct Hin' as (v & Hname & Hv).
    apply filter_In in Hv. destruct Hv as [Hv Hlisted].
    assert (v = value) as ->.
    { clear - Hnd Hin Hv Hname. induction params as [|q params IH]; [contradiction|].
      simpl in Hnd. apply NoDup_cons in Hnd. destruct Hnd as [Hnotin Hnd].
      rewrite list_elem_of_In in Hnotin.
      destruct Hin as [->|Hin], Hv as [->|Hv]; auto.
      - exfalso. apply Hnotin. rewrite <- Hname. now apply in_map.
      - exfalso. apply Hnotin. rewrite Hname. now apply in_map. }
    unfold function_entry in Hentry. unfold listed_kind in Hlisted.
    destruct (p_kind value); discriminate.
  - intros acc v. unfold function_parameter_step, listed_kind.
    destruct (p_kind v); simpl; try reflexivity; apply od_set_add_key.
Qed.

Lemma prefix_app_r (a b c : string) :
  String.prefix a b = true -> String.prefix a (b +:+ c) = true.
Proof.
  revert b. induction a as [|x a IH]; intros b Hb; [simpl; now destruct (b +:+ c)|].
  destruct b as [|y b]; [discriminate|].
  change (String y b +:+ c) with (String y (b +:+ c)). simpl in *.
  destruct (ascii_dec x y); [now apply IH | discriminate].
Qed.

Lemma prefix_refl (a : string) : String.prefix a a = true.
Proof.
  induction a as [|x a IH]; simpl; [reflexivity|].
  destruct (ascii_dec x x); [assumption | contradiction].
Qed.

(** The [ValueComment] of a parameter: with a default, the default and the
    description; without, the placeholder, and what the annotation gives. *)
Lemma parameter_value_comment_cases (owner : string) (docs : odict string)
    (value : InspectParameter) :
  let vc := parameter_value_comment owner docs value in
  let placeholder := "TODO: Complete this value for type " +:+ owner in
  (forall d, p_default value = Some d ->
     vc = {| vc_value := d;
             vc_comment := match od_get (p_name value) docs with
                           | Some doc => doc
                           | None => EmptyString
                           end |}) /\
  (p_default value = None ->
   String.prefix placeholder (vc_comment vc) = true /\
   vc_value vc = match p_annotation value with
                 | Some ann => match ann_call ann with Some v => v | None => PyNone end
                 | None => PyNone
                 end /\
   (p_annotation value = None -> od_get (p_name value) docs = None ->
    vc_comment vc = placeholder +:+ ".")).
Proof.
  intros vc placeholder. subst vc. unfold parameter_value_comment. fold placeholder. split.
  - intros d ->. destruct (od_get (p_name value) docs) as [doc|]; [|reflexivity].
    now rewrite orb_true_r.
  - intros ->. split; [|split].
    + clearbody placeholder.
      destruct (p_annotation value) as [ann|]; [destruct (ann_call ann), (ann_name ann)|];
        destruct (od_get (p_name value) docs) as [doc|]; simpl vc_comment;
        try match goal with |- context [if ?c then _ else _] => destruct c end;
        repeat apply prefix_app_r; apply prefix_refl.
    + destruct (p_annotation value) as [ann|]; [destruct (ann_call ann), (ann_name ann)|];
        reflexivity.
    + intros -> ->. reflexivity.
Qed.

(** X13: the entries of the template of a function, whose parameter names
    are distinct. A positional-or-keyword parameter with a default has the
    default as value and, as comment, its description in the docstring, or
    nothing. One without a default has a comment that begins with the
    placeholder naming the function, and as value what calling its annotation
    returns, or None when it has no annotation or the call raises; with no
    annotation and no description the comment is the placeholder and a full
    stop. A positional-only or keyword-only parameter has no entry, default or
    not. *)
Theorem function_template_entries (func : FunctionObj) (value : InspectParameter) :
  NoDup (map p_name (fn_params func)) ->
  In value (fn_params func) ->
  let k := p_name value in
  let docs := _get_doc_params (fn_doc func) in
  let template := get_function_arguments func in
  let placeholder := "TODO: Complete this value for type " +:+ fn_name func in
  (p_kind value = POSITIONAL_OR_KEYWORD ->
   forall d, p_default value = Some d ->
     od_get k template
     = Some {| vc_value := d;
               vc_comment := match od_get k docs with
                             | Some doc => doc
                             | None => EmptyString
                             end |}) /\
  (p_kind value = POSITIONAL_OR_KEYWORD -> p_default value = None ->
   exists vc,
     od_get k template = Some vc /\
     String.prefix placeholder (vc_comment vc) = true /\
     vc_value vc = match p_annotation value with
                   | Some ann => match ann_call ann with Some v => v | None => PyNone end
                   | None => PyNone
                   end /\
     (p_annotation value = None -> od_get k docs = None ->
      vc_comment vc = placeholder +:+ ".")) /\
  (p_kind value = POSITIONAL_ONLY \/ p_kind value = KEYWORD_ONLY ->
   od_get k template = None).
Proof.
  intros Hnd Hin k docs template placeholder.
  assert (Hentry : p_kind value = POSITIONAL_OR_KEYWORD ->
                   od_get k template
                   = Some (parameter_value_comment (fn_name func) docs value)).
  { intros Hkind. apply function_parameter_loop; auto.
    unfold function_entry. now rewrite Hkind. }
  destruct (parameter_value_comment_cases (fn_name func) docs value) as [Hdefault Htodo].
  split; [|split].
  - intros Hkind d Hd. rewrite (Hentry Hkind). f_equal. now apply Hdefault.
  - intros Hkind Hd. eexists. split; [exact (Hentry Hkind)|]. now apply Htodo.
  - intros Hkind. apply function_parameter_loop_none; auto.
    unfold function_entry. now destruct Hkind as [-> | ->].
Qed.

Lemma function_template_entries_witness :
  od_get "depth" (get_function_arguments make_vgg)
  = Some {| vc_value := PyNone; vc_comment := "TODO: Complete this value for type make_vgg." |}.
Proof.
  destruct (function_template_entries make_vgg
              (pk "depth" POSITIONAL_OR_KEYWORD None))
    as (_ & Htodo & _).
  - apply nodupb_NoDup. reflexivity.
  - left. reflexivity.
  - destruct (Htodo eq_refl eq_refl) as (vc & Hget & _ & Hvalue & Hcomment).
    transitivity (Some vc); [exact Hget|].
    f_equal. destruct vc as [v c]. simpl in Hvalue, Hcomment.
    rewrite Hvalue, (Hcomment eq_refl eq_refl). reflexivity.
Defined.

(** X14: the entry of the template of a class for a parameter that the
    class or one of its bases declares. When no class before [type_c] in the
    method-resolution order has a parameter of that name, the entry of a
    positional-or-keyword parameter of [type_c] other than [self] is made from
    [type_c] alone, however many classes come before it: with a default, the
    default, commented with the description in the docstring of [type_c];
    without, a comment that begins with the placeholder naming [type_c], not
    the class asked for. *)
Theorem class_template_entries (cls : ClassObj) (pre post : list TypeObj) (type_c : TypeObj)
    (value : InspectParameter) :
  mro cls = pre ++ type_c :: post ->
  (forall t q, In t pre -> In q (ty_init t) -> p_name q <> p_name value) ->
  NoDup (map p_name (ty_init type_c)) ->
  In value (ty_init type_c) ->
  p_kind value = POSITIONAL_OR_KEYWORD -> p_name value <> "self" ->
  let k := p_name value in
  let docs := _get_doc_params (ty_doc type_c) in
  exists vc,
    od_get k (get_class_arguments cls) = Some vc /\
    vc = parameter_value_comment (ty_name type_c) docs value /\
    (forall d, p_default value = Some d ->
       vc = {| vc_value := d;
               vc_comment := match od_get k docs with
                             | Some doc => doc
                             | None => EmptyString
                             end |}) /\
    (p_default value = None ->
     String.prefix ("TODO: Complete this value for type " +:+ ty_name type_c) (vc_comment vc)
     = true).
Proof.
  intros Hmro Hpre Hnd Hin Hkind Hself k docs.
  exists (parameter_value_comment (ty_name type_c) docs value).
  destruct (parameter_value_comment_cases (ty_name type_c) docs value) as [Hdefault Htodo].
  split; [|split; [reflexivity|split; [exact Hdefault | intros Hd; now apply Htodo]]].
  rewrite get_class_arguments_first_capture, Hmro, first_capture_app.
  assert (Hnone : first_capture pre k = None).
  { clear Hmro. induction pre as [|t pre IH]; [reflexivity|]. simpl.
    rewrite level_capture_absent by (intros q Hq; apply (Hpre t q); [now left | assumption]).
    apply IH. intros t' q Ht'. apply Hpre. now right. }
  rewrite Hnone. simpl. unfold k. now rewrite level_capture_declared.
Qed.

Lemma class_template_entries_witness :
  od_get "q" (get_class_arguments B_class)
  = Some {| vc_value := PyInt 2; vc_comment := EmptyString |}.
Proof.
  destruct (class_template_entries B_class [B_type] [object_type] A_type
              (pk "q" POSITIONAL_OR_KEYWORD (Some (PyInt 2))))
    as (vc & Hget & _ & Hdefault & _).
  - reflexivity.
  - intros t q [<-|[]] [<-|[<-|[<-|[]]]]; discriminate.
  - apply nodupb_NoDup. reflexivity.
  - right. right. left. reflexivity.
  - reflexivity.
  - discriminate.
  - transitivity (Some vc); [exact Hget|]. f_equal. now apply Hdefault.
Defined.

(** ** Listings *)

Lemma insert_sorted_perm (x : string) (l : list string) : insert_sorted x l ≡ₚ x :: l.
Proof.
  induction l as [|y l IH]; simpl; [reflexivity|].
  destruct (String.leb x y); [reflexivity|].
  rewrite IH. apply Permutation_swap.
Qed.

Lemma sorted_perm (l : list string) : sorted l ≡ₚ l.
Proof.
  induction l as [|x l IH]; simpl; [reflexivity|].
  now rewrite insert_sorted_perm, IH.
Qed.

Lemma insert_sorted_ascending (x : string) (l : list string) :
  ascending l = true -> ascending (insert_sorted x l) = true.
Proof.
  induction l as [|y l IH]; intros Hl; [reflexivity|].
  simpl insert_sorted. destruct (String.leb x y) eqn:Hxy.
  - simpl. simpl in Hl. now rewrite Hxy, Hl.
  - assert (Hyx : String.leb y x = true)
      by (destruct (String.leb_total x y); congruence).
    destruct l as [|z l]; [simpl; now rewrite Hyx|].
    simpl in Hl. apply andb_true_iff in Hl. destruct Hl as [Hyz Hl].
    specialize (IH Hl). simpl insert_sorted in *.
    destruct (String.leb x z) eqn:Hxz.
    + simpl. simpl in Hl. now rewrite Hyx, Hxz, Hl.
    + change (String.leb y z && ascending (z :: insert_sorted x l) = true).
      now rewrite Hyz, IH.
Qed.

Lemma sorted_ascending (l : list string) : ascending (sorted l) = true.
Proof.
  induction l as [|x l IH]; [reflexivity|]. simpl. now apply insert_sorted_ascending.
Qed.

Lemma keys_In (m : gmap string pyobj) (k : string) : In k (keys m) <-> is_Some (m !! k).
Proof.
  unfold keys. rewrite <- list_elem_of_In, list_elem_of_fmap. split.
  - intros ([k' o] & -> & Hin). apply elem_of_map_to_list in Hin. eauto.
  - intros [o Ho]. exists (k, o). split; [reflexivity|]. now apply elem_of_map_to_list.
Qed.

Lemma keys_length (m : gmap string pyobj) : length (keys m) = size m.
Proof. unfold keys. now rewrite length_fmap, length_map_to_list. Qed.

Lemma collect_results_all {A B} (f : A -> result B) (l : list A) :
  (forall x, In x l -> exists y, f x = Ok y) ->
  exists ys, collect_results f l = Ok ys /\ Forall2 (fun x y => f x = Ok y) l ys.
Proof.
  induction l as [|x l IH]; intros Hall; simpl.
  - exists []. split; [reflexivity | constructor].
  - destruct (Hall x (or_introl eq_refl)) as [y Hy].
    destruct IH as (ys & Hys & Hall2); [intros x' Hx'; apply Hall; now right|].
    exists (y :: ys). rewrite Hy, Hys. split; [reflexivity | now constructor].
Qed.

Lemma split_newline_join (line rest : string) :
  split_newline line = [line] ->
  split_newline (line +:+ newline +:+ rest) = line :: split_newline rest.
Proof.
  induction line as [|c line IH]; intros Hline; [reflexivity|].
  change (String c line +:+ newline +:+ rest) with (String c (line +:+ newline +:+ rest)).
  simpl in Hline |- *. destruct (Ascii.eqb c "010") eqn:Hc.
  - destruct (split_newline line); discriminate.
  - destruct (split_newline line) as [|first others] eqn:Hsplit;
      [injection Hline as <-; discriminate|].
    injection Hline as -> ->. now rewrite IH.
Qed.

Lemma split_newline_concat (line : string) (lines : list string) :
  Forall (fun line => split_newline line = [line]) (line :: lines) ->
  split_newline (String.concat newline (line :: lines)) = line :: lines.
Proof.
  revert line. induction lines as [|next lines IH]; intros line Hall.
  - simpl. now inversion Hall.
  - change (String.concat newline (line :: next :: lines))
      with (line +:+ newline +:+ String.concat newline (next :: lines)).
    inversion Hall as [|? ? Hline Hrest]. subst.
    rewrite split_newline_join by assumption. now rewrite IH.
Qed.

Section ListingProperties.
Context `{Rendering}.
Variable module_of : pyobj -> string.

(** In a registry that holds functions in its function map, every turn of
    the loop of [_list] yields a line. *)
Lemma list_descriptions_run (r : Registry) :
  registry_kinds r ->
  exists lines,
    _list_descriptions module_of r = Ok lines /\
    length lines = size (class_map r) + size (func_map r) /\
    Forall2
      (fun key line =>
         match class_map r !! key with
         | Some cls => line = key +:+ ": " +:+ str_obj cls
         | None =>
             exists f,
               func_map r !! key = Some (PFunction f) /\
               line = key +:+ ": <function '" +:+ module_of (PFunction f) +:+ "."
                      +:+ fn_name f +:+ "'>"
         end)
      (sorted (keys (class_map r) ++ keys (func_map r))) lines.
Proof.
  intros [_ Hfuncs]. unfold _list_descriptions.
  destruct (collect_results_all (describe module_of r)
              (sorted (keys (class_map r) ++ keys (func_map r))))
    as (lines & Hrun & Hall).
  - intros key Hkey. rewrite sorted_perm in Hkey. apply in_app_or in Hkey.
    unfold describe. destruct (class_map r !! key) as [cls|] eqn:Hc; [eauto|].
    destruct Hkey as [Hkey|Hkey]; apply keys_In in Hkey; destruct Hkey as [o Ho];
      [congruence|].
    rewrite Ho. specialize (Hfuncs key o Ho). destruct o as [c|f|n t]; try discriminate.
    simpl. eauto.
  - exists lines. split; [exact Hrun|]. split.
    + rewrite <- (Forall2_length _ _ _ Hall), sorted_perm, length_app.
      now rewrite !keys_length.
    + clear Hrun. induction Hall as [|key line ks lines Hline Hall IH]; constructor;
        [|exact IH].
      unfold describe in Hline. destruct (class_map r !! key) as [cls|]; [congruence|].
      destruct (func_map r !! key) as [o|] eqn:Ho; [|discriminate].
      specialize (Hfuncs key o Ho). destruct o as [c|f|n t]; try discriminate.
      simpl in Hline. exists f. split; [reflexivity | congruence].
Qed.

(** X15: the listing of a registry that holds functions in its function
    map. [_list] never raises; it has one line for every key of the class map
    and one for every key of the function map, in ascending order of the
    keys, joined by line feeds. The line of a key of the class map shows the
    class, also when it is printed for the function of the same key, which is
    then not shown; the line of any other key shows the module and the name
    of the function. *)
Theorem list_lines (r : Registry) :
  registry_kinds r ->
  let ks := sorted (keys (class_map r) ++ keys (func_map r)) in
  ks ≡ₚ keys (class_map r) ++ keys (func_map r) /\
  ascending ks = true /\
  exists lines,
    _list module_of r = Ok (String.concat newline lines) /\
    length lines = size (class_map r) + size (func_map r) /\
    Forall2
      (fun key line =>
         match class_map r !! key with
         | Some cls => line = key +:+ ": " +:+ str_obj cls
         | None =>
             exists f,
               func_map r !! key = Some (PFunction f) /\
               line = key +:+ ": <function '" +:+ module_of (PFunction f) +:+ "."
                      +:+ fn_name f +:+ "'>"
         end) ks lines.
Proof.
  intros Hkinds ks. split; [apply sorted_perm|]. split; [apply sorted_ascending|].
  destruct (list_descriptions_run r Hkinds) as (lines & Hrun & Hlen & Hall).
  exists lines. unfold _list. rewrite Hrun. auto.
Qed.

(** X16: the text of a registry that holds functions in its function map.
    [__repr__] never raises. For a registry with no entry it is the header
    followed by a lone tab; otherwise, when no line of the listing has a line
    feed in it, it is the header followed by the lines of the listing, each
    behind a tab. *)
Theorem repr_text (r : Registry) :
  registry_kinds r ->
  let text := fun body => "Registry [" +:+ name r +:+ "], " +:+ newline +:+ body in
  exists lines,
    _list_descriptions module_of r = Ok lines /\
    (lines = [] <-> class_map r = ∅ /\ func_map r = ∅) /\
    (lines = [] -> __repr__ module_of r = Ok (text tab)) /\
    (lines <> [] ->
     Forall (fun line => split_newline line = [line]) lines ->
     __repr__ module_of r
     = Ok (text (String.concat newline (map (fun s => tab +:+ s) lines)))).
Proof.
  intros Hkinds text.
  destruct (list_descriptions_run r Hkinds) as (lines & Hrun & Hlen & _).
  exists lines. split; [exact Hrun|]. split; [|split].
  - rewrite <- !map_size_empty_iff. destruct lines; simpl in Hlen; split.
    + lia.
    + reflexivity.
    + discriminate.
    + lia.
  - intros ->. unfold __repr__, _list. rewrite Hrun. reflexivity.
  - intros Hsome Hlines. unfold __repr__, _list. rewrite Hrun.
    destruct lines as [|line lines]; [contradiction|].
    now rewrite split_newline_concat.
Qed.

End ListingProperties.

Lemma list_lines_witness :
  exists lines,
    _list (fun _ => "models") demo_registry = Ok (String.concat newline lines) /\
    length lines = 2.
Proof.
  destruct (list_lines (fun _ => "models") demo_registry) as (_ & _ & lines & Hrun & Hlen & _).
  - split; intros k o Hk.
    + destruct (decide (k = "ResNet")) as [->|Hne].
      * injection Hk as <-. reflexivity.
      * unfold demo_registry in Hk. simpl in Hk.
        now rewrite lookup_singleton_ne in Hk by congruence.
    + destruct (decide (k = "vgg")) as [->|Hne].
      * injection Hk as <-. reflexivity.
      * unfold demo_registry in Hk. simpl in Hk.
        now rewrite lookup_singleton_ne in Hk by congruence.
  - exists lines. split; [exact Hrun | exact Hlen].
Defined.

Lemma repr_text_witness :
  __repr__ (fun _ => "models") (Registry_init "MODELS" default_allow_types)
  = Ok ("Registry [MODELS], " +:+ newline +:+ tab).
Proof.
  destruct (repr_text (fun _ => "models") (Registry_init "MODELS" default_allow_types)
              (registry_kinds_init "MODELS" default_allow_types))
    as (lines & _ & Hempty & Hrepr & _).
  apply Hrepr. apply Hempty. split; reflexivity.
Defined.
